(** * content-backend: index parser, structure materializer, content
    post-processing and pipeline orchestrator.

    A shallow embedding of
      - src/openai/client.ts      (index parser: parseIndexContent and its
                                   helpers; loadConfig; the clean-up of
                                   generateJSON),
      - src/schemas/validator.ts  (Topic, Module, CourseSpec,
                                   createEmptyCourseSpec),
      - src/auth.ts               (createCourseStructure, getTopicDocs),
      - src/google/drive.ts       (findFolder, findDoc, findOrCreateFolder,
                                   findOrCreateDoc and their query texts),
      - src/pipeline/runner.ts    (runPipeline, generateAndWriteTopic,
                                   generateTopicContent,
                                   cleanMarkdownToPlainText).

    JavaScript strings are sequences of UTF-16 code units; they are modelled
    as [list N].  The regular expressions of the source are written as terms
    of a small regex syntax and run by a backtracking matcher that follows
    the ECMAScript matching order (leftmost alternative first, greedy or
    lazy repetition, captures numbered by opening parenthesis). *)

From Stdlib Require Import List NArith ZArith Bool String Ascii Lia Arith.
From Stdlib Require Import Sorting.Sorted Sorting.Permutation.
From Stdlib Require Import DecimalString DecimalN.
Import ListNotations.

Local Open Scope N_scope.

(* ================================================================== *)
(** ** JavaScript strings *)
(* ================================================================== *)

Module JS.

(** A string value: its UTF-16 code units. *)
Definition jsstring := list N.

Fixpoint bytes_of (s : string) : list N :=
  match s with
  | EmptyString => []
  | String a s' => N_of_ascii a :: bytes_of s'
  end.

(** Source files are UTF-8; a literal is decoded to code points ... *)
Fixpoint utf8_decode (bs : list N) : list N :=
  match bs with
  | [] => []
  | b0 :: r0 =>
      if b0 <? 0x80 then b0 :: utf8_decode r0
      else if b0 <? 0xE0 then
        match r0 with
        | b1 :: r1 => ((b0 mod 0x20) * 0x40 + b1 mod 0x40) :: utf8_decode r1
        | [] => []
        end
      else if b0 <? 0xF0 then
        match r0 with
        | b1 :: b2 :: r2 =>
            ((b0 mod 0x10) * 0x1000 + (b1 mod 0x40) * 0x40 + b2 mod 0x40)
              :: utf8_decode r2
        | _ => []
        end
      else
        match r0 with
        | b1 :: b2 :: b3 :: r3 =>
            ((b0 mod 0x08) * 0x40000 + (b1 mod 0x40) * 0x1000
             + (b2 mod 0x40) * 0x40 + b3 mod 0x40) :: utf8_decode r3
        | _ => []
        end
  end.

(** ... and each code point to one code unit or a surrogate pair. *)
Definition utf16_encode (cp : N) : list N :=
  if cp <? 0x10000 then [cp]
  else [0xD800 + (cp - 0x10000) / 0x400; 0xDC00 + (cp - 0x10000) mod 0x400].

(** The string value of a source literal. *)
Definition js (s : string) : jsstring :=
  flat_map utf16_encode (utf8_decode (bytes_of s)).

Definition eqb (a b : jsstring) : bool :=
  if list_eq_dec N.eq_dec a b then true else false.

(** The line feed, ['\n']. *)
Definition js_nl : jsstring := [0x0A].

(** [String(n)] and [`${n}`] for a non-negative integer. *)
Definition ofNumber (n : N) : jsstring :=
  js (NilZero.string_of_uint (N.to_uint n)).

(** ECMAScript LineTerminator. *)
Definition isLineTerminator (c : N) : bool :=
  (c =? 0x0A) || (c =? 0x0D) || (c =? 0x2028) || (c =? 0x2029).

(** ECMAScript WhiteSpace and LineTerminator: what [\s] matches and what
    [trim] strips. *)
Definition isWhiteSpace (c : N) : bool :=
  (c =? 0x09) || (c =? 0x0A) || (c =? 0x0B) || (c =? 0x0C) || (c =? 0x0D)
  || (c =? 0x20) || (c =? 0xA0) || (c =? 0x1680)
  || ((0x2000 <=? c) && (c <=? 0x200A))
  || (c =? 0x2028) || (c =? 0x2029) || (c =? 0x202F) || (c =? 0x205F)
  || (c =? 0x3000) || (c =? 0xFEFF).

(** [\d] *)
Definition isDigit (c : N) : bool := (0x30 <=? c) && (c <=? 0x39).

Fixpoint trimStart (s : jsstring) : jsstring :=
  match s with
  | c :: t => if isWhiteSpace c then trimStart t else s
  | [] => []
  end.

Definition trimEnd (s : jsstring) : jsstring := rev (trimStart (rev s)).

Definition trim (s : jsstring) : jsstring := trimEnd (trimStart s).

Fixpoint startsWith (p s : jsstring) : bool :=
  match p, s with
  | [], _ => true
  | a :: p', b :: s' => (a =? b) && startsWith p' s'
  | _ :: _, [] => false
  end.

Definition endsWith (s p : jsstring) : bool := startsWith (rev p) (rev s).

Fixpoint includes (s p : jsstring) : bool :=
  startsWith p s || match s with [] => false | _ :: t => includes t p end.

(** [s.replace(p, r)] with a string pattern: the first occurrence only. *)
Fixpoint replaceFirst (s p r : jsstring) : jsstring :=
  if startsWith p s then r ++ skipn (List.length p) s
  else match s with
       | [] => []
       | c :: t => c :: replaceFirst t p r
       end.

(** [s.split('\n')] *)
Fixpoint splitLines (s : jsstring) : list jsstring :=
  match s with
  | [] => [[]]
  | c :: t =>
      if c =? 0x0A then [] :: splitLines t
      else match splitLines t with
           | l :: ls => (c :: l) :: ls
           | [] => [[c]]
           end
  end.

(** [parts.join(sep)] *)
Fixpoint join (sep : jsstring) (parts : list jsstring) : jsstring :=
  match parts with
  | [] => []
  | [p] => p
  | p :: ps => p ++ sep ++ join sep ps
  end.

(** Membership in a bracket class written as a literal, read code unit by
    code unit (the patterns below have no [u] flag, so an astral symbol
    contributes its two surrogates to the class). *)
Definition oneOf (cls : jsstring) (c : N) : bool := existsb (N.eqb c) cls.

(** Case folding of a code unit for an [i]-flag pattern (ECMAScript
    Canonicalize without [u]): upper-casing of a single code unit.  The
    table covers the letters of Basic Latin and Latin-1 whose upper case is
    again in that range, which is where every letter that occurs in a
    pattern of this program lies.  Every other code unit is mapped to
    itself; in ECMAScript none of them folds onto a Basic Latin letter or
    onto one of the Latin-1 capitals, so whether a code unit matches a
    pattern letter of this program is decided as in ECMAScript. *)
Definition canonicalize (c : N) : N :=
  if (0x61 <=? c) && (c <=? 0x7A) then c - 0x20
  else if (0xE0 <=? c) && (c <=? 0xFE) && negb (c =? 0xF7) then c - 0x20
  else c.

End JS.

Import JS.

(* ================================================================== *)
(** ** Regular expressions *)
(* ================================================================== *)

Module Regex.

(** Pattern syntax.  [Class p] is one code unit accepted by [p] (a literal
    character, a bracket class, an escape such as [\d], or [.]); [Star true r]
    is [r*], [Star false r] is [r*?]; [Group i r] is the [i]-th capturing
    parenthesis; [Bol] and [Eol] are [^] and [$]. *)
Inductive regex : Type :=
| Empty
| Class (p : N -> bool)
| Cat (r1 r2 : regex)
| Or (r1 r2 : regex)
| Star (greedy : bool) (r : regex)
| Group (i : nat) (r : regex)
| Bol
| Eol.

(** Matcher state: the input already passed (nearest code unit first), the
    input ahead, and the captures recorded so far (latest first). *)
Record mstate : Type := MState {
  seen : list N;
  rest : list N;
  caps : list (nat * jsstring)
}.

(** Backtracking matcher in continuation-passing style; [m] is the
    multiline flag.  An iteration of a repetition that consumes nothing is
    rejected, as in ECMAScript, so the repetition unfolds at most once per
    remaining code unit. *)
Fixpoint run (m : bool) (r : regex) (st : mstate)
    (k : mstate -> option mstate) {struct r} : option mstate :=
  match r with
  | Empty => k st
  | Class p =>
      match rest st with
      | c :: t => if p c then k (MState (c :: seen st) t (caps st)) else None
      | [] => None
      end
  | Cat r1 r2 => run m r1 st (fun st' => run m r2 st' k)
  | Or r1 r2 =>
      match run m r1 st k with
      | Some res => Some res
      | None => run m r2 st k
      end
  | Star greedy r1 =>
      (fix loop (fuel : nat) (st0 : mstate) {struct fuel} : option mstate :=
         match fuel with
         | O => k st0
         | S fuel' =>
             let more (_ : unit) :=
               run m r1 st0 (fun st' =>
                 if (List.length (rest st') <? List.length (rest st0))%nat
                 then loop fuel' st' else None) in
             if greedy
             then match more tt with Some res => Some res | None => k st0 end
             else match k st0 with Some res => Some res | None => more tt end
         end) (S (List.length (rest st))) st
  | Group i r1 =>
      run m r1 st (fun st' =>
        k (MState (seen st') (rest st')
             ((i, firstn (List.length (rest st) - List.length (rest st'))
                         (rest st)) :: caps st')))
  | Bol =>
      match seen st with
      | [] => k st
      | c :: _ => if m && isLineTerminator c then k st else None
      end
  | Eol =>
      match rest st with
      | [] => k st
      | c :: _ => if m && isLineTerminator c then k st else None
      end
  end.

(** A successful match: the text before it, the matched text, the text after
    it and the captures. *)
Record found : Type := Found {
  before : jsstring;
  matched : jsstring;
  after : jsstring;
  groups : list (nat * jsstring)
}.

(** The value of capture [i] ([undefined] is [None]). *)
Fixpoint capture (i : nat) (gs : list (nat * jsstring)) : option jsstring :=
  match gs with
  | [] => None
  | (j, s) :: gs' => if Nat.eqb i j then Some s else capture i gs'
  end.

Definition matchAt (m : bool) (r : regex) (sn rs : list N) : option found :=
  match run m r (MState sn rs []) Some with
  | Some st =>
      Some (Found (rev sn)
                  (firstn (List.length rs - List.length (rest st)) rs)
                  (rest st) (caps st))
  | None => None
  end.

(** Leftmost match at or after the current position. *)
Fixpoint searchFrom (m : bool) (r : regex) (sn rs : list N) : option found :=
  match matchAt m r sn rs with
  | Some f => Some f
  | None =>
      match rs with
      | [] => None
      | c :: rs' => searchFrom m r (c :: sn) rs'
      end
  end.

(** [s.match(r)] and [r.exec(s)] for a pattern without the [g] flag. *)
Definition exec (m : bool) (r : regex) (s : jsstring) : option found :=
  searchFrom m r [] s.

(** [r.test(s)], and the truthiness of [s.match(r)]. *)
Definition test (m : bool) (r : regex) (s : jsstring) : bool :=
  match exec m r s with Some _ => true | None => false end.

(** [s.replace(r, f)] without the [g] flag: the first match only. *)
Definition replace (m : bool) (r : regex) (f : found -> jsstring)
    (s : jsstring) : jsstring :=
  match exec m r s with
  | Some x => before x ++ f x ++ after x
  | None => s
  end.

(** [s.replace(r, f)] with the [g] flag: every match, left to right, each
    search starting where the previous match ended (one code unit further
    after an empty match). *)
Fixpoint replaceFrom (fuel : nat) (m : bool) (r : regex)
    (f : found -> jsstring) (sn rs : list N) : jsstring :=
  match fuel with
  | O => rs
  | S fuel' =>
      match searchFrom m r sn rs with
      | None => rs
      | Some x =>
          let skipped := skipn (List.length sn) (before x) in
          let sn' := rev (matched x) ++ rev skipped ++ sn in
          skipped ++ f x ++
          match matched x, after x with
          | [], c :: t => c :: replaceFrom fuel' m r f (c :: sn') t
          | [], [] => []
          | _ :: _, _ => replaceFrom fuel' m r f sn' (after x)
          end
      end
  end.

Definition replaceAll (m : bool) (r : regex) (f : found -> jsstring)
    (s : jsstring) : jsstring :=
  replaceFrom (S (List.length s)) m r f [] s.

(** *** Pattern combinators *)

Definition chr (c : N) : regex := Class (N.eqb c).

(** A literal character sequence. *)
Fixpoint lit (s : jsstring) : regex :=
  match s with
  | [] => Empty
  | [c] => chr c
  | c :: t => Cat (chr c) (lit t)
  end.

(** A literal character sequence under the [i] flag. *)
Fixpoint liti (s : jsstring) : regex :=
  match s with
  | [] => Empty
  | [c] => Class (fun x => canonicalize x =? canonicalize c)
  | c :: t => Cat (Class (fun x => canonicalize x =? canonicalize c)) (liti t)
  end.

(** [r1 r2 ... rn] *)
Fixpoint cat (rs : list regex) : regex :=
  match rs with
  | [] => Empty
  | [r] => r
  | r :: rs' => Cat r (cat rs')
  end.

Definition star (r : regex) : regex := Star true r.
Definition plus (r : regex) : regex := Cat r (Star true r).
Definition lazyPlus (r : regex) : regex := Cat r (Star false r).
Definition lazyStar (r : regex) : regex := Star false r.
Definition opt (r : regex) : regex := Or r Empty.

(** [r{0,n}] (greedy) *)
Fixpoint upTo (n : nat) (r : regex) : regex :=
  match n with
  | O => Empty
  | S n' => opt (Cat r (upTo n' r))
  end.

(** [\s], [\d], [.] and [[\s\S]] *)
Definition ws : regex := Class isWhiteSpace.
Definition digit : regex := Class isDigit.
Definition dot : regex := Class (fun c => negb (isLineTerminator c)).
Definition anything : regex := Class (fun _ => true).

(** Union of classes, for bracket expressions such as [[:\s.]]. *)
Definition orb_cls (p q : N -> bool) (c : N) : bool := p c || q c.

End Regex.

Import Regex.
Infix "|||" := orb_cls (at level 50, left associativity).

(* ================================================================== *)
(** ** Spec model (src/schemas/validator.ts) *)
(* ================================================================== *)

Inductive TopicStatus : Type := pending | generating | completed | failed.

Record GeneratedDocs : Type := {
  gd_topicIndexId : option jsstring;
  gd_topicDevelopmentId : option jsstring;
  gd_voiceoverScriptId : option jsstring
}.

Record Topic : Type := {
  topicNumber : jsstring;
  topicName : jsstring;
  description : option jsstring;
  status : option TopicStatus;
  generatedDocs : option GeneratedDocs
}.

Record Module_ : Type := {
  moduleNumber : N;
  moduleName : jsstring;
  moduleResult : option jsstring;
  topics : list Topic
}.

Inductive Level : Type :=
| basico | intermedio | avanzado | basic | intermediate | advanced.

Record Metadata : Type := {
  sourceFileId : option jsstring;
  parsedAt : option jsstring
}.

Record CourseSpec : Type := {
  courseName : jsstring;
  level : Level;
  objective : jsstring;
  targetAudience : option jsstring;
  modules : list Module_;
  metadata : option Metadata
}.

(** [createEmptyCourseSpec()].  The call reads the clock
    ([new Date().toISOString()]); the reading is the argument [now]. *)
Definition createEmptyCourseSpec (now : jsstring) : CourseSpec :=
  {| courseName := [];
     level := basico;
     objective := [];
     targetAudience := None;
     modules := [];
     metadata := Some {| sourceFileId := None; parsedAt := Some now |} |}.

(** A topic as the parser creates it: number, name and status 'pending'. *)
Definition mkTopic (num name : jsstring) : Topic :=
  {| topicNumber := num; topicName := name; description := None;
     status := Some pending; generatedDocs := None |}.

(** [{ moduleNumber, moduleName, topics: [] }] *)
Definition mkModule (n : N) (name : jsstring) : Module_ :=
  {| moduleNumber := n; moduleName := name; moduleResult := None;
     topics := [] |}.

(** [m.topics.push(t)] *)
Definition pushTopic (m : Module_) (t : Topic) : Module_ :=
  {| moduleNumber := moduleNumber m; moduleName := moduleName m;
     moduleResult := moduleResult m; topics := topics m ++ [t] |}.

(** [m.moduleResult = r] *)
Definition setModuleResult (m : Module_) (r : jsstring) : Module_ :=
  {| moduleNumber := moduleNumber m; moduleName := moduleName m;
     moduleResult := Some r; topics := topics m |}.

(* ================================================================== *)
(** ** Index parser (src/openai/client.ts) *)
(* ================================================================== *)

Module Parser.

(** The capture [i] of a match whose pattern always sets it. *)
Definition grp (i : nat) (f : found) : jsstring :=
  match capture i (groups f) with Some s => s | None => [] end.

(** [s.replace(/[cls]/g, '')] *)
Definition strip (cls : jsstring) (s : jsstring) : jsstring :=
  replaceAll false (Class (oneOf cls)) (fun _ => []) s.

(** [a || b] on strings: the empty string is falsy. *)
Definition orStr (a b : jsstring) : jsstring :=
  match a with [] => b | _ => a end.

(** *** The patterns of the parser *)

(** [/^[📘📗📕📙🎯🧱\s]+/] *)
Definition re_titleGlyphs6 : regex :=
  cat [Bol; plus (Class (oneOf (js "📘📗📕📙🎯🧱") ||| isWhiteSpace))].

(** [/^[📘📗📕📙]/] *)
Definition re_bookGlyph : regex :=
  cat [Bol; Class (oneOf (js "📘📗📕📙"))].

(** [/^[📘📗📕📙\s]+/] *)
Definition re_titleGlyphs4 : regex :=
  cat [Bol; plus (Class (oneOf (js "📘📗📕📙") ||| isWhiteSpace))].

(** [/^[BMI]\d+\./] *)
Definition re_letterNumberDot : regex :=
  cat [Bol; Class (oneOf (js "BMI")); plus digit; lit (js ".")].

(** [/^MÓDULO/i] *)
Definition re_moduloStart : regex :=
  cat [Bol; liti (js "MÓDULO")].

(** [/^[🎯\s]*Objetivo/i] *)
Definition re_objetivoHeader : regex :=
  cat [Bol; star (Class (oneOf (js "🎯") ||| isWhiteSpace));
       liti (js "Objetivo")].

(** [/^[🎯\s]*Objetivo[:\s]*/i] *)
Definition re_objetivoPrefix : regex :=
  cat [Bol; star (Class (oneOf (js "🎯") ||| isWhiteSpace));
       liti (js "Objetivo");
       star (Class (oneOf (js ":") ||| isWhiteSpace))].

(** [/^[🧱📌MÓDULO]/]: a bracket class, so one code unit out of the
    surrogates of the two glyphs and the letters M, Ó, D, U, L, O. *)
Definition re_moduleMarker : regex :=
  cat [Bol; Class (oneOf (js "🧱📌MÓDULO"))].

(** [/^[_─]+$/] *)
Definition re_separator : regex :=
  cat [Bol; plus (Class (oneOf (js "_─"))); Eol].

(** [/\s+/g] *)
Definition re_spaces : regex := plus ws.

(** [/^[\d.]*\s*Nivel\s+(básico|intermedio|avanzado)/i] *)
Definition re_nivel : regex :=
  cat [Bol; star (Class (isDigit ||| oneOf (js "."))); star ws;
       liti (js "Nivel"); plus ws;
       Group 1 (Or (liti (js "básico"))
                   (Or (liti (js "intermedio")) (liti (js "avanzado"))))].

(** The MÓDULO header pattern, with the [i] flag: an optional brick glyph
    and blanks, MÓDULO, blanks, digits (capture 1), one or more of
    [[:\s·.]], and the rest of the line (capture 2). *)
Definition re_modulo : regex :=
  cat [Bol; opt (Cat (lit (js "🧱")) (star ws));
       liti (js "MÓDULO"); star ws;
       Group 1 (plus digit);
       plus (Class (oneOf (js ":·.") ||| isWhiteSpace));
       Group 2 (plus dot)].

(** [/^([BI])(\d+)\.\s+(.+)$/] *)
Definition re_moduleHeader : regex :=
  cat [Bol; Group 1 (Class (oneOf (js "BI"))); Group 2 (plus digit);
       lit (js "."); plus ws; Group 3 (plus dot); Eol].

(** [/^[BI]\d+\.\d+/] *)
Definition re_topicPrefix : regex :=
  cat [Bol; Class (oneOf (js "BI")); plus digit; lit (js "."); plus digit].

(** [/^([BI])(\d+)\.(\d+)\s+(.+)$/] *)
Definition re_topic : regex :=
  cat [Bol; Group 1 (Class (oneOf (js "BI"))); Group 2 (plus digit);
       lit (js "."); Group 3 (plus digit); plus ws; Group 4 (plus dot); Eol].

(** [/^\d+\.?\d*[.\s)/]/] *)
Definition re_hasNumber : regex :=
  cat [Bol; plus digit; opt (lit (js ".")); star digit;
       Class (oneOf (js ".)/") ||| isWhiteSpace)].

(** The numbered-line pattern [/^(N)[.\s)]+(.+)/], where the capture [N]
    is [\d+\.?\d*]. *)
Definition re_numbered : regex :=
  cat [Bol; Group 1 (cat [plus digit; opt (lit (js ".")); star digit]);
       plus (Class (oneOf (js ".)") ||| isWhiteSpace));
       Group 2 (plus dot)].

(** *** extractCourseName *)

Fixpoint extractCourseName_scan (first10 : list jsstring) : option jsstring :=
  match first10 with
  | [] => None
  | line :: more =>
      if includes line (js "Objetivo") || includes line (js "objetivo")
      then extractCourseName_scan more
      else if includes line (js "Nivel") || includes line (js "nivel")
      then extractCourseName_scan more
      else if includes line (js "CURSO") || includes line (js "Curso")
      then Some (trim (replace false re_titleGlyphs6 (fun _ => []) line))
      else if test false re_bookGlyph line
      then Some (trim (replace false re_titleGlyphs4 (fun _ => []) line))
      else if (10 <? List.length line)%nat
              && negb (test false re_letterNumberDot line)
              && negb (test false re_moduloStart line)
      then Some (trim (replace false re_titleGlyphs4 (fun _ => []) line))
      else extractCourseName_scan more
  end.

Definition extractCourseName (lines : list jsstring) : jsstring :=
  match extractCourseName_scan (firstn 10 lines) with
  | Some name => name
  | None =>
      match lines with
      | l0 :: _ => orStr l0 (js "Untitled Course")
      | [] => js "Untitled Course"
      end
  end.

(** *** extractLevel *)

Section Level.

(** [String.prototype.toLowerCase], a built-in of the host. *)
Variable toLowerCase : jsstring -> jsstring.

Definition extractLevel (lines : list jsstring) : Level :=
  let content := toLowerCase (join (js " ") lines) in
  if includes content (js "avanzado") || includes content (js "advanced")
  then avanzado
  else if includes content (js "intermedio")
          || includes content (js "intermediate")
  then intermedio
  else basico.

End Level.

(** *** extractObjective *)

(** The [while] loop: the lines from [lines[j]] on, up to the first one that
    matches the module-marker pattern; separator lines are left out. *)
Fixpoint collectObjective (from_j : list jsstring) : list jsstring :=
  match from_j with
  | [] => []
  | l :: more =>
      if test false re_moduleMarker l then []
      else (if negb (JS.eqb l []) && negb (test false re_separator l)
            then [l] else [])
           ++ collectObjective more
  end.

Definition objectivePlaceholder : jsstring :=
  js "Completar el curso satisfactoriamente".

(** [objectiveLines.join(' ').trim().replace(/\s+/g, ' ')] *)
Definition joinObjective (objectiveLines : list jsstring) : jsstring :=
  replaceAll false re_spaces (fun _ => js " ")
    (trim (join (js " ") objectiveLines)).

(** A line that contains an objective marker. *)
Definition hasObjectiveMarker (line : jsstring) : bool :=
  includes line (js "Objetivo") || includes line (js "objetivo")
  || includes line (js "🎯").

Fixpoint extractObjective (lines : list jsstring) : jsstring :=
  match lines with
  | [] => objectivePlaceholder
  | line :: more =>
      if hasObjectiveMarker line then
        if test false re_objetivoHeader line
        then (* j++ : the marker line is skipped *)
             joinObjective (collectObjective more)
        else (* the line is pushed, and the loop starts at the same line *)
             joinObjective
               (replace false re_objetivoPrefix (fun _ => []) line
                  :: collectObjective (line :: more))
      else extractObjective more
  end.

(** *** parseAlternativeFormat *)

(** Loop state: the topics pushed so far and [topicCounter]. *)
Definition altStep (acc : list Topic * N) (line : jsstring) : list Topic * N :=
  let '(tops, topicCounter) := acc in
  if includes line (js "Objetivo") || includes line (js "🎯") then acc
  else if test false re_separator line then acc
  else if (List.length line <? 5)%nat then acc
  else
    let hasNumber := test false re_hasNumber line in
    let isSubstantial := (10 <? List.length line)%nat in
    if hasNumber || isSubstantial then
      let '(m1, m2) :=
        match exec false re_numbered line with
        | Some f => (grp 1 f, grp 2 f)
        | None => (ofNumber topicCounter, line)
        end in
      (tops ++ [mkTopic (orStr m1 (ofNumber topicCounter))
                        (trim (strip (js "📌🛠️👉🧱📘") (orStr m2 line)))],
       topicCounter + 1)
    else acc.

Definition parseAlternativeFormat (lines : list jsstring) : list Module_ :=
  let '(tops, _) := fold_left altStep lines ([], 1) in
  let currentModule :=
    {| moduleNumber := 1; moduleName := js "Contenido del curso";
       moduleResult := None; topics := tops |} in
  if (0 <? List.length (topics currentModule))%nat
  then [currentModule] else [].

(** *** parseModules *)

(** The variables of the loop. *)
Record pstate : Type := {
  ps_modules : list Module_;
  currentModule : option Module_;
  globalModuleCounter : N
}.

(** [if (currentModule && currentModule.topics.length > 0)
       modules.push(currentModule)] *)
Definition closeModule (mods : list Module_) (cur : option Module_)
    : list Module_ :=
  match cur with
  | Some cm => if (0 <? List.length (topics cm))%nat then mods ++ [cm] else mods
  | None => mods
  end.

(** Both header branches: close the current module, count, open a new one. *)
Definition openModule (st : pstate) (name : jsstring) : pstate :=
  let counter := globalModuleCounter st + 1 in
  {| ps_modules := closeModule (ps_modules st) (currentModule st);
     currentModule := Some (mkModule counter name);
     globalModuleCounter := counter |}.

(** The topic branch. *)
Definition addTopic (st : pstate) (tm : found) : pstate :=
  let '(cm, counter) :=
    match currentModule st with
    | Some cm => (cm, globalModuleCounter st)
    | None =>
        (mkModule (globalModuleCounter st + 1) (js "Contenido del curso"),
         globalModuleCounter st + 1)
    end in
  let moduleNum := grp 2 tm in
  let topicNum := grp 3 tm in
  let topicName :=
    trim (replaceAll false (chr 0xDD35) (fun _ => [])
            (strip (js "🔵⚪🟢🔴🟡") (grp 4 tm))) in
  {| ps_modules := ps_modules st;
     currentModule :=
       Some (if (0 <? List.length topicName)%nat
             then pushTopic cm (mkTopic (moduleNum ++ js "." ++ topicNum)
                                        topicName)
             else cm);
     globalModuleCounter := counter |}.

(** The module-result branch. *)
Definition noteResult (st : pstate) (line : jsstring) : pstate :=
  match currentModule st with
  | Some cm =>
      if includes line (js "📌 Resultado:") then
        {| ps_modules := ps_modules st;
           currentModule :=
             Some (setModuleResult cm
                     (trim (replaceFirst line (js "📌 Resultado:") [])));
           globalModuleCounter := globalModuleCounter st |}
      else st
  | None => st
  end.

(** One iteration of [for (const line of lines)]. *)
Definition parseStep (st : pstate) (line : jsstring) : pstate :=
  if test false re_nivel line then st
  else
    match exec false re_modulo line with
    | Some moduloMatch =>
        openModule st (trim (strip (js "📌🛠️👉") (grp 2 moduloMatch)))
    | None =>
        let topicBranch :=
          match exec false re_topic line with
          | Some topicMatch => addTopic st topicMatch
          | None => noteResult st line
          end in
        match exec false re_moduleHeader line with
        | Some mh =>
            if negb (test false re_topicPrefix line) then
              openModule st
                (trim (strip (js "📌🛠️👉")
                         (grp 1 mh ++ grp 2 mh ++ js ". " ++ trim (grp 3 mh))))
            else topicBranch
        | None => topicBranch
        end
    end.

Definition parseInit : pstate :=
  {| ps_modules := []; currentModule := None; globalModuleCounter := 0 |}.

(** The loop over all lines. *)
Definition parseLoop (lines : list jsstring) : pstate :=
  fold_left parseStep lines parseInit.

Definition parseModules (lines : list jsstring) : list Module_ :=
  let st := parseLoop lines in
  let mods := closeModule (ps_modules st) (currentModule st) in
  if (List.length mods =? 0)%nat then parseAlternativeFormat lines else mods.

(** The numbering invariant of the loop: the modules pushed so far carry
    increasing numbers between 1 and the counter, and the open module, if
    any, carries the counter itself. *)
Definition numbered (st : pstate) : Prop :=
  StronglySorted N.lt (map moduleNumber (ps_modules st))
  /\ Forall (fun m => 1 <= moduleNumber m <= globalModuleCounter st)
            (ps_modules st)
  /\ match currentModule st with
     | Some cm =>
         moduleNumber cm = globalModuleCounter st
         /\ 1 <= globalModuleCounter st
         /\ Forall (fun m => moduleNumber m < globalModuleCounter st)
                   (ps_modules st)
     | None => ps_modules st = []
     end.

Definition nonEmptyTopics (m : Module_) : Prop := topics m <> [].

(** The lines that the loop of extractObjective keeps. *)
Definition isCollected (l : jsstring) : bool :=
  negb (JS.eqb l []) && negb (test false re_separator l).

(** *** parseIndexContent *)

(** [content.split('\n').map((line) => line.trim()).filter(Boolean)] *)
Definition contentLines (content : jsstring) : list jsstring :=
  filter (fun l => negb (JS.eqb l [])) (map trim (splitLines content)).

Section ParseIndexContent.

Variable toLowerCase : jsstring -> jsstring.

(** [parseIndexContent(content)]; [now] is the clock reading taken by
    [createEmptyCourseSpec]. *)
Definition parseIndexContent (now : jsstring) (content : jsstring)
    : CourseSpec :=
  let spec := createEmptyCourseSpec now in
  let lines := contentLines content in
  {| courseName := extractCourseName lines;
     level := extractLevel toLowerCase lines;
     objective := extractObjective lines;
     targetAudience := targetAudience spec;
     modules := parseModules lines;
     metadata := metadata spec |}.

End ParseIndexContent.

End Parser.

(* ================================================================== *)
(** ** Document store (src/google/drive.ts) *)
(* ================================================================== *)

Module Drive.

Inductive MimeType : Type :=
| folder     (* 'application/vnd.google-apps.folder' *)
| document.  (* 'application/vnd.google-apps.document' *)

Definition mime_eqb (a b : MimeType) : bool :=
  match a, b with
  | folder, folder | document, document => true
  | _, _ => false
  end.

Record DriveFile : Type := {
  f_id : jsstring;
  f_name : jsstring;
  f_mimeType : MimeType;
  f_parents : list jsstring;
  f_trashed : bool
}.

(** Modelled from the spec: the document store behind the Drive client
    (googleapis, not under src/) is the sequence of its files. *)
Definition drive : Type := list DriveFile.

(** Modelled from the spec: "look up a child resource by exact name under
    the given parent" (spec 4.3 and 6): the files with that name, parent and
    MIME type that are not trashed, in store order. *)
Definition children (name parentId : jsstring) (mt : MimeType) (d : drive)
    : list DriveFile :=
  filter (fun f => JS.eqb (f_name f) name
                   && existsb (JS.eqb parentId) (f_parents f)
                   && mime_eqb (f_mimeType f) mt
                   && negb (f_trashed f)) d.

(** The query text that [findFolder] sends: the template literal of the
    source, with [name] and [parentId] pasted between single quotes as they
    are. *)
Definition folderQuery (name parentId : jsstring) : jsstring :=
  js "name = '" ++ name ++ js "' and '" ++ parentId
    ++ js "' in parents and mimeType = 'application/vnd.google-apps.folder' and trashed = false".

(** The query text that [findDoc] sends. *)
Definition docQuery (name parentId : jsstring) : jsstring :=
  js "name = '" ++ name ++ js "' and '" ++ parentId
    ++ js "' in parents and mimeType = 'application/vnd.google-apps.document' and trashed = false".

Definition queryFor (mt : MimeType) (name parentId : jsstring) : jsstring :=
  match mt with
  | folder => folderQuery name parentId
  | document => docQuery name parentId
  end.

(** A string without single quote and without backslash: pasted between
    single quotes, it is one quoted literal of the query text, and that
    literal denotes the string itself. *)
Definition plainLiteral (s : jsstring) : bool :=
  forallb (fun c => negb (c =? 0x27) && negb (c =? 0x5C)) s.

(** Modelled from the spec: a listing service answers the query texts of
    the program by the lookup of the spec, as far as the text determines
    it: for a name and a parent that are plain literals, the answer to the
    query text built from them is the children with that exact name under
    that parent.  (For other names the query text is not the quotation of
    the name, and nothing is assumed of the answer.) *)
Definition exactOnLiterals (filesList : jsstring -> drive -> list DriveFile)
    : Prop :=
  forall mt name parentId d,
    plainLiteral name = true ->
    plainLiteral parentId = true ->
    filesList (queryFor mt name parentId) d = children name parentId mt d.

(** Computations against the store: a state monad. *)
Definition M (A : Type) : Type := drive -> A * drive.

Definition ret {A} (a : A) : M A := fun d => (a, d).

Definition bind {A B} (c : M A) (k : A -> M B) : M B :=
  fun d => let '(a, d') := c d in k a d'.

#[local] Notation "x <- c ;; k" := (bind c (fun x => k))
  (at level 61, c at next level, right associativity).

(** [for (const x of xs) { ... ys.push(...) }] *)
Fixpoint forEach {A B} (f : A -> M B) (xs : list A) : M (list B) :=
  match xs with
  | [] => ret []
  | x :: xs' => y <- f x ;; ys <- forEach f xs' ;; ret (y :: ys)
  end.

(** Every lookup answered in the first store has the same answer in the
    second. *)
Definition stable (d d' : drive) : Prop :=
  forall name parentId mt f,
    hd_error (children name parentId mt d) = Some f ->
    hd_error (children name parentId mt d') = Some f.

(** The identifiers of the store's files are plain literals. *)
Definition plainIds (d : drive) : Prop :=
  Forall (fun f => plainLiteral (f_id f) = true) d.

(** A computation that only finds or creates: started on a store with
    plain identifiers it leaves such a store, returns a value with the
    property [Q], and keeps the answers of the store it started from; and
    run again on any store that keeps the answers of the store it ended
    with, it returns the same value and changes nothing. *)
Definition replayable {A} (Q : A -> Prop) (c : M A) : Prop :=
  forall d a d',
    plainIds d ->
    c d = (a, d') ->
    plainIds d'
    /\ Q a
    /\ stable d d'
    /\ forall dF, stable d' dF -> c dF = (a, dF).

(** A file whose identifier is a plain literal. *)
Definition plainFile (f : DriveFile) : Prop := plainLiteral (f_id f) = true.

(** The names and numbers of a CourseSpec that end up in query texts are
    plain literals. *)
Definition plainSpec (courseSpec : CourseSpec) : bool :=
  plainLiteral (courseName courseSpec)
  && forallb (fun m =>
                plainLiteral (moduleName m)
                && forallb (fun t => plainLiteral (topicNumber t)
                                     && plainLiteral (topicName t))
                           (topics m))
             (modules courseSpec).

Section Store.

(** [drive.files.list]: the answer of the service to a query text, as the
    list [files(id, name)] in the order of the answer.  The service is not
    part of the program. *)
Variable filesList : jsstring -> drive -> list DriveFile.

(** The identifier the store gives to a new file: the store's choice. *)
Variable freshId : drive -> jsstring.

(** Modelled from the spec: [drive.files.create], which adds one file with
    the given name, MIME type and parent. *)
Definition filesCreate (name : jsstring) (mt : MimeType) (parentId : jsstring)
    : M DriveFile :=
  fun d =>
    let f := {| f_id := freshId d; f_name := name; f_mimeType := mt;
                f_parents := [parentId]; f_trashed := false |} in
    (f, d ++ [f]).

(** [files.length > 0 ? files[0] : null] *)
Definition findFolder (name parentId : jsstring) : M (option DriveFile) :=
  fun d => (hd_error (filesList (folderQuery name parentId) d), d).

Definition createFolder (name parentId : jsstring) : M DriveFile :=
  filesCreate name folder parentId.

Definition findOrCreateFolder (name parentId : jsstring) : M DriveFile :=
  existing <- findFolder name parentId ;;
  match existing with
  | Some f => ret f
  | None => createFolder name parentId
  end.

Definition findDoc (name parentId : jsstring) : M (option DriveFile) :=
  fun d => (hd_error (filesList (docQuery name parentId) d), d).

Definition createDoc (name parentId : jsstring) : M DriveFile :=
  filesCreate name document parentId.

Definition findOrCreateDoc (name parentId : jsstring) : M DriveFile :=
  existing <- findDoc name parentId ;;
  match existing with
  | Some f => ret f
  | None => createDoc name parentId
  end.

(** *** Structure materializer (src/auth.ts, createCourseStructure) *)

Record TopicDocs : Type := {
  topicIndexId : jsstring;
  topicDevelopmentId : jsstring;
  voiceoverScriptId : jsstring
}.

Record TopicStructure : Type := {
  ts_topicNumber : jsstring;
  ts_topicName : jsstring;
  ts_folderId : jsstring;
  ts_docs : TopicDocs
}.

Record ModuleStructure : Type := {
  ms_moduleNumber : N;
  ms_moduleName : jsstring;
  ms_folderId : jsstring;
  ms_topics : list TopicStructure
}.

Record FolderStructure : Type := {
  courseFolderId : jsstring;
  fs_modules : list ModuleStructure
}.

(** The body of the inner loop: one topic folder and its three documents. *)
Definition createTopicStructure (moduleFolderId : jsstring) (topic : Topic)
    : M TopicStructure :=
  let topicFolderName := topicNumber topic ++ js ". " ++ topicName topic in
  topicFolder <- findOrCreateFolder topicFolderName moduleFolderId ;;
  let topicFolderId := f_id topicFolder in
  topicIndexDoc <- findOrCreateDoc (js "01_Índice") topicFolderId ;;
  topicDevelopmentDoc <- findOrCreateDoc (js "02_Desarrollo") topicFolderId ;;
  voiceoverScriptDoc <- findOrCreateDoc (js "03_Guión") topicFolderId ;;
  ret {| ts_topicNumber := topicNumber topic;
         ts_topicName := topicName topic;
         ts_folderId := topicFolderId;
         ts_docs := {| topicIndexId := f_id topicIndexDoc;
                       topicDevelopmentId := f_id topicDevelopmentDoc;
                       voiceoverScriptId := f_id voiceoverScriptDoc |} |}.

(** The body of the outer loop: one module folder and its topics. *)
Definition createModuleStructure (courseFolderId : jsstring) (module : Module_)
    : M ModuleStructure :=
  let moduleFolderName :=
    js "Módulo " ++ ofNumber (moduleNumber module) ++ js ". "
       ++ moduleName module in
  moduleFolder <- findOrCreateFolder moduleFolderName courseFolderId ;;
  let moduleFolderId := f_id moduleFolder in
  tops <- forEach (createTopicStructure moduleFolderId) (topics module) ;;
  ret {| ms_moduleNumber := moduleNumber module;
         ms_moduleName := moduleName module;
         ms_folderId := moduleFolderId;
         ms_topics := tops |}.

Definition createCourseStructure (courseSpec : CourseSpec)
    (rootFolderId : jsstring) : M FolderStructure :=
  courseFolder <- findOrCreateFolder (courseName courseSpec) rootFolderId ;;
  let courseFolderId := f_id courseFolder in
  mods <- forEach (createModuleStructure courseFolderId) (modules courseSpec) ;;
  ret {| courseFolderId := courseFolderId; fs_modules := mods |}.

End Store.

End Drive.

(* ================================================================== *)
(** ** Content generator (src/pipeline/runner.ts, generator part) *)
(* ================================================================== *)

(** What a [throw] carries, as the [catch] blocks tell them apart. *)
Inductive thrown : Type :=
| ErrorObject (message : jsstring)   (* [error instanceof Error] *)
| OtherValue (asString : jsstring).  (* anything else, by [String(error)] *)

(** The outcome of a call that may throw (or of an awaited promise). *)
Inductive result (A : Type) : Type :=
| Ok (a : A)
| Throw (e : thrown).
Arguments Ok {A} a.
Arguments Throw {A} e.

Definition rbind {A B} (r : result A) (k : A -> result B) : result B :=
  match r with
  | Ok a => k a
  | Throw e => Throw e
  end.

Notation "'try!' x <- c ;; k" := (rbind c (fun x => k))
  (at level 61, x name, c at next level, right associativity).

Module Generator.

Import Parser.

(** *** cleanMarkdownToPlainText *)

(** [/^#{1,6}\s+(.+)$/gm] *)
Definition re_header : regex :=
  cat [Bol; lit (js "#"); upTo 5 (lit (js "#")); plus ws;
       Group 1 (plus dot); Eol].

(** [/\*\*(.+?)\*\*/g] *)
Definition re_bold : regex :=
  cat [lit (js "**"); Group 1 (lazyPlus dot); lit (js "**")].

(** [/\*(.+?)\*/g] *)
Definition re_italic : regex :=
  cat [lit (js "*"); Group 1 (lazyPlus dot); lit (js "*")].

(** [/__(.+?)__/g] *)
Definition re_bold_ : regex :=
  cat [lit (js "__"); Group 1 (lazyPlus dot); lit (js "__")].

(** [/_(.+?)_/g] *)
Definition re_italic_ : regex :=
  cat [lit (js "_"); Group 1 (lazyPlus dot); lit (js "_")].

(** [/```[\s\S]*?```/g] *)
Definition re_fence : regex :=
  cat [lit (js "```"); lazyStar anything; lit (js "```")].

(** [/`(.+?)`/g] *)
Definition re_code : regex :=
  cat [lit (js "`"); Group 1 (lazyPlus dot); lit (js "`")].

(** [/^[\*\-•]\s+/gm] *)
Definition re_bullet : regex :=
  cat [Bol; Class (oneOf (js "*-•")); plus ws].

(** [/^[-*_]{3,}$/gm] *)
Definition re_rule : regex :=
  let c := Class (oneOf (js "-*_")) in
  cat [Bol; c; c; c; star c; Eol].

(** [/\n{3,}/g] *)
Definition re_blankLines : regex :=
  let nl := chr 0x0A in cat [nl; nl; nl; star nl].

(** The code point ranges of the symbol pattern (flags [gu]):
    U+1F300..U+1F9FF, U+2600..U+26FF, U+2700..U+27BF. *)
Definition isSymbol (cp : N) : bool :=
  ((0x1F300 <=? cp) && (cp <=? 0x1F9FF))
  || ((0x2600 <=? cp) && (cp <=? 0x26FF))
  || ((0x2700 <=? cp) && (cp <=? 0x27BF)).

Definition isHighSurrogate (c : N) : bool := (0xD800 <=? c) && (c <=? 0xDBFF).
Definition isLowSurrogate (c : N) : bool := (0xDC00 <=? c) && (c <=? 0xDFFF).

(** Replacement of that pattern by the empty string.  With the [u] flag the
    input is read by code points: a high surrogate followed by a low one is
    one code point. *)
Fixpoint stripSymbols (s : jsstring) : jsstring :=
  match s with
  | [] => []
  | h :: s' =>
      match s' with
      | l :: t =>
          if isHighSurrogate h && isLowSurrogate l then
            if isSymbol (0x10000 + (h - 0xD800) * 0x400 + (l - 0xDC00))
            then stripSymbols t
            else h :: l :: stripSymbols t
          else if isSymbol h then stripSymbols s' else h :: stripSymbols s'
      | [] => if isSymbol h then [] else [h]
      end
  end.

Section Clean.

(** [String.prototype.toUpperCase], a built-in of the host. *)
Variable toUpperCase : jsstring -> jsstring.

Definition cleanMarkdownToPlainText (text : jsstring) : jsstring :=
  let s := replaceAll true re_header
             (fun f => toUpperCase (grp 1 f) ++ js_nl) text
  in let s := replaceAll false re_bold (grp 1) s
  in let s := replaceAll false re_italic (grp 1) s
  in let s := replaceAll false re_bold_ (grp 1) s
  in let s := replaceAll false re_italic_ (grp 1) s
  in let s := replaceAll false re_fence (fun _ => []) s
  in let s := replaceAll false re_code (grp 1) s
  in let s := replaceAll true re_bullet (fun _ => js "- ") s
  in let s := replaceAll true re_rule (fun _ => []) s
  in let s := stripSymbols s
  in let s := replaceAll false re_blankLines (fun _ => js_nl ++ js_nl) s
  in trim s.

End Clean.

(** *** The closing sentence of the voiceover *)

Definition requiredEnding : jsstring := js "Nos vemos en la siguiente clase.".

(** [/Nos vemos en la siguiente clase$/i] *)
Definition re_endingNoDot : regex :=
  cat [liti (js "Nos vemos en la siguiente clase"); Eol].

(** [/Nos vemos en la próxima clase\.?$/i] *)
Definition re_endingProxima : regex :=
  cat [liti (js "Nos vemos en la próxima clase"); opt (lit (js ".")); Eol].

(** The value of [finalVoiceover] after the "ensure" block, from the value
    of [voiceoverScript] that the generation steps left. *)
Definition finalVoiceover (voiceoverScript : jsstring) : jsstring :=
  let fv := trim voiceoverScript in
  if negb (endsWith fv requiredEnding) then
    let fv := replace false re_endingProxima (fun _ => requiredEnding)
                (replace false re_endingNoDot (fun _ => requiredEnding) fv) in
    if negb (endsWith fv requiredEnding)
    then fv ++ js_nl ++ js_nl ++ requiredEnding
    else fv
  else fv.

(** *** generateTopicContent *)

Record PromptContext : Type := {
  pc_courseName : jsstring;
  pc_level : Level;
  pc_objective : jsstring;
  pc_topicName : jsstring;
  pc_topicIndex : option jsstring;
  pc_topicDevelopment : option jsstring
}.

Record ContentReviewContext : Type := {
  rc_courseName : jsstring;
  rc_level : Level;
  rc_topicName : jsstring;
  rc_content : jsstring
}.

Record CustomPrompts : Type := {
  cp_topicIndex : option jsstring;
  cp_topicDevelopment : option jsstring
}.

Section Generate.

Variable toUpperCase : jsstring -> jsstring.

(** The structured topic index; only its text rendering is used here. *)
Variable TopicIndex : Type.
Variable formatTopicIndexAsText : TopicIndex -> jsstring.

(** The prompt builders and system prompts of src/openai/prompts.ts. *)
Variable getTopicIndexPrompt : PromptContext -> option jsstring -> jsstring.
Variable getTopicDevelopmentPrompt : PromptContext -> option jsstring -> jsstring.
Variable getVoiceoverScriptPrompt : PromptContext -> jsstring.
Variable getContentReviewPrompt : ContentReviewContext -> jsstring.
Variable SYSTEM_PROMPT CONTENT_REVIEW_SYSTEM_PROMPT : jsstring.

(** The text-generation service: system prompt, user prompt, [maxTokens]. *)
Variable generateJSON : jsstring -> jsstring -> N -> result TopicIndex.
Variable generateContent : jsstring -> jsstring -> N -> result jsstring.

Record GeneratedContent : Type := {
  topicIndex : TopicIndex;
  topicIndexText : jsstring;
  topicDevelopment : jsstring;
  voiceoverScript : jsstring
}.

(** The review pass of one artifact, run when [enableMultiPass] holds. *)
Definition reviewPass (enableMultiPass : bool) (courseSpec : CourseSpec)
    (topic : Topic) (draft : jsstring) (maxTokens : N) : result jsstring :=
  if enableMultiPass then
    let reviewContext :=
      {| rc_courseName := courseName courseSpec; rc_level := level courseSpec;
         rc_topicName := topicName topic; rc_content := draft |} in
    generateContent CONTENT_REVIEW_SYSTEM_PROMPT
      (getContentReviewPrompt reviewContext) maxTokens
  else Ok draft.

Definition generateTopicContent (courseSpec : CourseSpec) (topic : Topic)
    (enableMultiPass : bool) (customPrompts : option CustomPrompts)
    : result GeneratedContent :=
  let context :=
    {| pc_courseName := courseName courseSpec; pc_level := level courseSpec;
       pc_objective := objective courseSpec; pc_topicName := topicName topic;
       pc_topicIndex := None; pc_topicDevelopment := None |} in
  (* Step 1: topic index *)
  let topicIndexPrompt :=
    getTopicIndexPrompt context
      (match customPrompts with Some c => cp_topicIndex c | None => None end) in
  try! topicIndex <- generateJSON SYSTEM_PROMPT topicIndexPrompt 4096 ;;
  let topicIndexText := formatTopicIndexAsText topicIndex in
  (* Step 2: development, then its review *)
  let developmentContext :=
    {| pc_courseName := pc_courseName context; pc_level := pc_level context;
       pc_objective := pc_objective context;
       pc_topicName := pc_topicName context;
       pc_topicIndex := Some topicIndexText; pc_topicDevelopment := None |} in
  let topicDevelopmentPrompt :=
    getTopicDevelopmentPrompt developmentContext
      (match customPrompts with
       | Some c => cp_topicDevelopment c | None => None end) in
  try! draftDevelopment <-
    generateContent SYSTEM_PROMPT topicDevelopmentPrompt 8192 ;;
  try! topicDevelopment <-
    reviewPass enableMultiPass courseSpec topic draftDevelopment 8192 ;;
  (* Step 3: voiceover, then its review *)
  let voiceoverContext :=
    {| pc_courseName := pc_courseName context; pc_level := pc_level context;
       pc_objective := pc_objective context;
       pc_topicName := pc_topicName context;
       pc_topicIndex := None; pc_topicDevelopment := Some topicDevelopment |} in
  try! draftVoiceover <-
    generateContent SYSTEM_PROMPT (getVoiceoverScriptPrompt voiceoverContext)
      6144 ;;
  try! voiceoverScript <-
    reviewPass enableMultiPass courseSpec topic draftVoiceover 6144 ;;
  Ok {| topicIndex := topicIndex;
        topicIndexText := topicIndexText;
        topicDevelopment := cleanMarkdownToPlainText toUpperCase topicDevelopment;
        voiceoverScript :=
          cleanMarkdownToPlainText toUpperCase (finalVoiceover voiceoverScript) |}.

End Generate.

End Generator.

(* ================================================================== *)
(** ** Configuration (src/openai/client.ts, loadConfig) *)
(* ================================================================== *)

Module Config.

Import Parser.

Fixpoint digitsValue (acc : N) (s : jsstring) : N :=
  match s with
  | c :: t => if isDigit c then digitsValue (acc * 10 + (c - 0x30)) t else acc
  | [] => acc
  end.

(** [parseInt(s, 10)]: leading white space is skipped, then an optional
    sign, then the longest run of decimal digits; [None] is NaN. *)
Definition parseInt10 (s : jsstring) : option Z :=
  let s := trimStart s in
  let '(neg, body) :=
    match s with
    | c :: t => if c =? 0x2D then (true, t)
                else if c =? 0x2B then (false, t) else (false, s)
    | [] => (false, s)
    end in
  match body with
  | c :: _ =>
      if isDigit c then
        let v := Z.of_N (digitsValue 0 body) in
        Some (if neg then (- v)%Z else v)
      else None
  | [] => None
  end.

(** [getEnvVar(name, false)]: [value || ''] *)
Definition getEnvVarOptional (value : option jsstring) : jsstring :=
  match value with Some v => v | None => [] end.

(** [config.generation.maxConcurrentTopics], from the environment variable
    MAX_CONCURRENT_TOPICS. *)
Definition maxConcurrentTopics (env_MAX_CONCURRENT_TOPICS : option jsstring)
    : option Z :=
  parseInt10 (orStr (getEnvVarOptional env_MAX_CONCURRENT_TOPICS) (js "3")).

End Config.

(* ================================================================== *)
(** ** Pipeline orchestrator (src/pipeline/runner.ts) *)
(* ================================================================== *)

Module Pipeline.

Import Drive.

Inductive ResultStatus : Type := rs_completed | rs_failed.

Record TopicResult : Type := {
  tr_moduleNumber : N;
  tr_topicNumber : jsstring;
  tr_topicName : jsstring;
  tr_status : ResultStatus;
  tr_error : option jsstring;
  tr_folderId : option jsstring;
  tr_docs : option TopicDocs
}.

Record RunReport : Type := {
  startTime : N;
  endTime : option N;
  rr_courseName : jsstring;
  indexFileId : jsstring;
  rootFolderId : jsstring;
  rr_courseFolderId : option jsstring;
  totalTopics : nat;
  completedTopics : nat;
  failedTopics : nat;
  topicResults : list TopicResult;
  errors : list jsstring
}.

(** [String(error)] and [`${error}`] *)
Definition thrownToString (e : thrown) : jsstring :=
  match e with
  | ErrorObject m => js "Error: " ++ m
  | OtherValue s => s
  end.

(** One queued unit of work: the arguments the task closure captured. *)
Record Task : Type := {
  t_moduleNumber : N;
  t_topic : Topic;
  t_topicStructure : TopicStructure
}.

(** Modelled from the spec: the shared concurrency limiter (package p-limit,
    not under src/): "a bounded pool of concurrently in-flight topic tasks
    (N simultaneous)" (spec 5).  Creating it needs a bound that is an
    integer from 1 up; otherwise the creation throws. *)
Definition pLimit (concurrency : option Z) : result nat :=
  match concurrency with
  | Some z => if (1 <=? z)%Z then Ok (Z.to_nat z)
              else Throw (ErrorObject (js "Expected `concurrency` to be a number from 1 and up"))
  | None => Throw (ErrorObject (js "Expected `concurrency` to be a number from 1 and up"))
  end.

Definition isCompleted (r : TopicResult) : bool :=
  match tr_status r with rs_completed => true | rs_failed => false end.

Definition isFailed (r : TopicResult) : bool :=
  match tr_status r with rs_completed => false | rs_failed => true end.

(** The counters of a report agree with its list of results. *)
Definition consistent (rep : RunReport) : Prop :=
  completedTopics rep = List.length (filter isCompleted (topicResults rep))
  /\ failedTopics rep = List.length (filter isFailed (topicResults rep)).

(** The structure entry of a module mirrors the module: same number, and
    the same topic numbers in the same order. *)
Definition mirrorsModule (m : Module_) (ms : ModuleStructure) : Prop :=
  ms_moduleNumber ms = moduleNumber m
  /\ map ts_topicNumber (ms_topics ms) = map topicNumber (topics m).

Section Orchestrator.

(** The collaborators of a run: the content generator and the document
    writer (replaced by doubles in tests), the parser entry point, the
    listing service of the store and the store's choice of identifiers. *)
Variable GeneratedContent : Type.
Variable generateTopicContent : CourseSpec -> Topic -> result GeneratedContent.
Variable writeTopicContent : TopicDocs -> GeneratedContent -> result unit.
Variable parseIndexDocument : jsstring -> result CourseSpec.
Variable filesList : jsstring -> drive -> list DriveFile.
Variable freshId : drive -> jsstring.

(** *** generateAndWriteTopic *)

Definition generateAndWriteTopic (courseSpec : CourseSpec) (moduleNumber : N)
    (topic : Topic) (topicStructure : TopicStructure) : TopicResult :=
  let attempt :=
    try! content <- generateTopicContent courseSpec topic ;;
    writeTopicContent (ts_docs topicStructure) content in
  {| tr_moduleNumber := moduleNumber;
     tr_topicNumber := topicNumber topic;
     tr_topicName := topicName topic;
     tr_status := match attempt with Ok _ => rs_completed | Throw _ => rs_failed end;
     tr_error := match attempt with
                 | Ok _ => None
                 | Throw (ErrorObject m) => Some m
                 | Throw (OtherValue s) => Some s
                 end;
     tr_folderId := Some (ts_folderId topicStructure);
     tr_docs := Some (ts_docs topicStructure) |}.

(** [error instanceof Error ? error.message : String(error)] *)
Definition errorMessage (e : thrown) : jsstring :=
  match e with
  | ErrorObject m => m
  | OtherValue s => s
  end.

(** The generation or write call of a task fails, throwing [e]: the call of
    generateTopicContent throws it, or that call returns and the call of
    writeTopicContent with the content throws it. *)
Definition callFails (courseSpec : CourseSpec) (t : Task) (e : thrown)
    : Prop :=
  generateTopicContent courseSpec (t_topic t) = Throw e
  \/ exists content,
       generateTopicContent courseSpec (t_topic t) = Ok content
       /\ writeTopicContent (ts_docs (t_topicStructure t)) content = Throw e.

(** Both calls of a task return. *)
Definition callsSucceed (courseSpec : CourseSpec) (t : Task) : Prop :=
  exists content,
    generateTopicContent courseSpec (t_topic t) = Ok content
    /\ writeTopicContent (ts_docs (t_topicStructure t)) content = Ok tt.

(** *** The dispatch loops of runPipeline *)

(** Inner loop: one task per topic found in the module's structure, an
    error line per topic that is not. *)
Fixpoint dispatchTopics (moduleNumber : N) (moduleStructure : ModuleStructure)
    (tops : list Topic) : list Task * list jsstring :=
  match tops with
  | [] => ([], [])
  | topic :: more =>
      let '(tasks, errs) := dispatchTopics moduleNumber moduleStructure more in
      match find (fun t => JS.eqb (ts_topicNumber t) (topicNumber topic))
                 (ms_topics moduleStructure) with
      | Some topicStructure =>
          ({| t_moduleNumber := moduleNumber; t_topic := topic;
              t_topicStructure := topicStructure |} :: tasks, errs)
      | None =>
          (tasks,
           (js "Topic " ++ topicNumber topic ++ js " not found in module "
               ++ ofNumber moduleNumber) :: errs)
      end
  end.

(** Outer loop. *)
Fixpoint dispatchModules (structure : FolderStructure) (mods : list Module_)
    : list Task * list jsstring :=
  match mods with
  | [] => ([], [])
  | module :: more =>
      let '(tasks, errs) := dispatchModules structure more in
      match find (fun m => ms_moduleNumber m =? moduleNumber module)
                 (fs_modules structure) with
      | None =>
          (tasks,
           (js "Module " ++ ofNumber (moduleNumber module)
               ++ js " not found in structure") :: errs)
      | Some moduleStructure =>
          let '(tasks1, errs1) :=
            dispatchTopics (moduleNumber module) moduleStructure
                           (topics module) in
          (tasks1 ++ tasks, errs1 ++ errs)
      end
  end.

(** *** The generating phase *)

(** A task's completion handler: what the closure does with the result.
    (The optional progress callback only observes the report and is left
    out.) *)
Definition settle (courseSpec : CourseSpec) (report : RunReport) (t : Task)
    : RunReport :=
  let result := generateAndWriteTopic courseSpec (t_moduleNumber t) (t_topic t)
                  (t_topicStructure t) in
  let ok := match tr_status result with rs_completed => true | rs_failed => false end in
  {| startTime := startTime report;
     endTime := endTime report;
     rr_courseName := rr_courseName report;
     indexFileId := indexFileId report;
     rootFolderId := rootFolderId report;
     rr_courseFolderId := rr_courseFolderId report;
     totalTopics := totalTopics report;
     completedTopics := if ok then S (completedTopics report)
                        else completedTopics report;
     failedTopics := if ok then failedTopics report
                     else S (failedTopics report);
     topicResults := topicResults report ++ [result];
     errors :=
       if ok then errors report
       else match tr_error result with
            | Some (c :: m) =>
                errors report
                  ++ [js "Topic " ++ topicNumber (t_topic t) ++ js ": "
                         ++ (c :: m)]
            | _ => errors report
            end |}.

(** The state of the generating phase: tasks waiting in the limiter's queue,
    tasks in flight, and the shared report. *)
Record sched : Type := {
  queue : list Task;
  running : list Task;
  report : RunReport
}.

(** Modelled from the spec: the scheduling of the limiter (package p-limit
    over the event loop, not under src/).  The limiter starts the next
    queued task when fewer than [concurrency] are in flight; a task in
    flight settles at any time, in any order ("no ordering is promised
    between topics' completion", spec 5), and its completion handler then
    runs to the end without interleaving. *)
Inductive step (courseSpec : CourseSpec) (concurrency : nat)
    : sched -> sched -> Prop :=
| step_start : forall t q r rep,
    (List.length r < concurrency)%nat ->
    step courseSpec concurrency
      {| queue := t :: q; running := r; report := rep |}
      {| queue := q; running := r ++ [t]; report := rep |}
| step_settle : forall q r1 t r2 rep,
    step courseSpec concurrency
      {| queue := q; running := r1 ++ t :: r2; report := rep |}
      {| queue := q; running := r1 ++ r2;
         report := settle courseSpec rep t |}.

Inductive steps (courseSpec : CourseSpec) (concurrency : nat)
    : sched -> sched -> Prop :=
| steps_refl : forall s, steps courseSpec concurrency s s
| steps_step : forall s1 s2 s3,
    step courseSpec concurrency s1 s2 ->
    steps courseSpec concurrency s2 s3 ->
    steps courseSpec concurrency s1 s3.

(** The result that a task produces when it runs. *)
Definition taskResult (courseSpec : CourseSpec) (t : Task) : TopicResult :=
  generateAndWriteTopic courseSpec (t_moduleNumber t) (t_topic t)
    (t_topicStructure t).

(** The results already reported together with those still to come. *)
Definition outstanding (courseSpec : CourseSpec) (s : sched)
    : list TopicResult :=
  topicResults (report s)
    ++ map (taskResult courseSpec) (running s ++ queue s).

(** [Promise.all(tasks)] resolves: nothing queued, nothing in flight. *)
Definition settledAll (s : sched) : Prop := queue s = [] /\ running s = [].

(** *** runPipeline *)

(** The [catch] block of runPipeline. *)
Definition pipelineFailed (report : RunReport) (endT : N) (e : thrown)
    : RunReport :=
  {| startTime := startTime report;
     endTime := Some endT;
     rr_courseName := rr_courseName report;
     indexFileId := indexFileId report;
     rootFolderId := rootFolderId report;
     rr_courseFolderId := rr_courseFolderId report;
     totalTopics := totalTopics report;
     completedTopics := completedTopics report;
     failedTopics := failedTopics report;
     topicResults := topicResults report;
     errors := errors report ++ [js "Pipeline failed: " ++ thrownToString e] |}.

(** [for (const module of courseSpec.modules)
       report.totalTopics += module.topics.length] *)
Definition countTopics (courseSpec : CourseSpec) : nat :=
  fold_left (fun n m => (n + List.length (topics m))%nat)
    (modules courseSpec) 0%nat.

(** [providedCourseSpec || await parseIndexDocument(indexFileId)] *)
Definition obtainCourseSpec (providedCourseSpec : option CourseSpec)
    (indexFileId : jsstring) : result CourseSpec :=
  match providedCourseSpec with
  | Some spec => Ok spec
  | None => parseIndexDocument indexFileId
  end.

(** runPipeline up to the point where every task has been handed to the
    limiter: steps 1 and 2 and the dispatch loops of step 3.  The clock
    readings [startT] and [endT], the bound read from the configuration and
    the store are arguments.  The result is the report of an aborted run or
    the state in which the generating phase starts; the store after
    materialization comes with it.  (The modelled store answers every
    request, so a run is aborted here only when no CourseSpec is obtained or
    the limiter cannot be created.) *)
Definition runPipeline_dispatch (startT endT : N)
    (maxConcurrentTopics : option Z)
    (indexFileId rootFolderId : jsstring)
    (providedCourseSpec : option CourseSpec) (d : drive)
    : (RunReport + (CourseSpec * nat * sched)) * drive :=
  let report0 :=
    {| startTime := startT; endTime := None; rr_courseName := [];
       indexFileId := indexFileId; rootFolderId := rootFolderId;
       rr_courseFolderId := None; totalTopics := 0%nat;
       completedTopics := 0%nat; failedTopics := 0%nat;
       topicResults := []; errors := [] |} in
  match obtainCourseSpec providedCourseSpec indexFileId with
  | Throw e => (inl (pipelineFailed report0 endT e), d)
  | Ok courseSpec =>
      let '(structure, d') :=
        createCourseStructure filesList freshId courseSpec rootFolderId d in
      let report1 :=
        {| startTime := startT; endTime := None;
           rr_courseName := courseName courseSpec;
           indexFileId := indexFileId; rootFolderId := rootFolderId;
           rr_courseFolderId := Some (courseFolderId structure);
           totalTopics := countTopics courseSpec; completedTopics := 0%nat;
           failedTopics := 0%nat; topicResults := []; errors := [] |} in
      match pLimit maxConcurrentTopics with
      | Throw e => (inl (pipelineFailed report1 endT e), d')
      | Ok concurrency =>
          let '(tasks, errs) :=
            dispatchModules structure (modules courseSpec) in
          (inr (courseSpec, concurrency,
                {| queue := tasks; running := [];
                   report :=
                     {| startTime := startT; endTime := None;
                        rr_courseName := courseName courseSpec;
                        indexFileId := indexFileId;
                        rootFolderId := rootFolderId;
                        rr_courseFolderId := Some (courseFolderId structure);
                        totalTopics := countTopics courseSpec;
                        completedTopics := 0%nat; failedTopics := 0%nat;
                        topicResults := []; errors := errs |} |}), d')
      end
  end.

(** After [await Promise.all(tasks)]: the end time is set and the report is
    returned. *)
Definition finishReport (endT : N) (report : RunReport) : RunReport :=
  {| startTime := startTime report;
     endTime := Some endT;
     rr_courseName := rr_courseName report;
     indexFileId := indexFileId report;
     rootFolderId := rootFolderId report;
     rr_courseFolderId := rr_courseFolderId report;
     totalTopics := totalTopics report;
     completedTopics := completedTopics report;
     failedTopics := failedTopics report;
     topicResults := topicResults report;
     errors := errors report |}.

(** [runPipeline ... r]: a run of runPipeline may return the report [r]. *)
Inductive runPipeline (startT endT : N) (maxConcurrentTopics : option Z)
    (indexFileId rootFolderId : jsstring)
    (providedCourseSpec : option CourseSpec) (d : drive)
    : RunReport -> Prop :=
| run_aborted : forall r d',
    runPipeline_dispatch startT endT maxConcurrentTopics indexFileId
      rootFolderId providedCourseSpec d = (inl r, d') ->
    runPipeline startT endT maxConcurrentTopics indexFileId rootFolderId
      providedCourseSpec d r
| run_completed : forall courseSpec concurrency s0 d' s,
    runPipeline_dispatch startT endT maxConcurrentTopics indexFileId
      rootFolderId providedCourseSpec d
      = (inr (courseSpec, concurrency, s0), d') ->
    steps courseSpec concurrency s0 s ->
    settledAll s ->
    runPipeline startT endT maxConcurrentTopics indexFileId rootFolderId
      providedCourseSpec d (finishReport endT (report s)).

End Orchestrator.

End Pipeline.

(* ================================================================== *)
(** ** Statements taken from the specification, for comparison *)
(* ================================================================== *)

Module Claimed.

Import Parser.

(** The example scenario of the specification (section 8). *)
Definition scenarioText : jsstring :=
  join js_nl [js "MÓDULO 1: Finanzas básicas"; js "1.1 Introducción";
              js "1.2 Presupuesto"; js "MÓDULO 2: Inversión";
              js "2.1 Acciones"].

(** The same outline with the topic lines in the letter-prefixed form that
    the topic pattern of parseModules recognizes. *)
Definition scenarioTextLettered : jsstring :=
  join js_nl [js "MÓDULO 1: Finanzas básicas"; js "B1.1 Introducción";
              js "B1.2 Presupuesto"; js "MÓDULO 2: Inversión";
              js "B2.1 Acciones"].

(** What the specification expects of the scenario: two modules, the first
    with the topics 1.1 and 1.2, the second with the topic 2.1. *)
Definition scenarioExpected (ms : list Module_) : Prop :=
  exists m1 m2,
    ms = [m1; m2]
    /\ map topicNumber (topics m1) = [js "1.1"; js "1.2"]
    /\ map topicNumber (topics m2) = [js "2.1"].

(** Module numbers 1, 2, ..., k in list order. *)
Definition contiguousFromOne (ms : list Module_) : Prop :=
  map moduleNumber ms = map N.of_nat (seq 1 (List.length ms)).

(** A module-marker line as the specification means it: a line that starts
    with MÓDULO or with one of the two module glyphs. *)
Definition isModuleMarkerLine (l : jsstring) : bool :=
  startsWith (js "MÓDULO") l || startsWith (js "🧱") l
  || startsWith (js "📌") l.

(** A line that is only the objective marker: the header pattern matches,
    and the marker prefix is the whole line or is followed by 'del curso'
    only (the title that the comment in extractObjective names). *)
Definition isMarkerOnly (l : jsstring) : bool :=
  test false re_objetivoHeader l
  && (JS.eqb (replace false re_objetivoPrefix (fun _ => []) l) []
      || JS.eqb (replace false re_objetivoPrefix (fun _ => []) l)
                (js "del curso")).

(** "collect subsequent lines until a module-marker line is reached" *)
Fixpoint untilModuleMarker (ls : list jsstring) : list jsstring :=
  match ls with
  | [] => []
  | l :: more => if isModuleMarkerLine l then [] else l :: untilModuleMarker more
  end.

(** Objective extraction as the specification words it (section 4.1,
    step 3): the first line with an objective marker decides; a marker-only
    line contributes nothing, any other marker line contributes what follows
    its marker prefix; then every subsequent line up to the first
    module-marker line is collected; the fragments are joined with single
    spaces; without a marker the placeholder is returned. *)
Fixpoint claimedObjective (lines : list jsstring) : jsstring :=
  match lines with
  | [] => objectivePlaceholder
  | line :: more =>
      if hasObjectiveMarker line then
        join (js " ")
          ((if isMarkerOnly line then []
            else [replace false re_objetivoPrefix (fun _ => []) line])
           ++ untilModuleMarker more)
      else claimedObjective more
  end.

(** A line whose first code unit belongs to the class that the
    module-marker pattern of extractObjective tests. *)
Definition startsInMarkerClass (l : jsstring) : bool :=
  match l with
  | c :: _ => oneOf (js "🧱📌MÓDULO") c
  | [] => false
  end.

(** An outline whose first module header has no topic line. *)
Definition gapScenarioText : jsstring :=
  join js_nl [js "MÓDULO 1: Vacío"; js "MÓDULO 2: Inversión";
              js "B2.1 Acciones"].

(** Trimmed lines with a marker-only line, a separator line between two
    objective lines, and a module header. *)
Definition separatorScenario : list jsstring :=
  [js "Objetivo"; js "Aprender"; js "___"; js "a invertir";
   js "MÓDULO 1: Bolsa"].

(** The number of modules the loop of parseModules opened. *)
Definition openedModules (content : jsstring) : N :=
  globalModuleCounter (parseLoop (contentLines content)).

End Claimed.


(* ================================================================== *)
(** ** Test doubles and example inputs *)
(* ================================================================== *)

Module Doubles.

Import Parser Drive Pipeline.

(** A store that numbers its files. *)
Definition freshByCount (d : drive) : jsstring :=
  js "id-" ++ ofNumber (N.of_nat (List.length d)).

(** *** A listing service that reads the query text

    Query texts are read by the query syntax of the service, restricted to
    what the program sends: terms joined by ' and '; a term compares the
    name or the MIME type with a quoted literal, asks for a quoted literal
    among the parents, or fixes the trashed flag; inside a quoted literal a
    backslash escapes the next code unit. *)

Inductive queryTerm : Type :=
| NameIs (literal : jsstring)       (* name = '...' *)
| MimeTypeIs (literal : jsstring)   (* mimeType = '...' *)
| InParents (literal : jsstring)    (* '...' in parents *)
| TrashedIs (flag : bool).          (* trashed = false, trashed = true *)

(** A quoted literal from behind its opening quote: the string it denotes
    and the text after its closing quote. *)
Fixpoint readLiteral (s : jsstring) : option (jsstring * jsstring) :=
  match s with
  | [] => None
  | c :: t =>
      if c =? 0x27 then Some ([], t)
      else if c =? 0x5C then
        match t with
        | e :: t' =>
            match readLiteral t' with
            | Some (l, r) => Some (e :: l, r)
            | None => None
            end
        | [] => None
        end
      else
        match readLiteral t with
        | Some (l, r) => Some (c :: l, r)
        | None => None
        end
  end.

(** [s] without its prefix [p], when it starts with [p]. *)
Definition afterPrefix (p s : jsstring) : option jsstring :=
  if startsWith p s then Some (skipn (List.length p) s) else None.

Definition readTerm (s : jsstring) : option (queryTerm * jsstring) :=
  match afterPrefix (js "name = '") s with
  | Some r =>
      match readLiteral r with
      | Some (l, r') => Some (NameIs l, r')
      | None => None
      end
  | None =>
  match afterPrefix (js "mimeType = '") s with
  | Some r =>
      match readLiteral r with
      | Some (l, r') => Some (MimeTypeIs l, r')
      | None => None
      end
  | None =>
  match afterPrefix (js "trashed = false") s with
  | Some r => Some (TrashedIs false, r)
  | None =>
  match afterPrefix (js "trashed = true") s with
  | Some r => Some (TrashedIs true, r)
  | None =>
  match afterPrefix (js "'") s with
  | Some r =>
      match readLiteral r with
      | Some (l, r') =>
          match afterPrefix (js " in parents") r' with
          | Some r'' => Some (InParents l, r'')
          | None => None
          end
      | None => None
      end
  | None => None
  end end end end end.

(** The terms of a query text; [None] for a text outside the syntax. *)
Fixpoint readQuery (fuel : nat) (s : jsstring) : option (list queryTerm) :=
  match fuel with
  | O => None
  | S fuel' =>
      match readTerm s with
      | None => None
      | Some (t, r) =>
          match afterPrefix (js " and ") r with
          | Some r' =>
              match readQuery fuel' r' with
              | Some ts => Some (t :: ts)
              | None => None
              end
          | None =>
              match r with
              | [] => Some [t]
              | _ :: _ => None
              end
          end
      end
  end.

Definition mimeText (mt : MimeType) : jsstring :=
  match mt with
  | folder => js "application/vnd.google-apps.folder"
  | document => js "application/vnd.google-apps.document"
  end.

Definition satisfies (f : DriveFile) (t : queryTerm) : bool :=
  match t with
  | NameIs l => JS.eqb (f_name f) l
  | MimeTypeIs l => JS.eqb (mimeText (f_mimeType f)) l
  | InParents l => existsb (JS.eqb l) (f_parents f)
  | TrashedIs b => Bool.eqb (f_trashed f) b
  end.

(** The files that satisfy every term of the query text, in store order;
    a text outside the syntax selects nothing. *)
Definition driveList (q : jsstring) (d : drive) : list DriveFile :=
  match readQuery (S (List.length q)) q with
  | Some ts => filter (fun f => forallb (satisfies f) ts) d
  | None => []
  end.

(** A CourseSpec, as a caller may supply it, whose course name contains
    single quotes: pasted into the query text of findFolder it reads
    [name = 'Bolsa' and name = 'Inversión' and 'root' in parents and ...]. *)
Definition quotedNameSpec : CourseSpec :=
  {| courseName := js "Bolsa' and name = 'Inversión";
     level := basico;
     objective := js "Aprender a invertir";
     targetAudience := None;
     modules :=
       [ {| moduleNumber := 1; moduleName := js "Finanzas";
            moduleResult := None;
            topics := [mkTopic (js "1.1") (js "Introducción")] |} ];
     metadata := None |}.

(** A generator double that fails for the topic numbered [num] and for no
    other topic. *)
Definition failOn (num : jsstring) (courseSpec : CourseSpec) (topic : Topic)
    : result unit :=
  if JS.eqb (topicNumber topic) num
  then Throw (ErrorObject (js "generation failed"))
  else Ok tt.

(** A writer double that always succeeds. *)
Definition writeOk (docs : TopicDocs) (content : unit) : result unit := Ok tt.

(** No index document: the CourseSpec is supplied by the caller. *)
Definition noIndexDocument (fileId : jsstring) : result CourseSpec :=
  Throw (ErrorObject (js "no index document")).

(** Upper-casing of Basic Latin and Latin-1 letters, code unit by code
    unit; on text in that range without sharp s, micro sign and y with
    diaeresis it is what [toUpperCase] returns. *)
Definition upperLatin1 (s : jsstring) : jsstring := map canonicalize s.

(** A CourseSpec, as a caller may supply it, in which two modules carry the
    same number. *)
Definition duplicateNumbersSpec : CourseSpec :=
  {| courseName := js "Curso de bolsa";
     level := basico;
     objective := js "Aprender a invertir";
     targetAudience := None;
     modules :=
       [ {| moduleNumber := 1; moduleName := js "Finanzas";
            moduleResult := None;
            topics := [mkTopic (js "1.1") (js "Introducción")] |};
         {| moduleNumber := 1; moduleName := js "Inversión";
            moduleResult := None;
            topics := [mkTopic (js "2.1") (js "Acciones")] |} ];
     metadata := None |}.

(** The CourseSpec parsed from the lettered scenario: modules 1 and 2 with
    the topics 1.1, 1.2 and 2.1. *)
Definition letteredSpec : CourseSpec :=
  parseIndexContent (fun s => s) (js "2026-01-23T00:00:00.000Z")
    Claimed.scenarioTextLettered.

(** The state in which the generating phase of a run on [letteredSpec]
    against an empty store starts, with the bound 3. *)
Definition letteredStart : sched :=
  match fst (runPipeline_dispatch noIndexDocument driveList freshByCount 0 1
               (Some 3%Z) (js "manual") (js "root") (Some letteredSpec) [])
  with
  | inr (_, _, s) => s
  | inl r => {| queue := []; running := []; report := r |}
  end.

(** A placeholder task, for list access by position. *)
Definition noTask : Task :=
  {| t_moduleNumber := 0;
     t_topic := mkTopic [] [];
     t_topicStructure :=
       {| ts_topicNumber := []; ts_topicName := []; ts_folderId := [];
          ts_docs := {| topicIndexId := []; topicDevelopmentId := [];
                        voiceoverScriptId := [] |} |} |}.

(** The same run with its three tasks in flight. *)
Definition letteredInFlight : sched :=
  {| queue := skipn 3 (queue letteredStart);
     running := [] ++ firstn 3 (queue letteredStart);
     report := report letteredStart |}.

(** A voiceover draft whose only line is the closing sentence written as a
    markdown header. *)
Definition headerDraft : jsstring := js "# Nos vemos en la siguiente clase.".

End Doubles.

(* ================================================================== *)
(** ** Reading a run report against its CourseSpec *)
(* ================================================================== *)

Module Reporting.

Import Drive Pipeline.

(** The topics of a CourseSpec in document order, each with the number of
    its module. *)
Definition specTopics (courseSpec : CourseSpec) : list (N * Topic) :=
  flat_map (fun m => map (fun t => (moduleNumber m, t)) (topics m))
           (modules courseSpec).

(** What a task was queued for. *)
Definition taskKey (t : Task) : N * Topic := (t_moduleNumber t, t_topic t).

(** What a result says it is about. *)
Definition resultKey (r : TopicResult) : N * jsstring * jsstring :=
  (tr_moduleNumber r, tr_topicNumber r, tr_topicName r).

Definition topicKey (x : N * Topic) : N * jsstring * jsstring :=
  (fst x, topicNumber (snd x), topicName (snd x)).

(** [l1] is [l2] with some elements left out. *)
Inductive subseq {A : Type} : list A -> list A -> Prop :=
| subseq_nil : subseq [] []
| subseq_skip : forall x l1 l2, subseq l1 l2 -> subseq l1 (x :: l2)
| subseq_keep : forall x l1 l2, subseq l1 l2 -> subseq (x :: l1) (x :: l2).

(** A one-topic CourseSpec, as a caller may supply it. *)
Definition oneTopicSpec : CourseSpec :=
  {| courseName := js "Curso de bolsa";
     level := basico;
     objective := js "Aprender a invertir";
     targetAudience := None;
     modules :=
       [ {| moduleNumber := 1; moduleName := js "Finanzas";
            moduleResult := None;
            topics := [mkTopic (js "1.1") (js "Introducción")] |} ];
     metadata := None |}.

(** The state in which the generating phase of a run on [oneTopicSpec]
    against an empty store starts, and the report after its only task has
    settled under the generator double [gen]. *)
Definition oneTopicStart : sched :=
  match fst (runPipeline_dispatch Doubles.noIndexDocument Doubles.driveList
               Doubles.freshByCount 0 1 (Some 3%Z) (js "manual") (js "root") (Some oneTopicSpec) [])
  with
  | inr (_, _, s) => s
  | inl r => {| queue := []; running := []; report := r |}
  end.

Definition oneTopicReport (gen : CourseSpec -> Topic -> result unit)
    : RunReport :=
  finishReport 1
    (settle unit gen Doubles.writeOk oneTopicSpec (report oneTopicStart)
       (hd Doubles.noTask (queue oneTopicStart))).

End Reporting.

(* ================================================================== *)
(** ** Lookup in the materialized structure (src/auth.ts, getTopicDocs) *)
(* ================================================================== *)

Module FolderWriter.

Import Drive.

(** [getTopicDocs(structure, moduleNumber, topicNumber)]; [null] is
    [None]. *)
Definition getTopicDocs (structure : FolderStructure) (moduleNumber : N)
    (topicNumber : jsstring) : option TopicDocs :=
  match find (fun m => ms_moduleNumber m =? moduleNumber)
             (fs_modules structure) with
  | None => None
  | Some module =>
      match find (fun t => JS.eqb (ts_topicNumber t) topicNumber)
                 (ms_topics module) with
      | None => None
      | Some topic => Some (ts_docs topic)
      end
  end.

(** The number of files that materializing a module can create at most:
    its folder, and a folder and three documents per topic. *)
Definition moduleFiles (m : Module_) : nat :=
  (1 + 4 * List.length (topics m))%nat.

(** A file as [drive.files.create] is asked to make it: under one parent,
    not trashed. *)
Definition asCreated (f : DriveFile) : Prop :=
  f_trashed f = false /\ List.length (f_parents f) = 1%nat.

(** A computation that leaves the files of the store in place and adds at
    most [n] files behind them. *)
Definition appendsAtMost {A} (n : nat) (c : M A) : Prop :=
  forall d a d',
    c d = (a, d') ->
    exists added,
      d' = d ++ added
      /\ (List.length added <= n)%nat
      /\ Forall asCreated added.

End FolderWriter.

(* ================================================================== *)
(** ** Text-generation client (src/openai/client.ts, generateJSON) *)
(* ================================================================== *)

Module Client.

(** The clean-up that generateJSON applies to the answer of the service
    before [JSON.parse]: the final value of [cleanContent]. *)
Definition cleanContent (content : jsstring) : jsstring :=
  let c := trim content in
  let c := if startsWith (js "```json") c then skipn 7 c else c in
  let c := if startsWith (js "```") c then skipn 3 c else c in
  let c := if endsWith c (js "```")
           then firstn (List.length c - 3) c else c in
  trim c.

(** A string of white space only. *)
Definition blank (s : jsstring) : Prop :=
  Forall (fun c => isWhiteSpace c = true) s.

End Client.

(* ================================================================== *)
(** ** Reading the result of the index parser *)
(* ================================================================== *)

Module Parsed.

Import Parser.

(** The modules that the line-by-line loop of parseModules found: its
    result unless it is empty, in which case parseAlternativeFormat takes
    over. *)
Definition loopModules (lines : list jsstring) : list Module_ :=
  let st := parseLoop lines in
  closeModule (ps_modules st) (currentModule st).

(** A topic as the parser leaves it: a trimmed name, the status 'pending',
    no description and no generated documents. *)
Definition asParsed (t : Topic) : Prop :=
  trim (topicName t) = topicName t
  /\ status t = Some pending
  /\ description t = None
  /\ generatedDocs t = None.

Definition named (t : Topic) : Prop := topicName t <> [].

(** The loop invariant: every topic pushed so far, in a closed module or in
    the open one, has the property [Q]. *)
Definition topicsAll (Q : Topic -> Prop) (st : pstate) : Prop :=
  Forall (fun m => Forall Q (topics m)) (ps_modules st)
  /\ match currentModule st with
     | Some cm => Forall Q (topics cm)
     | None => True
     end.

End Parsed.

(* ================================================================== *)
(** ** Strings and patterns: checks on concrete inputs *)
(* ================================================================== *)

Module RegexFacts.

Import Parser Generator.

(** A literal is read as UTF-16: Latin-1 letters are one code unit, an
    astral glyph is a surrogate pair. *)
Example js_units : js "Ó🧱·" = [0xD3; 0xD83E; 0xDDF1; 0xB7].
Proof. vm_compute. reflexivity. Qed.

Example splitLines_trim :
  contentLines (js "  uno  " ++ js_nl ++ js_nl ++ js "dos" ++ [0x0D] ++ js_nl)
  = [js "uno"; js "dos"].
Proof. vm_compute. reflexivity. Qed.

(** The MÓDULO header pattern: number and title, case-insensitively. *)
Example modulo_header :
  option_map (fun f => (grp 1 f, grp 2 f))
    (exec false re_modulo (js "módulo 12 · Renta fija"))
  = Some (js "12", js "Renta fija").
Proof. vm_compute. reflexivity. Qed.

(** A letter-prefixed header is not a topic line, and conversely. *)
Example header_or_topic :
  test false re_moduleHeader (js "B1. Fundamentos") = true
  /\ test false re_topic (js "B1. Fundamentos") = false
  /\ test false re_moduleHeader (js "B1.2 Riesgo") = false
  /\ option_map (fun f => (grp 2 f, grp 3 f, grp 4 f))
       (exec false re_topic (js "B1.2 Riesgo"))
     = Some (js "1", js "2", js "Riesgo").
Proof. vm_compute. repeat split; reflexivity. Qed.

(** Backtracking in the numbered-line pattern: the digits give back what
    the following class needs. *)
Example numbered_line :
  option_map (fun f => (grp 1 f, grp 2 f))
    (exec false re_numbered (js "1.1 Introducción"))
  = Some (js "1.1", js "Introducción")
  /\ option_map (fun f => (grp 1 f, grp 2 f))
       (exec false re_numbered (js "3) Cierre"))
     = Some (js "3", js "Cierre")
  /\ exec false re_numbered (js "2024") = None.
Proof. vm_compute. repeat split; reflexivity. Qed.

(** Lazy repetition and global replacement. *)
Example emphasis_pairs :
  replaceAll false re_italic (grp 1) (js "*a* y *b*") = js "a y b"
  /\ replaceAll false re_fence (fun _ => [])
       (js "x ```uno``` y ```dos``` z") = js "x  y  z".
Proof. vm_compute. repeat split; reflexivity. Qed.

(** The normalizer on a small document. *)
Example clean_document :
  cleanMarkdownToPlainText Doubles.upperLatin1
    (join js_nl [js "## Título"; js "* uno **dos**"; js "---"; []; [];
                 js "fin 🎯"])
  = join js_nl [js "TÍTULO"; []; js "- uno dos"; []; js "fin"].
Proof. vm_compute. reflexivity. Qed.

End RegexFacts.

(* ================================================================== *)
(** ** Index parser: properties *)
(* ================================================================== *)

Module ParserFacts.

Import Parser Claimed.

Lemma parseIndexContent_modules :
  forall toLowerCase now content,
    modules (parseIndexContent toLowerCase now content)
    = parseModules (contentLines content).
Proof. reflexivity. Qed.

(** *** The shape of one loop iteration *)

Lemma parseStep_cases :
  forall st line,
    parseStep st line = st
    \/ (exists name, parseStep st line = openModule st name)
    \/ (exists tm, parseStep st line = addTopic st tm)
    \/ parseStep st line = noteResult st line.
Proof.
  intros st line. unfold parseStep.
  destruct (test false re_nivel line); [now left|].
  destruct (exec false re_modulo line) as [mm|].
  { right; left. eexists; reflexivity. }
  assert (Htopic :
    (exists tm, match exec false re_topic line with
                | Some topicMatch => addTopic st topicMatch
                | None => noteResult st line
                end = addTopic st tm)
    \/ match exec false re_topic line with
       | Some topicMatch => addTopic st topicMatch
       | None => noteResult st line
       end = noteResult st line).
  { destruct (exec false re_topic line) as [tm|];
      [left; eexists; reflexivity | right; reflexivity]. }
  destruct (exec false re_moduleHeader line) as [mh|].
  - destruct (negb (test false re_topicPrefix line)).
    + right; left. eexists; reflexivity.
    + destruct Htopic as [H|H]; [right; right; left | right; right; right];
        exact H.
  - destruct Htopic as [H|H]; [right; right; left | right; right; right];
      exact H.
Qed.

(** An invariant of the loop is kept by every iteration once the three
    state updates keep it. *)
Lemma parseLoop_invariant (P : pstate -> Prop) :
  P parseInit ->
  (forall st name, P st -> P (openModule st name)) ->
  (forall st tm, P st -> P (addTopic st tm)) ->
  (forall st line, P st -> P (noteResult st line)) ->
  forall lines, P (parseLoop lines).
Proof.
  intros Hinit Hopen Hadd Hnote lines. unfold parseLoop.
  generalize parseInit Hinit. induction lines as [|line lines IH];
    intros st Hst; cbn [fold_left]; [exact Hst|].
  apply IH.
  destruct (parseStep_cases st line) as [E|[[name E]|[[tm E]|E]]];
    rewrite E; auto.
Qed.

(** *** Empty modules are never emitted *)

Lemma closeModule_nonEmpty :
  forall mods cur,
    Forall nonEmptyTopics mods -> Forall nonEmptyTopics (closeModule mods cur).
Proof.
  intros mods [cm|] H; cbn [closeModule]; [|exact H].
  destruct (topics cm) as [|t ts] eqn:E; cbn; [exact H|].
  apply Forall_app; split; [exact H|].
  constructor; [|constructor]. unfold nonEmptyTopics. rewrite E. discriminate.
Qed.

Lemma parseLoop_nonEmpty :
  forall lines, Forall nonEmptyTopics (ps_modules (parseLoop lines)).
Proof.
  apply (parseLoop_invariant (fun st => Forall nonEmptyTopics (ps_modules st))).
  - constructor.
  - intros st name H. cbn. apply closeModule_nonEmpty, H.
  - intros st tm H. unfold addTopic.
    destruct (currentModule st); cbn; exact H.
  - intros st line H. unfold noteResult.
    destruct (currentModule st); [|exact H].
    destruct (includes line (js "📌 Resultado:")); cbn; exact H.
Qed.

Lemma parseAlternativeFormat_nonEmpty :
  forall lines, Forall nonEmptyTopics (parseAlternativeFormat lines).
Proof.
  intros lines. unfold parseAlternativeFormat.
  destruct (fold_left altStep lines ([], 1)) as [tops n].
  cbn [topics]. destruct tops as [|t ts]; cbn; constructor; [|constructor].
  unfold nonEmptyTopics; cbn. discriminate.
Qed.

Lemma parseModules_nonEmpty :
  forall lines, Forall nonEmptyTopics (parseModules lines).
Proof.
  intros lines. unfold parseModules.
  destruct (List.length _ =? 0)%nat.
  - apply parseAlternativeFormat_nonEmpty.
  - apply closeModule_nonEmpty, parseLoop_nonEmpty.
Qed.

(** C8: no module of the CourseSpec that parseIndexContent returns has an
    empty topic list; this holds for what the primary parser emits (the
    modules it pushed, with the last open module closed at the end of the
    input) and for what the single-module fallback parser returns. *)
Theorem parse_no_empty_module :
  (forall toLowerCase now content,
     Forall (fun m => topics m <> [])
       (modules (parseIndexContent toLowerCase now content)))
  /\ (forall lines,
        Forall (fun m => topics m <> [])
          (closeModule (ps_modules (parseLoop lines))
                       (currentModule (parseLoop lines))))
  /\ (forall lines,
        Forall (fun m => topics m <> []) (parseAlternativeFormat lines)).
Proof.
  split; [|split].
  - intros. rewrite parseIndexContent_modules. apply parseModules_nonEmpty.
  - intros lines. apply closeModule_nonEmpty, parseLoop_nonEmpty.
  - apply parseAlternativeFormat_nonEmpty.
Qed.

(** *** Module numbers *)

Lemma sorted_snoc :
  forall (l : list N) (a : N),
    StronglySorted N.lt l -> Forall (fun x => x < a) l ->
    StronglySorted N.lt (l ++ [a]).
Proof.
  induction l as [|x l IH]; intros a Hs Hlt; cbn.
  - constructor; constructor.
  - inversion Hs; subst. inversion Hlt; subst.
    constructor; [apply IH; assumption|].
    apply Forall_app; split; [assumption|]. constructor; [assumption|constructor].
Qed.

(** A strictly increasing list of [length l] numbers, all in
    [a, a + length l), is the run a, a+1, ... *)
Lemma sorted_range_seq :
  forall (l : list N) (a : nat),
    StronglySorted N.lt l ->
    Forall (fun x => N.of_nat a <= x < N.of_nat (a + List.length l)) l ->
    l = map N.of_nat (seq a (List.length l)).
Proof.
  induction l as [|x l IH]; intros a Hs Hr; [reflexivity|].
  inversion Hs as [|? ? Hs' Hx]; subst. inversion Hr as [|? ? Hrx Hr']; subst.
  cbn [List.length seq map] in *.
  assert (Hl : l = map N.of_nat (seq (S a) (List.length l))).
  { apply IH; [exact Hs'|].
    rewrite Forall_forall in *. intros y Hy.
    specialize (Hx y Hy). specialize (Hr' y Hy). lia. }
  f_equal; [|exact Hl].
  destruct l as [|y l'].
  - cbn in Hrx. lia.
  - cbn [List.length seq map] in Hl. injection Hl as Hy _.
    inversion Hx; subst. lia.
Qed.

Lemma closeModule_numbered :
  forall st,
    numbered st ->
    StronglySorted N.lt
      (map moduleNumber (closeModule (ps_modules st) (currentModule st)))
    /\ Forall (fun m => 1 <= moduleNumber m <= globalModuleCounter st)
              (closeModule (ps_modules st) (currentModule st)).
Proof.
  intros st (Hs & Hr & Hc). unfold closeModule.
  destruct (currentModule st) as [cm|]; [|split; assumption].
  destruct Hc as (Hn & H1 & Hlt).
  destruct (0 <? List.length (topics cm))%nat; [|split; assumption].
  split.
  - rewrite map_app. apply sorted_snoc; [exact Hs|].
    apply Forall_map. cbn. rewrite Hn. exact Hlt.
  - apply Forall_app; split; [exact Hr|]. constructor; [lia|constructor].
Qed.

Lemma parseLoop_numbered : forall lines, numbered (parseLoop lines).
Proof.
  apply parseLoop_invariant.
  - repeat split; constructor.
  - intros st name H. destruct (closeModule_numbered st H) as (Hs & Hr).
    unfold numbered, openModule. cbn.
    split; [exact Hs|]. split; [|split; [reflexivity|split; [lia|]]].
    + eapply Forall_impl; [|exact Hr]. cbn. intros m Hm. lia.
    + eapply Forall_impl; [|exact Hr]. cbn. intros m Hm. lia.
  - intros st tm (Hs & Hr & Hc). unfold numbered, addTopic.
    destruct (currentModule st) as [cm|]; cbn.
    + split; [exact Hs|]. split; [exact Hr|].
      destruct Hc as (Hn & H1 & Hlt).
      match goal with |- context [if ?b then _ else _] => destruct b end;
        cbn; auto.
    + rewrite Hc. split; [constructor|]. split; [constructor|].
      match goal with |- context [if ?b then _ else _] => destruct b end;
        cbn; (split; [reflexivity|split; [lia|constructor]]).
  - intros st line (Hs & Hr & Hc). unfold numbered, noteResult.
    destruct (currentModule st) as [cm|] eqn:Ecur.
    + destruct (includes line (js "📌 Resultado:")); cbn.
      * split; [exact Hs|]. split; [exact Hr|]. exact Hc.
      * rewrite Ecur. split; [exact Hs|]. split; [exact Hr|]. exact Hc.
    + rewrite Ecur. split; [exact Hs|]. split; [exact Hr|]. exact Hc.
Qed.

Lemma parseAlternativeFormat_numbers :
  forall lines,
    map moduleNumber (parseAlternativeFormat lines) = []
    \/ map moduleNumber (parseAlternativeFormat lines) = [1].
Proof.
  intros lines. unfold parseAlternativeFormat.
  destruct (fold_left altStep lines ([], 1)) as [tops n].
  cbn [topics]. destruct (0 <? List.length tops)%nat; [right|left]; reflexivity.
Qed.

(** C2, as the specification states it, fails: a module header without
    topics is dropped, but it has used up a number. *)
Lemma module_numbers_gap :
  ~ (forall toLowerCase now content,
       contiguousFromOne
         (modules (parseIndexContent toLowerCase now content))).
Proof.
  intros H.
  specialize (H (fun s => s) [] gapScenarioText).
  unfold contiguousFromOne in H. rewrite parseIndexContent_modules in H.
  assert (E : map moduleNumber (parseModules (contentLines gapScenarioText))
              = [2])
    by (vm_compute; reflexivity).
  rewrite E in H.
  rewrite <- (length_map moduleNumber) in H. rewrite E in H.
  discriminate H.
Qed.

Lemma parseModules_numbers :
  forall lines,
    let ms := parseModules lines in
    StronglySorted N.lt (map moduleNumber ms)
    /\ Forall (fun m => 1 <= moduleNumber m) ms
    /\ (N.of_nat (List.length ms) = globalModuleCounter (parseLoop lines) ->
        contiguousFromOne ms).
Proof.
  intros lines ms. subst ms. unfold parseModules.
  destruct (closeModule_numbered _ (parseLoop_numbered lines)) as (Hs & Hr).
  destruct (List.length _ =? 0)%nat.
  - unfold contiguousFromOne.
    rewrite <- (length_map moduleNumber (parseAlternativeFormat lines)).
    assert (HF : Forall (fun n => 1 <= n)
                   (map moduleNumber (parseAlternativeFormat lines))
                 -> Forall (fun m => 1 <= moduleNumber m)
                      (parseAlternativeFormat lines)).
    { intros HF. rewrite Forall_forall in *. intros m Hm.
      apply HF, in_map, Hm. }
    destruct (parseAlternativeFormat_numbers lines) as [E|E];
      rewrite E in *.
    + split; [constructor|]. split; [apply HF; constructor|reflexivity].
    + split; [repeat constructor|].
      split; [apply HF; repeat constructor; lia|reflexivity].
  - split; [exact Hs|]. split.
    + eapply Forall_impl; [|exact Hr]. cbn. intros m Hm. lia.
    + intros Hk. unfold contiguousFromOne.
      rewrite <- (length_map moduleNumber).
      apply sorted_range_seq; [exact Hs|].
      rewrite length_map. apply Forall_map.
      eapply Forall_impl; [|exact Hr]. cbn. intros m Hm. lia.
Qed.

(** The module numbers of a parsed CourseSpec are pairwise distinct. *)
Lemma parseModules_NoDup :
  forall lines, NoDup (map moduleNumber (parseModules lines)).
Proof.
  intros lines. destruct (parseModules_numbers lines) as (Hs & _).
  revert Hs. generalize (map moduleNumber (parseModules lines)).
  induction l as [|x l IH]; intros Hs; [constructor|].
  inversion Hs as [|? ? Hs' Hx]; subst. constructor; [|apply IH, Hs'].
  intros Hin. rewrite Forall_forall in Hx. specialize (Hx x Hin). lia.
Qed.

(** C2 (amended): for every input text the moduleNumber fields of the
    returned modules are positive and strictly increasing in list order;
    they are exactly 1, 2, ..., k when the number k of returned modules
    equals the number of modules the parser opened, that is, when no opened
    module was dropped for having no topic.  (The counter advances when a
    module is opened, so a dropped module leaves a gap.) *)
Theorem parse_module_numbers :
  forall toLowerCase now content,
    let ms := modules (parseIndexContent toLowerCase now content) in
    StronglySorted N.lt (map moduleNumber ms)
    /\ Forall (fun m => 1 <= moduleNumber m) ms
    /\ (N.of_nat (List.length ms) = openedModules content ->
        contiguousFromOne ms).
Proof.
  intros toLowerCase now content ms. subst ms.
  rewrite parseIndexContent_modules. unfold openedModules.
  apply parseModules_numbers.
Qed.

(** The amended statement at the lettered scenario, where both opened
    modules are returned. *)
Lemma parse_module_numbers_witness :
  contiguousFromOne
    (modules (parseIndexContent (fun s => s) [] scenarioTextLettered)).
Proof.
  apply (parse_module_numbers (fun s => s) [] scenarioTextLettered).
  vm_compute. reflexivity.
Defined.

(** *** The example scenario *)

Lemma scenario_modules :
  parseModules (contentLines scenarioText)
  = [ {| moduleNumber := 1; moduleName := js "Contenido del curso";
         moduleResult := None;
         topics := [ mkTopic (js "1") (js "MÓDULO 1: Finanzas básicas");
                     mkTopic (js "1.1") (js "Introducción");
                     mkTopic (js "1.2") (js "Presupuesto");
                     mkTopic (js "4") (js "MÓDULO 2: Inversión");
                     mkTopic (js "2.1") (js "Acciones") ] |} ].
Proof. vm_compute. reflexivity. Qed.

Lemma scenarioLettered_modules :
  parseModules (contentLines scenarioTextLettered)
  = [ {| moduleNumber := 1; moduleName := js "Finanzas básicas";
         moduleResult := None;
         topics := [ mkTopic (js "1.1") (js "Introducción");
                     mkTopic (js "1.2") (js "Presupuesto") ] |};
      {| moduleNumber := 2; moduleName := js "Inversión";
         moduleResult := None;
         topics := [ mkTopic (js "2.1") (js "Acciones") ] |} ].
Proof. vm_compute. reflexivity. Qed.

(** C1, as the specification states it, fails: on the scenario text the
    parser does not return two modules. *)
Lemma scenario_not_two_modules :
  ~ (forall toLowerCase now,
       scenarioExpected
         (modules (parseIndexContent toLowerCase now scenarioText))).
Proof.
  intros H. specialize (H (fun s => s) []).
  destruct H as (m1 & m2 & Heq & _).
  rewrite parseIndexContent_modules, scenario_modules in Heq.
  discriminate Heq.
Qed.

(** C1 (amended): on the scenario text no topic line is recognized (the
    topic pattern needs the level letter B or I), both module headers are
    dropped as empty, and the fallback parser returns the single module
    'Contenido del curso' with the five lines as topics 1, 1.1, 1.2, 4 and
    2.1.  With the topic lines written B1.1, B1.2 and B2.1 the result is the
    one the specification describes: two modules, numbered 1 and 2, the
    first with the topics 1.1 and 1.2, the second with the topic 2.1. *)
Theorem scenario_parse :
  forall toLowerCase now,
    modules (parseIndexContent toLowerCase now scenarioText)
    = [ {| moduleNumber := 1; moduleName := js "Contenido del curso";
           moduleResult := None;
           topics := [ mkTopic (js "1") (js "MÓDULO 1: Finanzas básicas");
                       mkTopic (js "1.1") (js "Introducción");
                       mkTopic (js "1.2") (js "Presupuesto");
                       mkTopic (js "4") (js "MÓDULO 2: Inversión");
                       mkTopic (js "2.1") (js "Acciones") ] |} ]
    /\ scenarioExpected
         (modules (parseIndexContent toLowerCase now scenarioTextLettered))
    /\ map moduleNumber
         (modules (parseIndexContent toLowerCase now scenarioTextLettered))
       = [1; 2].
Proof.
  intros toLowerCase now. rewrite !parseIndexContent_modules.
  rewrite scenario_modules, scenarioLettered_modules.
  split; [reflexivity|]. split; [|reflexivity].
  eexists _, _. split; [reflexivity|]. split; vm_compute; reflexivity.
Qed.

(** *** Determinism *)

Lemma parseIndexContent_metadata :
  forall toLowerCase now content,
    metadata (parseIndexContent toLowerCase now content)
    = Some {| sourceFileId := None; parsedAt := Some now |}.
Proof. reflexivity. Qed.

(** C6, as the specification states it, fails: the returned CourseSpec
    carries the time of the call in metadata.parsedAt, so two calls on the
    same text at different times differ. *)
Lemma parse_depends_on_clock :
  ~ (forall toLowerCase now1 now2 content,
       parseIndexContent toLowerCase now1 content
       = parseIndexContent toLowerCase now2 content).
Proof.
  intros H.
  specialize (H (fun s => s) (js "2026-01-23T10:00:00.000Z")
                (js "2026-01-23T10:00:00.001Z") scenarioText).
  apply (f_equal metadata) in H.
  rewrite !parseIndexContent_metadata in H.
  injection H as H. vm_compute in H. discriminate H.
Qed.

(** C6 (amended): courseName, level, objective, targetAudience and modules
    (module numbers included) of the CourseSpec returned by
    parseIndexContent are functions of the text alone; metadata.parsedAt is
    the time of the call, so two calls on identical input yield CourseSpec
    values that are identical in every field except metadata.parsedAt. *)
Theorem parse_deterministic_but_clock :
  forall toLowerCase now1 now2 content,
    let s1 := parseIndexContent toLowerCase now1 content in
    let s2 := parseIndexContent toLowerCase now2 content in
    courseName s1 = courseName s2
    /\ level s1 = level s2
    /\ objective s1 = objective s2
    /\ targetAudience s1 = targetAudience s2
    /\ modules s1 = modules s2
    /\ metadata s1 = Some {| sourceFileId := None; parsedAt := Some now1 |}
    /\ metadata s2 = Some {| sourceFileId := None; parsedAt := Some now2 |}.
Proof. intros. repeat split; reflexivity. Qed.

(** *** Objective extraction *)

(** A pattern anchored by [^] (without the [m] flag) matches at the start
    of the input only. *)
Lemma searchFrom_anchored :
  forall r c sn rs, searchFrom false (Cat Bol r) (c :: sn) rs = None.
Proof.
  intros r c sn rs. revert c sn.
  induction rs as [|x rs IH]; intros c sn; cbn; [reflexivity|apply IH].
Qed.

Lemma markerClass_units :
  js "🧱📌MÓDULO"
  = [0xD83E; 0xDDF1; 0xD83D; 0xDCCC; 0x4D; 0xD3; 0x44; 0x55; 0x4C; 0x4F].
Proof. vm_compute. reflexivity. Qed.

Lemma re_moduleMarker_shape :
  re_moduleMarker = Cat Bol (Class (oneOf (js "🧱📌MÓDULO"))).
Proof. reflexivity. Qed.

Lemma test_moduleMarker :
  forall l, test false re_moduleMarker l = startsInMarkerClass l.
Proof.
  intros l. rewrite re_moduleMarker_shape.
  unfold test, exec, startsInMarkerClass.
  destruct l as [|c t].
  - reflexivity.
  - cbn [searchFrom]. unfold matchAt. cbn [run seen rest caps].
    destruct (oneOf (js "🧱📌MÓDULO") c); [reflexivity|].
    rewrite searchFrom_anchored. reflexivity.
Qed.

Lemma moduleMarkerLine_in_class :
  forall l, isModuleMarkerLine l = true -> startsInMarkerClass l = true.
Proof.
  intros l H. unfold isModuleMarkerLine in H.
  assert (E1 : js "MÓDULO" = [0x4D; 0xD3; 0x44; 0x55; 0x4C; 0x4F])
    by (vm_compute; reflexivity).
  assert (E2 : js "🧱" = [0xD83E; 0xDDF1]) by (vm_compute; reflexivity).
  assert (E3 : js "📌" = [0xD83D; 0xDCCC]) by (vm_compute; reflexivity).
  rewrite E1, E2, E3 in H.
  destruct l as [|c t]; [discriminate H|].
  unfold startsInMarkerClass. rewrite markerClass_units.
  cbn [startsWith] in H. cbn [oneOf existsb].
  apply orb_true_iff in H. destruct H as [H|H];
    [apply orb_true_iff in H; destruct H as [H|H]|];
    apply andb_true_iff in H; destruct H as [H _];
    apply N.eqb_eq in H; subst c; reflexivity.
Qed.

Lemma collectObjective_body :
  forall body rest,
    Forall (fun l => startsInMarkerClass l = false) body ->
    (rest = []
     \/ exists stop more,
          rest = stop :: more /\ isModuleMarkerLine stop = true) ->
    collectObjective (body ++ rest) = filter isCollected body.
Proof.
  induction body as [|l body IH]; intros rest Hb Hr.
  - cbn [app filter]. destruct Hr as [->|(stop & more & -> & Hs)];
      [reflexivity|].
    cbn [collectObjective]. rewrite test_moduleMarker.
    rewrite (moduleMarkerLine_in_class _ Hs). reflexivity.
  - inversion Hb as [|? ? Hl Hb']; subst.
    cbn [app collectObjective filter]. rewrite test_moduleMarker, Hl.
    rewrite (IH rest Hb' Hr). unfold isCollected.
    destruct (negb (JS.eqb l []) && negb (test false re_separator l));
      reflexivity.
Qed.

Lemma extractObjective_skip :
  forall pre more,
    Forall (fun l => hasObjectiveMarker l = false) pre ->
    extractObjective (pre ++ more) = extractObjective more.
Proof.
  induction pre as [|l pre IH]; intros more H; [reflexivity|].
  inversion H as [|? ? Hl H']; subst.
  cbn [app extractObjective]. rewrite Hl. apply IH, H'.
Qed.

(** C7, as the specification states it, fails: with a separator line among
    the lines that follow the marker line, the objective is not made of
    exactly the subsequent lines up to the module marker. *)
Lemma objective_skips_separators :
  extractObjective separatorScenario <> claimedObjective separatorScenario.
Proof.
  assert (E1 : extractObjective separatorScenario = js "Aprender a invertir")
    by (vm_compute; reflexivity).
  assert (E2 : claimedObjective separatorScenario
               = js "Aprender ___ a invertir")
    by (vm_compute; reflexivity).
  rewrite E1, E2. vm_compute. discriminate.
Qed.

(** C7 (amended): if no line contains an objective marker (Objetivo,
    objetivo or the target glyph), the objective is the fixed placeholder
    sentence.  If the first line that contains a marker is only the marker
    itself (the word Objetivo, or the title 'Objetivo del curso', after
    optional glyphs and before optional colons), the objective is made of
    the subsequent lines up to the first
    module-marker line (or the end of the text), without the empty lines and
    the separator lines (made of underscores and box-drawing dashes only),
    joined with single spaces, trimmed, and with every run of white space
    replaced by one space; this holds when none of those subsequent lines
    starts with a code unit of the marker class of the stop pattern. *)
Theorem extractObjective_marker_only :
  forall lines,
    (Forall (fun l => hasObjectiveMarker l = false) lines ->
     extractObjective lines = objectivePlaceholder)
    /\ (forall pre hdr body rest,
          lines = pre ++ hdr :: body ++ rest ->
          Forall (fun l => hasObjectiveMarker l = false) pre ->
          hasObjectiveMarker hdr = true ->
          isMarkerOnly hdr = true ->
          Forall (fun l => startsInMarkerClass l = false) body ->
          (rest = []
           \/ exists stop more,
                rest = stop :: more /\ isModuleMarkerLine stop = true) ->
          extractObjective lines = joinObjective (filter isCollected body)).
Proof.
  intros lines. split.
  - intros H. rewrite <- (app_nil_r lines).
    rewrite (extractObjective_skip lines [] H). reflexivity.
  - intros pre hdr body rest -> Hpre Hmark Honly Hbody Hrest.
    rewrite (extractObjective_skip _ _ Hpre).
    cbn [extractObjective]. rewrite Hmark.
    unfold isMarkerOnly in Honly. apply andb_true_iff in Honly.
    destruct Honly as [Hhdr _]. rewrite Hhdr.
    rewrite (collectObjective_body body rest Hbody Hrest). reflexivity.
Qed.

(** The amended statement on an outline with a title, a marker-only line,
    two objective lines around a separator, and a module header. *)
Lemma extractObjective_marker_only_witness :
  extractObjective
    ([js "Curso de bolsa"]
       ++ js "🎯 Objetivo del curso"
       :: [js "Aprender"; js "___"; js "a invertir"]
       ++ [js "MÓDULO 1: Bolsa"; js "B1.1 Acciones"])
  = joinObjective
      (filter isCollected [js "Aprender"; js "___"; js "a invertir"]).
Proof.
  apply (proj2 (extractObjective_marker_only _) [js "Curso de bolsa"]
           (js "🎯 Objetivo del curso")
           [js "Aprender"; js "___"; js "a invertir"]
           [js "MÓDULO 1: Bolsa"; js "B1.1 Acciones"]).
  - reflexivity.
  - vm_compute. repeat constructor.
  - vm_compute. reflexivity.
  - vm_compute. reflexivity.
  - vm_compute. repeat constructor.
  - right. eexists _, _. split; [reflexivity|]. vm_compute. reflexivity.
Defined.

End ParserFacts.

(* ================================================================== *)
(** ** Structure materializer: properties *)
(* ================================================================== *)

Module DriveFacts.

Import Drive.

(** *** Plain literals *)

Lemma plainLiteral_app :
  forall a b, plainLiteral (a ++ b) = plainLiteral a && plainLiteral b.
Proof. intros a b. apply forallb_app. Qed.

Lemma js_ascii :
  forall a s,
    (N_of_ascii a <? 0x80) = true ->
    js (String a s) = N_of_ascii a :: js s.
Proof.
  intros a s H. unfold js. cbn [bytes_of utf8_decode]. rewrite H.
  cbn [flat_map]. unfold utf16_encode at 1.
  assert (L : (N_of_ascii a <? 0x10000) = true).
  { apply N.ltb_lt. apply N.ltb_lt in H. lia. }
  rewrite L. reflexivity.
Qed.

Lemma plainLiteral_digits :
  forall u, plainLiteral (js (NilEmpty.string_of_uint u)) = true.
Proof.
  induction u; cbn [NilEmpty.string_of_uint];
    [reflexivity | rewrite js_ascii by reflexivity; cbn [plainLiteral forallb];
                   fold (plainLiteral (js (NilEmpty.string_of_uint u)));
                   rewrite IHu; reflexivity ..].
Qed.

Lemma plainLiteral_ofNumber : forall n, plainLiteral (ofNumber n) = true.
Proof.
  intros n. unfold ofNumber, NilZero.string_of_uint.
  destruct (N.to_uint n); first [reflexivity | apply plainLiteral_digits].
Qed.

(** *** Stores that keep their answers *)

Lemma stable_refl : forall d, stable d d.
Proof. intros d name parentId mt f H. exact H. Qed.

Lemma stable_trans :
  forall d1 d2 d3, stable d1 d2 -> stable d2 d3 -> stable d1 d3.
Proof. intros d1 d2 d3 H12 H23 name parentId mt f H. apply H23, H12, H. Qed.

Lemma stable_snoc : forall d f, stable d (d ++ [f]).
Proof.
  intros d f name parentId mt g H. unfold children in *.
  rewrite filter_app.
  destruct (filter _ d) as [|x xs]; [discriminate H|exact H].
Qed.

Lemma children_head_in :
  forall name parentId mt d f,
    hd_error (children name parentId mt d) = Some f -> In f d.
Proof.
  intros name parentId mt d f H. unfold children in H.
  destruct (filter _ d) as [|x xs] eqn:E; [discriminate H|].
  injection H as ->.
  assert (Hin : In f (f :: xs)) by (left; reflexivity).
  rewrite <- E in Hin. apply filter_In in Hin. apply Hin.
Qed.

Lemma replayable_ret :
  forall A (Q : A -> Prop) (a : A), Q a -> replayable Q (ret a).
Proof.
  intros A Q a Ha d a' d' Hd H. injection H as <- <-.
  split; [exact Hd|]. split; [exact Ha|].
  split; [apply stable_refl|reflexivity].
Qed.

Lemma replayable_bind :
  forall A B (Q : A -> Prop) (R : B -> Prop) (c : M A) (k : A -> M B),
    replayable Q c ->
    (forall a, Q a -> replayable R (k a)) ->
    replayable R (bind c k).
Proof.
  intros A B Q R c k Hc Hk d b d2 Hd H. unfold bind in H.
  destruct (c d) as [a d1] eqn:Ec.
  destruct (Hc d a d1 Hd Ec) as (P1 & Qa & S1 & R1).
  destruct (Hk a Qa d1 b d2 P1 H) as (P2 & Rb & S2 & R2).
  split; [exact P2|]. split; [exact Rb|].
  split; [eapply stable_trans; eassumption|].
  intros dF HF. unfold bind.
  rewrite (R1 dF (stable_trans _ _ _ S2 HF)). apply R2, HF.
Qed.

Lemma replayable_forEach :
  forall A B (Q : B -> Prop) (f : A -> M B) xs,
    (forall x, In x xs -> replayable Q (f x)) ->
    replayable (fun _ => True) (forEach f xs).
Proof.
  intros A B Q f xs Hf. induction xs as [|x xs IH]; cbn [forEach].
  - apply replayable_ret. exact I.
  - eapply replayable_bind; [apply Hf; left; reflexivity|]. intros y _.
    eapply replayable_bind;
      [apply IH; intros z Hz; apply Hf; right; exact Hz|].
    intros ys _. apply replayable_ret. exact I.
Qed.

Lemma replayable_ext :
  forall A (Q : A -> Prop) (c c' : M A),
    (forall d, c d = c' d) -> replayable Q c -> replayable Q c'.
Proof.
  intros A Q c c' E Hc d a d' Hd H. rewrite <- E in H.
  destruct (Hc d a d' Hd H) as (P1 & Qa & S1 & R1).
  split; [exact P1|]. split; [exact Qa|]. split; [exact S1|].
  intros dF HF. rewrite <- E. apply R1, HF.
Qed.

Section StoreFacts.

Variable filesList : jsstring -> drive -> list DriveFile.
Variable freshId : drive -> jsstring.

Hypothesis filesList_exact : exactOnLiterals filesList.
Hypothesis freshId_plain : forall d, plainLiteral (freshId d) = true.

Lemma replayable_findOrCreate :
  forall name mt parentId,
    plainLiteral name = true ->
    plainLiteral parentId = true ->
    replayable plainFile
      (fun d => match hd_error (filesList (queryFor mt name parentId) d) with
                | Some f => (f, d)
                | None => filesCreate freshId name mt parentId d
                end).
Proof.
  intros name mt parentId Hname Hparent d a d' Hd H.
  rewrite (filesList_exact mt name parentId d Hname Hparent) in H.
  destruct (hd_error (children name parentId mt d)) as [f|] eqn:E.
  - injection H as <- <-. split; [exact Hd|]. split.
    + unfold plainIds in Hd. rewrite Forall_forall in Hd.
      apply Hd. eapply children_head_in, E.
    + split; [apply stable_refl|].
      intros dF HF.
      rewrite (filesList_exact mt name parentId dF Hname Hparent).
      rewrite (HF _ _ _ _ E). reflexivity.
  - unfold filesCreate in H. injection H as <- <-.
    split.
    { apply Forall_app. split; [exact Hd|].
      constructor; [apply freshId_plain|constructor]. }
    split; [apply freshId_plain|].
    split; [apply stable_snoc|].
    intros dF HF.
    rewrite (filesList_exact mt name parentId dF Hname Hparent).
    rewrite (HF name parentId mt
               {| f_id := freshId d; f_name := name; f_mimeType := mt;
                  f_parents := [parentId]; f_trashed := false |});
      [reflexivity|].
    unfold children in *. rewrite filter_app.
    destruct (filter _ d) as [|x xs]; [|discriminate E].
    cbn [app filter f_name f_parents f_mimeType f_trashed existsb].
    assert (Hn : forall s, JS.eqb s s = true).
    { intros s. unfold JS.eqb. destruct (list_eq_dec N.eq_dec s s);
        [reflexivity|contradiction]. }
    rewrite !Hn. destruct mt; reflexivity.
Qed.

Lemma replayable_findOrCreateFolder :
  forall name parentId,
    plainLiteral name = true ->
    plainLiteral parentId = true ->
    replayable plainFile (findOrCreateFolder filesList freshId name parentId).
Proof.
  intros name parentId Hname Hparent. eapply replayable_ext;
    [|apply (replayable_findOrCreate name folder parentId Hname Hparent)].
  intros d. unfold findOrCreateFolder, bind, findFolder, createFolder, ret.
  cbn [queryFor]. destruct (hd_error _); reflexivity.
Qed.

Lemma replayable_findOrCreateDoc :
  forall name parentId,
    plainLiteral name = true ->
    plainLiteral parentId = true ->
    replayable plainFile (findOrCreateDoc filesList freshId name parentId).
Proof.
  intros name parentId Hname Hparent. eapply replayable_ext;
    [|apply (replayable_findOrCreate name document parentId Hname Hparent)].
  intros d. unfold findOrCreateDoc, bind, findDoc, createDoc, ret.
  cbn [queryFor]. destruct (hd_error _); reflexivity.
Qed.

Lemma replayable_createCourseStructure :
  forall courseSpec rootFolderId,
    plainSpec courseSpec = true ->
    plainLiteral rootFolderId = true ->
    replayable (fun _ => True)
      (createCourseStructure filesList freshId courseSpec rootFolderId).
Proof.
  intros courseSpec rootFolderId Hspec Hroot. unfold createCourseStructure.
  unfold plainSpec in Hspec. apply andb_true_iff in Hspec.
  destruct Hspec as [Hcourse Hmods]. rewrite forallb_forall in Hmods.
  eapply replayable_bind;
    [apply replayable_findOrCreateFolder; assumption|].
  intros courseFolder HcourseFolder.
  eapply replayable_bind; [|intros; apply replayable_ret; exact I].
  apply (replayable_forEach _ _ (fun _ => True)). intros module Hmodule.
  specialize (Hmods module Hmodule). apply andb_true_iff in Hmods.
  destruct Hmods as [Hmname Htops]. rewrite forallb_forall in Htops.
  unfold createModuleStructure.
  eapply replayable_bind.
  { apply replayable_findOrCreateFolder; [|exact HcourseFolder].
    rewrite !plainLiteral_app, plainLiteral_ofNumber, Hmname. reflexivity. }
  intros moduleFolder HmoduleFolder.
  eapply replayable_bind; [|intros; apply replayable_ret; exact I].
  apply (replayable_forEach _ _ (fun _ => True)). intros topic Htopic.
  specialize (Htops topic Htopic). apply andb_true_iff in Htops.
  destruct Htops as [Htnum Htname].
  unfold createTopicStructure.
  eapply replayable_bind.
  { apply replayable_findOrCreateFolder; [|exact HmoduleFolder].
    rewrite !plainLiteral_app, Htnum, Htname. reflexivity. }
  intros topicFolder HtopicFolder.
  repeat (eapply replayable_bind;
          [apply replayable_findOrCreateDoc; [reflexivity|exact HtopicFolder]|];
          intros ? _).
  apply replayable_ret. exact I.
Qed.

End StoreFacts.

(** *** The listing service that reads the query text *)

Import Doubles.

Lemma startsWith_prefix : forall p s, startsWith p (p ++ s) = true.
Proof.
  induction p as [|c p IH]; intros s; cbn; [reflexivity|].
  rewrite N.eqb_refl, IH. reflexivity.
Qed.

Lemma afterPrefix_app : forall p s, afterPrefix p (p ++ s) = Some s.
Proof.
  intros p s. unfold afterPrefix. rewrite startsWith_prefix.
  rewrite skipn_app, skipn_all, Nat.sub_diag. reflexivity.
Qed.

Lemma afterPrefix_quote :
  forall p s,
    match p with c :: _ => (c =? 0x27) = false | [] => False end ->
    afterPrefix p (0x27 :: s) = None.
Proof.
  intros [|c p] s H; [destruct H|].
  unfold afterPrefix. cbn [startsWith]. rewrite H. reflexivity.
Qed.

Lemma readLiteral_plain :
  forall l r,
    plainLiteral l = true -> readLiteral (l ++ 0x27 :: r) = Some (l, r).
Proof.
  induction l as [|c l IH]; intros r H; cbn [app readLiteral].
  - reflexivity.
  - cbn [plainLiteral forallb] in H. apply andb_true_iff in H.
    destruct H as [Hc Hl]. apply andb_true_iff in Hc. destruct Hc as [H1 H2].
    apply negb_true_iff in H1, H2. rewrite H1, H2.
    rewrite (IH r Hl). reflexivity.
Qed.

Lemma readTerm_name :
  forall l r,
    plainLiteral l = true ->
    readTerm (js "name = '" ++ l ++ 0x27 :: r) = Some (NameIs l, r).
Proof.
  intros l r H. unfold readTerm.
  rewrite afterPrefix_app, (readLiteral_plain l r H). reflexivity.
Qed.

Lemma readTerm_parents :
  forall l r,
    plainLiteral l = true ->
    readTerm (0x27 :: l ++ 0x27 :: (js " in parents" ++ r))
    = Some (InParents l, r).
Proof.
  intros l r H. unfold readTerm.
  rewrite !afterPrefix_quote by (vm_compute; reflexivity).
  change (0x27 :: l ++ 0x27 :: (js " in parents" ++ r))
    with (js "'" ++ l ++ 0x27 :: (js " in parents" ++ r)).
  rewrite afterPrefix_app, (readLiteral_plain l _ H), afterPrefix_app.
  reflexivity.
Qed.

(** The text of both queries, cut where the reader cuts it. *)
Lemma queryFor_shape :
  forall mt name parentId,
    queryFor mt name parentId
    = js "name = '" ++ name
        ++ 0x27 :: (js " and "
             ++ 0x27 :: parentId
             ++ 0x27 :: (js " in parents"
                  ++ (js " and "
                        ++ (js "mimeType = '" ++ mimeText mt
                              ++ 0x27 :: js " and trashed = false")))).
Proof.
  intros mt name parentId.
  assert (E1 : js "' and '" = 0x27 :: (js " and " ++ [0x27]))
    by (vm_compute; reflexivity).
  assert (E2 : js "' in parents and mimeType = 'application/vnd.google-apps.folder' and trashed = false"
               = 0x27 :: (js " in parents"
                    ++ (js " and "
                          ++ (js "mimeType = '" ++ mimeText folder
                                ++ 0x27 :: js " and trashed = false"))))
    by (vm_compute; reflexivity).
  assert (E3 : js "' in parents and mimeType = 'application/vnd.google-apps.document' and trashed = false"
               = 0x27 :: (js " in parents"
                    ++ (js " and "
                          ++ (js "mimeType = '" ++ mimeText document
                                ++ 0x27 :: js " and trashed = false"))))
    by (vm_compute; reflexivity).
  destruct mt; unfold queryFor, folderQuery, docQuery;
    rewrite E1, ?E2, ?E3; apply f_equal; apply f_equal;
    cbn [app]; apply f_equal; rewrite <- List.app_assoc; apply f_equal;
    reflexivity.
Qed.

Lemma readQuery_queryFor :
  forall mt name parentId,
    plainLiteral name = true ->
    plainLiteral parentId = true ->
    readQuery (S (List.length (queryFor mt name parentId)))
      (queryFor mt name parentId)
    = Some [NameIs name; InParents parentId; MimeTypeIs (mimeText mt);
            TrashedIs false].
Proof.
  intros mt name parentId Hname Hparent.
  assert (L : exists k,
            List.length (queryFor mt name parentId) = S (S (S k))).
  { rewrite queryFor_shape, length_app.
    assert (E : List.length (js "name = '") = 8%nat)
      by (vm_compute; reflexivity).
    rewrite E. eexists. cbn [Nat.add]. reflexivity. }
  destruct L as [k ->]. rewrite queryFor_shape.
  cbn [readQuery].
  rewrite (readTerm_name name _ Hname), afterPrefix_app.
  rewrite (readTerm_parents parentId _ Hparent), afterPrefix_app.
  destruct mt; vm_compute; reflexivity.
Qed.

Lemma mimeText_eqb :
  forall a b, JS.eqb (mimeText a) (mimeText b) = mime_eqb a b.
Proof. intros [|] [|]; vm_compute; reflexivity. Qed.

(** Read by the query syntax, the query texts of the program with plain
    literals are the lookup by exact name under the parent. *)
Lemma driveList_exact : exactOnLiterals driveList.
Proof.
  intros mt name parentId d Hname Hparent. unfold driveList.
  rewrite (readQuery_queryFor mt name parentId Hname Hparent).
  unfold children. apply filter_ext. intros f.
  cbn [forallb satisfies]. rewrite mimeText_eqb, andb_true_r.
  rewrite <- !andb_assoc. do 3 f_equal.
Qed.

Lemma freshByCount_plain : forall d, plainLiteral (freshByCount d) = true.
Proof.
  intros d. unfold freshByCount.
  rewrite plainLiteral_app, plainLiteral_ofNumber. reflexivity.
Qed.




Example materialize_scenario :
  let '(s1, d1) :=
    createCourseStructure driveList freshByCount letteredSpec (js "root") [] in
  List.length (filter (fun f => mime_eqb (f_mimeType f) folder) d1) = 6%nat
  /\ List.length (filter (fun f => mime_eqb (f_mimeType f) document) d1)
     = 9%nat
  /\ createCourseStructure driveList freshByCount letteredSpec (js "root") d1
     = (s1, d1).
Proof.
  vm_compute. split; [reflexivity|]. split; reflexivity.
Qed.

End DriveFacts.


(* ================================================================== *)
(** ** Content generator: properties *)
(* ================================================================== *)

Module GeneratorFacts.

Import Parser Generator Doubles.

(** *** The closing sentence *)

Lemma startsWith_app : forall p s, startsWith p (p ++ s) = true.
Proof.
  induction p as [|c p IH]; intros s; cbn; [reflexivity|].
  rewrite N.eqb_refl, IH. reflexivity.
Qed.

Lemma endsWith_app : forall s p, endsWith (s ++ p) p = true.
Proof.
  intros s p. unfold endsWith. rewrite rev_app_distr. apply startsWith_app.
Qed.

(** Before the markdown normalizer runs, the script ends with the closing
    sentence, whatever the draft was. *)
Lemma finalVoiceover_ends :
  forall voiceoverScript,
    endsWith (finalVoiceover voiceoverScript) requiredEnding = true.
Proof.
  intros v. unfold finalVoiceover.
  destruct (endsWith (trim v) requiredEnding) eqn:E1; cbn [negb]; [exact E1|].
  match goal with
  | |- endsWith (if negb (endsWith ?x _) then _ else _) _ = true =>
      destruct (endsWith x requiredEnding) eqn:E2; cbn [negb]; [exact E2|]
  end.
  rewrite !List.app_assoc. apply endsWith_app.
Qed.

Lemma finalVoiceover_headerDraft : finalVoiceover headerDraft = headerDraft.
Proof. vm_compute. reflexivity. Qed.

Lemma header_pass :
  forall toUpperCase,
    replaceAll true re_header (fun f => toUpperCase (grp 1 f) ++ js_nl)
      headerDraft
    = toUpperCase requiredEnding ++ js_nl.
Proof.
  intros toUpperCase.
  transitivity ((toUpperCase requiredEnding ++ js_nl) ++ []);
    [vm_compute; reflexivity | apply List.app_nil_r].
Qed.

Lemma clean_headerDraft :
  forall toUpperCase,
    toUpperCase requiredEnding = js "NOS VEMOS EN LA SIGUIENTE CLASE." ->
    cleanMarkdownToPlainText toUpperCase headerDraft
    = js "NOS VEMOS EN LA SIGUIENTE CLASE.".
Proof.
  intros toUpperCase Hup. unfold cleanMarkdownToPlainText.
  rewrite header_pass, Hup. vm_compute. reflexivity.
Qed.

(** C3 (the code at a failing input): the "ensure" block of
    generateTopicContent leaves a script that ends with the closing
    sentence, for every draft; but the script is then passed through
    cleanMarkdownToPlainText.  When the generation service answers
    '# Nos vemos en la siguiente clase.' (the sentence as a markdown header),
    the header rule upper-cases the line, and the voiceoverScript field that
    generateTopicContent returns, with or without the review pass, is
    'NOS VEMOS EN LA SIGUIENTE CLASE.', which does not end with the
    closing sentence. *)
Theorem voiceover_header_loses_ending :
  forall toUpperCase TopicIndex formatTopicIndexAsText getTopicIndexPrompt
         getTopicDevelopmentPrompt getVoiceoverScriptPrompt
         getContentReviewPrompt SYSTEM_PROMPT CONTENT_REVIEW_SYSTEM_PROMPT
         (generateJSON : jsstring -> jsstring -> N -> result TopicIndex)
         (generateContent : jsstring -> jsstring -> N -> result jsstring)
         index courseSpec topic enableMultiPass customPrompts,
    toUpperCase requiredEnding = js "NOS VEMOS EN LA SIGUIENTE CLASE." ->
    (forall sys prompt maxTokens,
       generateJSON sys prompt maxTokens = Ok index) ->
    (forall sys prompt maxTokens,
       generateContent sys prompt maxTokens = Ok headerDraft) ->
    (forall draft, endsWith (finalVoiceover draft) requiredEnding = true)
    /\ exists content,
         generateTopicContent toUpperCase TopicIndex formatTopicIndexAsText
           getTopicIndexPrompt getTopicDevelopmentPrompt
           getVoiceoverScriptPrompt getContentReviewPrompt SYSTEM_PROMPT
           CONTENT_REVIEW_SYSTEM_PROMPT generateJSON generateContent
           courseSpec topic enableMultiPass customPrompts = Ok content
         /\ voiceoverScript TopicIndex content
            = js "NOS VEMOS EN LA SIGUIENTE CLASE."
         /\ endsWith (trimEnd (voiceoverScript TopicIndex content))
              requiredEnding = false.
Proof.
  intros toUpperCase TopicIndex formatTopicIndexAsText getTopicIndexPrompt
         getTopicDevelopmentPrompt getVoiceoverScriptPrompt
         getContentReviewPrompt SYSTEM_PROMPT CONTENT_REVIEW_SYSTEM_PROMPT
         generateJSON generateContent index courseSpec topic enableMultiPass
         customPrompts Hup Hjson Hgen.
  split; [exact finalVoiceover_ends|].
  unfold generateTopicContent, reviewPass.
  rewrite Hjson.
  destruct enableMultiPass;
    repeat first [rewrite Hgen | progress cbn [rbind]];
    (eexists; split; [reflexivity|]); cbn [voiceoverScript];
    rewrite finalVoiceover_headerDraft, (clean_headerDraft _ Hup);
    (split; [reflexivity|]); vm_compute; reflexivity.
Qed.

(** The statement with Latin-1 upper-casing as [toUpperCase], a unit topic
    index, constant prompts, and a service that always answers with the
    header draft. *)
Lemma voiceover_header_loses_ending_witness :
  exists content,
    generateTopicContent upperLatin1 unit (fun _ => []) (fun _ _ => [])
      (fun _ _ => []) (fun _ => []) (fun _ => []) [] []
      (fun _ _ _ => Ok tt) (fun _ _ _ => Ok headerDraft)
      letteredSpec (mkTopic (js "1.1") (js "Introducción")) true None
    = Ok content
    /\ voiceoverScript unit content = js "NOS VEMOS EN LA SIGUIENTE CLASE."
    /\ endsWith (trimEnd (voiceoverScript unit content)) requiredEnding
       = false.
Proof.
  refine (proj2 (voiceover_header_loses_ending upperLatin1 unit (fun _ => [])
            (fun _ _ => []) (fun _ _ => []) (fun _ => []) (fun _ => []) [] []
            (fun _ _ _ => Ok tt) (fun _ _ _ => Ok headerDraft) tt
            letteredSpec (mkTopic (js "1.1") (js "Introducción")) true None
            _ _ _)).
  - vm_compute. reflexivity.
  - reflexivity.
  - reflexivity.
Defined.

End GeneratorFacts.

(* ================================================================== *)
(** ** Pipeline orchestrator: properties *)
(* ================================================================== *)

Module PipelineFacts.

Import Drive Pipeline.

Section Scheduler.

Variable GeneratedContent : Type.
Variable generateTopicContent : CourseSpec -> Topic -> result GeneratedContent.
Variable writeTopicContent : TopicDocs -> GeneratedContent -> result unit.
Variable courseSpec : CourseSpec.
Variable concurrency : nat.

Notation "'run'" := (taskResult GeneratedContent generateTopicContent
                       writeTopicContent courseSpec).
Notation "'step''" := (step GeneratedContent generateTopicContent
                         writeTopicContent courseSpec concurrency).
Notation "'steps''" := (steps GeneratedContent generateTopicContent
                          writeTopicContent courseSpec concurrency).
Notation "'settle''" := (settle GeneratedContent generateTopicContent
                           writeTopicContent courseSpec).
Notation "'outstanding''" := (outstanding GeneratedContent
                                generateTopicContent writeTopicContent
                                courseSpec).

Lemma settle_results :
  forall rep t, topicResults (settle' rep t) = topicResults rep ++ [run t].
Proof. reflexivity. Qed.

Lemma settle_total :
  forall rep t, totalTopics (settle' rep t) = totalTopics rep.
Proof. reflexivity. Qed.

Lemma settle_counters :
  forall rep t,
    completedTopics (settle' rep t)
    = (completedTopics rep + if isCompleted (run t) then 1 else 0)%nat
    /\ failedTopics (settle' rep t)
       = (failedTopics rep + if isFailed (run t) then 1 else 0)%nat.
Proof.
  intros rep t. unfold settle, taskResult, isCompleted, isFailed.
  cbn [completedTopics failedTopics].
  destruct (tr_status _); split; lia.
Qed.

Lemma settle_consistent :
  forall rep t, consistent rep -> consistent (settle' rep t).
Proof.
  intros rep t [Hc Hf]. unfold consistent.
  destruct (settle_counters rep t) as [-> ->].
  rewrite settle_results, !filter_app, !length_app. cbn [filter].
  destruct (isCompleted (run t)), (isFailed (run t)); cbn [List.length]; lia.
Qed.

Lemma step_outstanding :
  forall s s', step' s s' -> Permutation (outstanding' s) (outstanding' s').
Proof.
  intros s s' H. destruct H as [t q r rep Hlt | q r1 t r2 rep];
    unfold outstanding; cbn [queue running report].
  - rewrite <- List.app_assoc. reflexivity.
  - rewrite settle_results, !map_app. cbn [map].
    rewrite <- !List.app_assoc. apply Permutation_app_head. cbn [app].
    symmetry. apply Permutation_middle.
Qed.

Lemma step_invariants :
  forall s s',
    step' s s' ->
    totalTopics (report s') = totalTopics (report s)
    /\ (consistent (report s) -> consistent (report s'))
    /\ (List.length (running s) <= concurrency ->
        List.length (running s') <= concurrency)%nat.
Proof.
  intros s s' H. destruct H as [t q r rep Hlt | q r1 t r2 rep];
    cbn [queue running report].
  - split; [reflexivity|]. split; [auto|]. intros _.
    rewrite length_app. cbn. lia.
  - split; [apply settle_total|]. split; [apply settle_consistent|].
    rewrite !length_app. cbn. lia.
Qed.

Lemma steps_invariants :
  forall s s',
    steps' s s' ->
    Permutation (outstanding' s) (outstanding' s')
    /\ totalTopics (report s') = totalTopics (report s)
    /\ (consistent (report s) -> consistent (report s'))
    /\ (List.length (running s) <= concurrency ->
        List.length (running s') <= concurrency)%nat.
Proof.
  intros s s' H. induction H as [s | s1 s2 s3 H12 H23 IH].
  - split; [reflexivity|]. split; [reflexivity|]. split; auto.
  - destruct (step_invariants _ _ H12) as (T & C & B).
    destruct IH as (P' & T' & C' & B').
    split; [etransitivity; [apply step_outstanding, H12 | exact P']|].
    split; [congruence|]. split; auto.
Qed.

(** With room for one task at least, the generating phase can finish. *)
Lemma steps_finish :
  (1 <= concurrency)%nat ->
  forall q rep,
    exists s',
      steps' {| queue := q; running := []; report := rep |} s'
      /\ settledAll s'.
Proof.
  intros Hn q. induction q as [|t q IH]; intros rep.
  - eexists. split; [apply steps_refl|]. split; reflexivity.
  - destruct (IH (settle' rep t)) as (s' & Hs & Hd).
    exists s'. split; [|exact Hd].
    eapply steps_step; [apply (step_start _ _ _ _ _ t q [] rep); cbn; lia|].
    eapply steps_step; [apply (step_settle _ _ _ _ _ q [] t [] rep)|].
    exact Hs.
Qed.


End Scheduler.

(** *** What the dispatch loops hand to the limiter *)

Lemma forEach_map :
  forall A B C (f : A -> M B) (g : B -> C) (h : A -> C),
    (forall x d y d', f x d = (y, d') -> g y = h x) ->
    forall xs d ys d', forEach f xs d = (ys, d') -> map g ys = map h xs.
Proof.
  intros A B C f g h Hf. induction xs as [|x xs IH]; intros d ys d' H.
  - cbn in H. injection H as <- _. reflexivity.
  - cbn [forEach] in H. unfold bind, ret in H.
    destruct (f x d) as [y d1] eqn:Ey.
    destruct (forEach f xs d1) as [ys1 d2] eqn:Eys.
    injection H as <- _. cbn [map]. f_equal; [eapply Hf, Ey|eapply IH, Eys].
Qed.

Lemma forEach_Forall2 :
  forall A B (f : A -> M B) (R : A -> B -> Prop),
    (forall x d y d', f x d = (y, d') -> R x y) ->
    forall xs d ys d', forEach f xs d = (ys, d') -> Forall2 R xs ys.
Proof.
  intros A B f R Hf. induction xs as [|x xs IH]; intros d ys d' H.
  - cbn in H. injection H as <- _. constructor.
  - cbn [forEach] in H. unfold bind, ret in H.
    destruct (f x d) as [y d1] eqn:Ey.
    destruct (forEach f xs d1) as [ys1 d2] eqn:Eys.
    injection H as <- _. constructor; [eapply Hf, Ey|eapply IH, Eys].
Qed.

Lemma createTopicStructure_number :
  forall filesList freshId moduleFolderId topic d ts d',
    createTopicStructure filesList freshId moduleFolderId topic d = (ts, d') ->
    ts_topicNumber ts = topicNumber topic.
Proof.
  intros filesList freshId moduleFolderId topic d ts d' H.
  unfold createTopicStructure, bind, ret in H.
  repeat match type of H with
         | (let '(_, _) := ?c in _) = _ => destruct c
         end.
  injection H as <- _. reflexivity.
Qed.

Lemma createModuleStructure_mirrors :
  forall filesList freshId courseFolderId module d ms d',
    createModuleStructure filesList freshId courseFolderId module d
    = (ms, d') ->
    mirrorsModule module ms.
Proof.
  intros filesList freshId courseFolderId module d ms d' H.
  unfold createModuleStructure, bind, ret in H.
  destruct (findOrCreateFolder _ _ _ _ d) as [moduleFolder d1].
  destruct (forEach _ (topics module) d1) as [tops d2] eqn:Et.
  injection H as <- _. split; [reflexivity|]. cbn [ms_topics].
  eapply forEach_map; [|exact Et].
  intros x dx y dy. apply createTopicStructure_number.
Qed.

Lemma createCourseStructure_mirrors :
  forall filesList freshId courseSpec rootFolderId d structure d',
    createCourseStructure filesList freshId courseSpec rootFolderId d
    = (structure, d') ->
    Forall2 mirrorsModule (modules courseSpec) (fs_modules structure).
Proof.
  intros filesList freshId courseSpec rootFolderId d structure d' H.
  unfold createCourseStructure, bind, ret in H.
  destruct (findOrCreateFolder _ _ _ _ d) as [courseFolder d1].
  destruct (forEach _ (modules courseSpec) d1) as [mods d2] eqn:Em.
  injection H as <- _. cbn [fs_modules].
  eapply forEach_Forall2; [|exact Em].
  intros x dx y dy. apply createModuleStructure_mirrors.
Qed.

Lemma jseqb_refl : forall s, JS.eqb s s = true.
Proof.
  intros s. unfold JS.eqb.
  destruct (list_eq_dec N.eq_dec s s); [reflexivity|contradiction].
Qed.

Lemma find_topicStructure :
  forall num tss,
    In num (map ts_topicNumber tss) ->
    exists ts, find (fun t => JS.eqb (ts_topicNumber t) num) tss = Some ts.
Proof.
  intros num tss. induction tss as [|x tss IH]; intros H; [destruct H|].
  cbn [find]. destruct (JS.eqb (ts_topicNumber x) num) eqn:E;
    [eexists; reflexivity|].
  destruct H as [H|H]; [|apply IH, H].
  cbn in H. rewrite H, jseqb_refl in E. discriminate E.
Qed.

Lemma dispatchTopics_all :
  forall n ms tops,
    incl (map topicNumber tops) (map ts_topicNumber (ms_topics ms)) ->
    map t_topic (fst (dispatchTopics n ms tops)) = tops
    /\ snd (dispatchTopics n ms tops) = [].
Proof.
  intros n ms. induction tops as [|t tops IH]; intros H; [split; reflexivity|].
  cbn [dispatchTopics].
  destruct (dispatchTopics n ms tops) as [tasks errs].
  destruct IH as [IH1 IH2].
  { intros x Hx. apply H. right. exact Hx. }
  cbn [fst snd] in IH1, IH2.
  destruct (find_topicStructure (topicNumber t) (ms_topics ms)) as [ts ->].
  { apply H. left. reflexivity. }
  cbn [fst snd map t_topic]. split; [f_equal; exact IH1|exact IH2].
Qed.

Lemma find_moduleStructure :
  forall mods structs m,
    NoDup (map moduleNumber mods) ->
    Forall2 mirrorsModule mods structs ->
    In m mods ->
    exists ms,
      find (fun x => ms_moduleNumber x =? moduleNumber m) structs = Some ms
      /\ mirrorsModule m ms.
Proof.
  intros mods structs m Hnd HF. revert m Hnd.
  induction HF as [|m0 s0 mods structs Hm0 HF IH]; intros m Hnd Hin;
    [destruct Hin|].
  cbn [map] in Hnd. inversion Hnd as [|? ? Hnotin Hnd']; subst.
  cbn [find]. destruct Hin as [<-|Hin].
  - destruct Hm0 as [Hn Ht]. rewrite Hn, N.eqb_refl.
    eexists. split; [reflexivity|]. split; assumption.
  - destruct (ms_moduleNumber s0 =? moduleNumber m) eqn:E.
    + exfalso. apply Hnotin. apply N.eqb_eq in E.
      destruct Hm0 as [Hn _]. rewrite <- Hn, E. apply in_map, Hin.
    + apply IH; assumption.
Qed.

Lemma dispatchModules_all :
  forall structure mods,
    (forall m, In m mods ->
       exists ms,
         find (fun x => ms_moduleNumber x =? moduleNumber m)
              (fs_modules structure) = Some ms
         /\ mirrorsModule m ms) ->
    map t_topic (fst (dispatchModules structure mods))
    = List.concat (map topics mods)
    /\ snd (dispatchModules structure mods) = [].
Proof.
  intros structure. induction mods as [|m mods IH]; intros H;
    [split; reflexivity|].
  cbn [dispatchModules].
  destruct (dispatchModules structure mods) as [tasks errs].
  destruct IH as [IH1 IH2].
  { intros x Hx. apply H. right. exact Hx. }
  cbn [fst snd] in IH1, IH2.
  destruct (H m (or_introl eq_refl)) as (ms & -> & Hn & Ht).
  destruct (dispatchTopics_all (moduleNumber m) ms (topics m)) as [D1 D2].
  { rewrite Ht. apply incl_refl. }
  destruct (dispatchTopics (moduleNumber m) ms (topics m)) as [tasks1 errs1].
  cbn [fst snd] in D1, D2 |- *. cbn [map List.concat].
  rewrite map_app, D1, IH1, D2, IH2. split; reflexivity.
Qed.

Lemma countTopics_concat :
  forall courseSpec,
    countTopics courseSpec
    = List.length (List.concat (map topics (modules courseSpec))).
Proof.
  intros courseSpec. unfold countTopics.
  assert (G : forall ms n,
             fold_left (fun n m => (n + List.length (topics m))%nat) ms n
             = (n + List.length (List.concat (map topics ms)))%nat).
  { induction ms as [|m ms IH]; intros n; cbn [fold_left map List.concat].
    - cbn. lia.
    - rewrite IH, length_app. lia. }
  rewrite G. reflexivity.
Qed.

(** *** runPipeline *)

Lemma pLimit_positive :
  forall c n, pLimit c = Ok n -> (1 <= n)%nat.
Proof.
  intros [z|] n H; cbn in H; [|discriminate H].
  destruct (1 <=? z)%Z eqn:E; [|discriminate H].
  injection H as <-. apply Z.leb_le in E. lia.
Qed.

(** What a successful dispatch tells. *)
Lemma runPipeline_dispatch_inr :
  forall parseIndexDocument filesList freshId startT endT maxC indexFileId
         rootFolderId provided d courseSpec n s0 d',
    runPipeline_dispatch parseIndexDocument filesList freshId startT endT
      maxC indexFileId rootFolderId provided d
      = (inr (courseSpec, n, s0), d') ->
    obtainCourseSpec parseIndexDocument provided indexFileId = Ok courseSpec
    /\ pLimit maxC = Ok n
    /\ exists structure,
         createCourseStructure filesList freshId courseSpec rootFolderId d
         = (structure, d')
         /\ queue s0 = fst (dispatchModules structure (modules courseSpec))
         /\ running s0 = []
         /\ topicResults (report s0) = []
         /\ completedTopics (report s0) = 0%nat
         /\ failedTopics (report s0) = 0%nat
         /\ totalTopics (report s0) = countTopics courseSpec.
Proof.
  intros parseIndexDocument filesList freshId startT endT maxC indexFileId
         rootFolderId provided d courseSpec n s0 d' H.
  unfold runPipeline_dispatch in H.
  destruct (obtainCourseSpec parseIndexDocument provided indexFileId)
    as [spec|e]; [|discriminate H].
  destruct (createCourseStructure filesList freshId spec rootFolderId d)
    as [structure d1] eqn:Es.
  destruct (pLimit maxC) as [k|e]; [|discriminate H].
  destruct (dispatchModules structure (modules spec)) as [tasks errs] eqn:Ed.
  injection H as <- <- <- <-.
  split; [reflexivity|]. split; [reflexivity|].
  exists structure. split; [exact Es|]. rewrite Ed.
  repeat split; reflexivity.
Qed.

(** C9: the default of config.generation.maxConcurrentTopics (variable
    unset or empty) is 3, a bound the limiter accepts; and in every state
    that the generating phase of a run of runPipeline reaches, the number of
    topic tasks in flight is at most the bound N that the limiter was
    created with from the configured value. *)
Theorem concurrency_bound :
  Config.maxConcurrentTopics None = Some 3%Z
  /\ Config.maxConcurrentTopics (Some []) = Some 3%Z
  /\ pLimit (Some 3%Z) = Ok 3%nat
  /\ forall GeneratedContent generateTopicContent writeTopicContent
            parseIndexDocument filesList freshId startT endT maxC indexFileId
            rootFolderId provided d courseSpec n s0 d' s,
       runPipeline_dispatch parseIndexDocument filesList freshId startT endT
         maxC indexFileId rootFolderId provided d
         = (inr (courseSpec, n, s0), d') ->
       steps GeneratedContent generateTopicContent writeTopicContent
         courseSpec n s0 s ->
       pLimit maxC = Ok n /\ (List.length (running s) <= n)%nat.
Proof.
  split; [vm_compute; reflexivity|]. split; [vm_compute; reflexivity|].
  split; [reflexivity|].
  intros GC gen write parseIndexDocument filesList freshId startT endT maxC
         indexFileId rootFolderId provided d courseSpec n s0 d' s Hd Hs.
  destruct (runPipeline_dispatch_inr _ _ _ _ _ _ _ _ _ _ _ _ _ _ Hd)
    as (_ & Hn & structure & _ & _ & Hr & _).
  split; [exact Hn|].
  destruct (steps_invariants _ _ _ _ _ _ _ Hs) as (_ & _ & _ & B).
  apply B. rewrite Hr. cbn. lia.
Qed.

(** Every result in the report of a run is the result of a task that the
    dispatch loops queued. *)
Lemma reported_results_from_tasks :
  forall GeneratedContent generateTopicContent writeTopicContent
         parseIndexDocument filesList freshId startT endT maxC indexFileId
         rootFolderId provided d courseSpec n s0 d' s r,
    runPipeline_dispatch parseIndexDocument filesList freshId startT endT
      maxC indexFileId rootFolderId provided d
      = (inr (courseSpec, n, s0), d') ->
    steps GeneratedContent generateTopicContent writeTopicContent
      courseSpec n s0 s ->
    In r (topicResults (report s)) ->
    exists t,
      In t (queue s0)
      /\ r = taskResult GeneratedContent generateTopicContent
               writeTopicContent courseSpec t.
Proof.
  intros GC gen write parseIndexDocument filesList freshId startT endT maxC
         indexFileId rootFolderId provided d courseSpec n s0 d' s r Hd Hs Hin.
  destruct (runPipeline_dispatch_inr _ _ _ _ _ _ _ _ _ _ _ _ _ _ Hd)
    as (_ & _ & structure & _ & _ & Hr0 & Hres0 & _).
  destruct (steps_invariants _ _ _ _ _ _ _ Hs) as (P & _).
  assert (Hout : In r (outstanding GC gen write courseSpec s0)).
  { eapply Permutation_in; [apply Permutation_sym, P|].
    unfold outstanding. apply in_or_app. left. exact Hin. }
  unfold outstanding in Hout. rewrite Hres0, Hr0 in Hout.
  cbn [app] in Hout. apply in_map_iff in Hout.
  destruct Hout as (t & Ht & Hin'). exists t. split; [exact Hin'|].
  symmetry. exact Ht.
Qed.

(** C10: the TopicResult that generateAndWriteTopic produces carries the
    folder identifier and the three document identifiers that were resolved
    for the topic, whatever the outcome; a failed result has its error
    message set, and its folderId and docs are those that a successful run
    of the same task carries.  Every TopicResult in the report of a run is
    such a result: it carries the identifiers of the structure entry that
    its task was dispatched with. *)
Theorem topicResult_keeps_identifiers :
  (forall GeneratedContent generateTopicContent writeTopicContent
          GeneratedContent' generateTopicContent' writeTopicContent'
          courseSpec moduleNumber topic topicStructure,
     let r := generateAndWriteTopic GeneratedContent generateTopicContent
                writeTopicContent courseSpec moduleNumber topic
                topicStructure in
     let r' := generateAndWriteTopic GeneratedContent' generateTopicContent'
                 writeTopicContent' courseSpec moduleNumber topic
                 topicStructure in
     tr_folderId r = Some (ts_folderId topicStructure)
     /\ tr_docs r = Some (ts_docs topicStructure)
     /\ (tr_status r = rs_failed -> exists msg, tr_error r = Some msg)
     /\ (tr_status r = rs_completed -> tr_error r = None)
     /\ tr_folderId r = tr_folderId r'
     /\ tr_docs r = tr_docs r')
  /\ (forall GeneratedContent generateTopicContent writeTopicContent
             parseIndexDocument filesList freshId startT endT maxC indexFileId
             rootFolderId provided d courseSpec n s0 d' s r,
        runPipeline_dispatch parseIndexDocument filesList freshId startT endT
          maxC indexFileId rootFolderId provided d
          = (inr (courseSpec, n, s0), d') ->
        steps GeneratedContent generateTopicContent writeTopicContent
          courseSpec n s0 s ->
        In r (topicResults (report s)) ->
        exists t,
          In t (queue s0)
          /\ tr_folderId r = Some (ts_folderId (t_topicStructure t))
          /\ tr_docs r = Some (ts_docs (t_topicStructure t))
          /\ (tr_status r = rs_failed -> exists msg, tr_error r = Some msg)).
Proof.
  assert (Herr : forall GC gen write courseSpec moduleNumber topic ts,
            tr_status (generateAndWriteTopic GC gen write courseSpec
                         moduleNumber topic ts) = rs_failed ->
            exists msg,
              tr_error (generateAndWriteTopic GC gen write courseSpec
                          moduleNumber topic ts) = Some msg).
  { intros GC gen write courseSpec moduleNumber topic ts.
    unfold generateAndWriteTopic. cbn [tr_status tr_error].
    destruct (rbind _ _) as [u|[m|str]]; intros H;
      [discriminate H|eexists; reflexivity|eexists; reflexivity]. }
  split.
  - intros. subst r r'. repeat split.
    + apply Herr.
    + unfold generateAndWriteTopic. cbn [tr_status tr_error].
      destruct (rbind _ _) as [u|[m|str]]; intros H;
        [reflexivity|discriminate H|discriminate H].
  - intros GC gen write parseIndexDocument filesList freshId startT endT maxC
           indexFileId rootFolderId provided d courseSpec n s0 d' s r
           Hd Hs Hin.
    destruct (reported_results_from_tasks GC gen write _ _ _ _ _ _ _ _ _ _ _
                _ _ _ _ _ Hd Hs Hin) as (t & Ht & ->).
    exists t. split; [exact Ht|]. split; [reflexivity|].
    split; [reflexivity|]. apply Herr.
Qed.

Lemma completed_not_failed :
  forall r, isCompleted r = true -> isFailed r = false.
Proof. intros r. unfold isCompleted, isFailed. destruct (tr_status r); auto. Qed.

Lemma filter_none :
  forall A (p : A -> bool) l,
    Forall (fun x => p x = false) l -> filter p l = [].
Proof.
  intros A p l H. induction H as [|x l Hx H IH]; cbn; [reflexivity|].
  rewrite Hx. exact IH.
Qed.

Lemma filter_all :
  forall A (p : A -> bool) l,
    Forall (fun x => p x = true) l -> filter p l = l.
Proof.
  intros A p l H. induction H as [|x l Hx H IH]; cbn; [reflexivity|].
  rewrite Hx, IH. reflexivity.
Qed.

(** What generateAndWriteTopic records, read off what its two calls do:
    when both return, the status is 'completed' and no error is set; when
    the generation call throws, or returns and the write call throws, the
    [catch] block sets the status 'failed' and the error to the message of
    what was thrown. *)
Lemma taskResult_of_calls :
  forall GeneratedContent generateTopicContent writeTopicContent courseSpec t,
    let r := taskResult GeneratedContent generateTopicContent
               writeTopicContent courseSpec t in
    (callsSucceed GeneratedContent generateTopicContent writeTopicContent
       courseSpec t ->
     tr_status r = rs_completed /\ tr_error r = None)
    /\ (forall e,
          callFails GeneratedContent generateTopicContent writeTopicContent
            courseSpec t e ->
          tr_status r = rs_failed /\ tr_error r = Some (errorMessage e)).
Proof.
  intros GC gen write courseSpec t r. subst r.
  unfold taskResult, generateAndWriteTopic, callsSucceed, callFails.
  cbn [tr_status tr_error]. split.
  - intros (content & Hg & Hw). rewrite Hg. cbn [rbind]. rewrite Hw.
    split; reflexivity.
  - intros e [Hg | (content & Hg & Hw)].
    + rewrite Hg. cbn [rbind]. destruct e; split; reflexivity.
    + rewrite Hg. cbn [rbind]. rewrite Hw. destruct e; split; reflexivity.
Qed.

(** C4 (amended): take a run of runPipeline in which the CourseSpec was
    obtained, the structure was materialized and the limiter was created,
    and whose CourseSpec has pairwise distinct module numbers.  Then every
    topic of the CourseSpec gets a task.  If the generation or write call
    of exactly one task fails (the call of generateTopicContent throws, or
    it returns and the call of writeTopicContent throws) and both calls of
    every other task return, the run returns a report (one exists, and this
    holds for every report the run may return, whatever the order in which
    tasks settle) whose results are those of all tasks: the result of the
    failing task has status 'failed' and carries the message of what was
    thrown, every other result has status 'completed' and no error,
    failedTopics is 1, and completedTopics plus failedTopics equals
    totalTopics. *)
Theorem failure_isolation :
  forall GeneratedContent generateTopicContent writeTopicContent
         parseIndexDocument filesList freshId startT endT maxC indexFileId
         rootFolderId provided d courseSpec n s0 d' before bad after e,
    let result := taskResult GeneratedContent generateTopicContent
                    writeTopicContent courseSpec in
    runPipeline_dispatch parseIndexDocument filesList freshId startT endT
      maxC indexFileId rootFolderId provided d
      = (inr (courseSpec, n, s0), d') ->
    NoDup (map moduleNumber (modules courseSpec)) ->
    queue s0 = before ++ bad :: after ->
    callFails GeneratedContent generateTopicContent writeTopicContent
      courseSpec bad e ->
    Forall (callsSucceed GeneratedContent generateTopicContent
              writeTopicContent courseSpec) (before ++ after) ->
    map t_topic (queue s0) = List.concat (map topics (modules courseSpec))
    /\ (exists r,
          runPipeline GeneratedContent generateTopicContent writeTopicContent
            parseIndexDocument filesList freshId startT endT maxC indexFileId
            rootFolderId provided d r)
    /\ forall r,
         runPipeline GeneratedContent generateTopicContent writeTopicContent
           parseIndexDocument filesList freshId startT endT maxC indexFileId
           rootFolderId provided d r ->
         (completedTopics r + failedTopics r = totalTopics r)%nat
         /\ failedTopics r = 1%nat
         /\ exists rs1 rs2,
              topicResults r = rs1 ++ result bad :: rs2
              /\ tr_status (result bad) = rs_failed
              /\ tr_error (result bad) = Some (errorMessage e)
              /\ Forall (fun x => tr_status x = rs_completed
                                  /\ tr_error x = None) (rs1 ++ rs2)
              /\ Permutation (rs1 ++ rs2) (map result (before ++ after)).
Proof.
  intros GC gen write parseIndexDocument filesList freshId startT endT maxC
         indexFileId rootFolderId provided d courseSpec n s0 d' before bad
         after e result Hd Hnd Hq Hfails Hsucceed.
  destruct (proj2 (taskResult_of_calls GC gen write courseSpec bad) e Hfails)
    as [Hstatus Herror].
  fold result in Hstatus, Herror.
  assert (Hdone : Forall (fun t => tr_status (result t) = rs_completed
                                   /\ tr_error (result t) = None)
                    (before ++ after)).
  { eapply Forall_impl; [|exact Hsucceed]. intros t Ht.
    apply (proj1 (taskResult_of_calls GC gen write courseSpec t) Ht). }
  assert (Hbad : isFailed (result bad) = true).
  { unfold isFailed. rewrite Hstatus. reflexivity. }
  assert (Hok : Forall (fun t => isCompleted (result t) = true)
                  (before ++ after)).
  { eapply Forall_impl; [|exact Hdone]. intros t [Ht _].
    unfold isCompleted. rewrite Ht. reflexivity. }
  destruct (runPipeline_dispatch_inr _ _ _ _ _ _ _ _ _ _ _ _ _ _ Hd)
    as (_ & Hn & structure & Hs & Hq0 & Hr0 & Hres0 & Hc0 & Hf0 & Ht0).
  assert (Hall : map t_topic (queue s0)
                 = List.concat (map topics (modules courseSpec))).
  { rewrite Hq0. apply dispatchModules_all. intros m Hm.
    eapply find_moduleStructure; [exact Hnd| |exact Hm].
    eapply createCourseStructure_mirrors, Hs. }
  split; [exact Hall|]. split.
  - destruct s0 as [q0 r0 rep0]. cbn [running] in Hr0. subst r0.
    destruct (steps_finish GC gen write courseSpec n
                (pLimit_positive _ _ Hn) q0 rep0) as (s & Hsteps & Hfin).
    eexists. eapply run_completed; eassumption.
  - intros r Hrun.
    destruct Hrun as [r d1 Habort | spec1 n1 s1 d1 s Hd1 Hsteps [Hsq Hsr]].
    { rewrite Hd in Habort. discriminate Habort. }
    rewrite Hd in Hd1. injection Hd1 as <- <- <- <-.
    destruct (steps_invariants _ _ _ _ _ _ _ Hsteps) as (P & T & C & _).
    unfold outstanding in P.
    rewrite Hres0, Hr0, Hsq, Hsr, Hq in P. cbn [app map] in P.
    rewrite List.app_nil_r in P.
    destruct C as [Cc Cf]. { split; rewrite Hres0; [exact Hc0|exact Hf0]. }
    cbn [finishReport completedTopics failedTopics totalTopics topicResults].
    rewrite T, Ht0, countTopics_concat, <- Hall, length_map, Hq.
    (* the result of the failing task is among the results *)
    fold result in P.
    assert (Hin : In (result bad) (topicResults (report s))).
    { eapply Permutation_in; [exact P|].
      rewrite map_app. apply in_or_app. right. left. reflexivity. }
    destruct (in_split _ _ Hin) as (rs1 & rs2 & Hsplit).
    rewrite Hsplit in P. rewrite map_app in P. cbn [map] in P.
    apply Permutation_sym, Permutation_app_inv in P.
    rewrite <- map_app in P.
    assert (Hcomp : Forall (fun x => isCompleted x = true) (rs1 ++ rs2)).
    { eapply Permutation_Forall; [apply Permutation_sym, P|].
      apply Forall_map. exact Hok. }
    assert (Hrec : Forall (fun x => tr_status x = rs_completed
                                    /\ tr_error x = None) (rs1 ++ rs2)).
    { eapply Permutation_Forall; [apply Permutation_sym, P|].
      apply Forall_map. exact Hdone. }
    assert (Hnf : Forall (fun x => isFailed x = false) (rs1 ++ rs2)).
    { eapply Forall_impl; [|exact Hcomp]. apply completed_not_failed. }
    assert (Hbc : isCompleted (result bad) = false).
    { revert Hbad. unfold isFailed, isCompleted.
      destruct (tr_status (result bad)); [discriminate|reflexivity]. }
    assert (Hlen : List.length (before ++ bad :: after)
                   = S (List.length (rs1 ++ rs2))).
    { rewrite (Permutation_length P), length_map, !length_app. cbn. lia. }
    apply Forall_app in Hcomp as Hcomp'. destruct Hcomp' as [Hc1 Hc2].
    apply Forall_app in Hnf as Hnf'. destruct Hnf' as [Hn1 Hn2].
    rewrite Cc, Cf, Hsplit, !filter_app. cbn [filter].
    rewrite Hbad, Hbc, (filter_none _ _ _ Hn1), (filter_none _ _ _ Hn2),
      (filter_all _ _ _ Hc1), (filter_all _ _ _ Hc2), Hlen.
    rewrite !length_app. cbn [List.length app].
    split; [lia|]. split; [reflexivity|].
    exists rs1, rs2. split; [reflexivity|]. split; [exact Hstatus|].
    split; [exact Herror|]. split; [exact Hrec|exact P].
Qed.

Import Doubles.

(** C4, as the specification states it, fails: when two modules of the
    CourseSpec carry the same number, the topics of the second are looked up
    in the structure of the first, are not found, and get no task.  In this
    run the call for topic 1.1 fails and no other call fails, yet the report
    has no result for topic 2.1 and its counters add up to 1, not to
    totalTopics = 2. *)
Lemma duplicate_numbers_lose_a_topic :
  exists r,
    runPipeline unit (failOn (js "1.1")) writeOk noIndexDocument driveList
      freshByCount 0 1 (Some 3%Z) (js "manual") (js "root") (Some duplicateNumbersSpec) [] r
    /\ map (fun x => (tr_topicNumber x, isFailed x)) (topicResults r)
       = [(js "1.1", true)]
    /\ totalTopics r = 2%nat
    /\ (completedTopics r + failedTopics r)%nat = 1%nat.
Proof.
  eexists. split.
  - eapply run_completed.
    + vm_compute. reflexivity.
    + eapply steps_step; [apply step_start; cbn; lia|].
      eapply steps_step; [apply (step_settle _ _ _ _ _ _ [] _ [])|].
      apply steps_refl.
    + split; reflexivity.
  - vm_compute. repeat split; reflexivity.
Qed.

(** The amended statement on the lettered scenario, with the generator
    failing for topic 1.2 only. *)
Lemma failure_isolation_witness :
  (exists r,
     runPipeline unit (failOn (js "1.2")) writeOk noIndexDocument driveList
       freshByCount 0 1 (Some 3%Z) (js "manual") (js "root")
       (Some letteredSpec) [] r)
  /\ forall r,
       runPipeline unit (failOn (js "1.2")) writeOk noIndexDocument driveList
         freshByCount 0 1 (Some 3%Z) (js "manual") (js "root")
         (Some letteredSpec) [] r ->
       (completedTopics r + failedTopics r = totalTopics r)%nat
       /\ failedTopics r = 1%nat
       /\ exists rs1 rs2,
            topicResults r
            = rs1 ++ taskResult unit (failOn (js "1.2")) writeOk letteredSpec
                       (nth 1 (queue letteredStart) noTask) :: rs2
            /\ Forall (fun x => tr_status x = rs_completed
                                /\ tr_error x = None) (rs1 ++ rs2).
Proof.
  assert (H := failure_isolation unit (failOn (js "1.2")) writeOk
                 noIndexDocument driveList freshByCount 0 1 (Some 3%Z)
                 (js "manual") (js "root") (Some letteredSpec) []
                 letteredSpec 3%nat letteredStart
                 (snd (runPipeline_dispatch noIndexDocument driveList
                         freshByCount 0 1 (Some 3%Z) (js "manual")
                         (js "root") (Some letteredSpec) []))
                 (firstn 1 (queue letteredStart))
                 (nth 1 (queue letteredStart) noTask)
                 (skipn 2 (queue letteredStart))
                 (ErrorObject (js "generation failed"))).
  cbv zeta in H.
  destruct H as (_ & Hex & Hall).
  - vm_compute. reflexivity.
  - assert (E : map moduleNumber (modules letteredSpec) = [1; 2])
      by (vm_compute; reflexivity).
    rewrite E. constructor; [intros [H|[]]; discriminate H|].
    constructor; [intros []|constructor].
  - vm_compute. reflexivity.
  - left. vm_compute. reflexivity.
  - assert (E : firstn 1 (queue letteredStart)
                  ++ skipn 2 (queue letteredStart)
                = [nth 0 (queue letteredStart) noTask;
                   nth 2 (queue letteredStart) noTask])
      by (vm_compute; reflexivity).
    rewrite E.
    constructor; [exists tt; split; vm_compute; reflexivity|].
    constructor; [exists tt; split; vm_compute; reflexivity|].
    constructor.
  - split; [exact Hex|]. intros r Hr.
    destruct (Hall r Hr) as (Hsum & Hone & rs1 & rs2 & Hres & _ & _ & Hrec & _).
    split; [exact Hsum|]. split; [exact Hone|].
    exists rs1, rs2. split; [exact Hres|exact Hrec].
Defined.

Lemma steps_start_all :
  forall GeneratedContent generateTopicContent writeTopicContent courseSpec
         n rep k q r,
    (List.length r + k <= n)%nat -> (k <= List.length q)%nat ->
    steps GeneratedContent generateTopicContent writeTopicContent courseSpec n
      {| queue := q; running := r; report := rep |}
      {| queue := skipn k q; running := r ++ firstn k q; report := rep |}.
Proof.
  intros GC gen write courseSpec n rep.
  induction k as [|k IH]; intros q r Hn Hk.
  - cbn [skipn firstn]. rewrite List.app_nil_r. apply steps_refl.
  - destruct q as [|t q]; [cbn in Hk; lia|].
    eapply steps_step; [apply step_start; lia|].
    cbn [skipn firstn].
    replace (r ++ t :: firstn k q) with ((r ++ [t]) ++ firstn k q)
      by (rewrite <- List.app_assoc; reflexivity).
    apply IH; [rewrite length_app; cbn; lia|cbn in Hk; lia].
Qed.

(** The bound on the lettered scenario, with all three tasks started. *)
Lemma concurrency_bound_witness :
  (List.length (running letteredInFlight) <= 3)%nat.
Proof.
  refine (proj2 (proj2 (proj2 (proj2 concurrency_bound)) unit
            (failOn (js "1.2"))
            writeOk noIndexDocument driveList freshByCount 0 1 (Some 3%Z) (js "manual")
            (js "root") (Some letteredSpec) [] letteredSpec 3%nat
            letteredStart
            (snd (runPipeline_dispatch noIndexDocument driveList freshByCount
                    0 1 (Some 3%Z) (js "manual") (js "root")
                    (Some letteredSpec) []))
            letteredInFlight _ _)).
  - vm_compute. reflexivity.
  - assert (E : letteredStart
                = {| queue := queue letteredStart; running := [];
                     report := report letteredStart |})
      by (vm_compute; reflexivity).
    rewrite E at 1. unfold letteredInFlight.
    apply steps_start_all.
    + cbn. lia.
    + assert (L : List.length (queue letteredStart) = 3%nat)
        by (vm_compute; reflexivity).
      rewrite L. lia.
Defined.

End PipelineFacts.

Module RunFacts.

Import Drive Pipeline PipelineFacts Reporting.

Lemma completed_failed_length :
  forall l,
    (List.length (filter isCompleted l) + List.length (filter isFailed l)
     = List.length l)%nat.
Proof.
  induction l as [|r l IH]; [reflexivity|]. cbn [filter].
  unfold isCompleted at 1, isFailed at 1.
  destruct (tr_status r); cbn [List.length]; lia.
Qed.

Lemma subseq_refl : forall A (l : list A), subseq l l.
Proof. induction l; constructor; assumption. Qed.

Lemma subseq_nil_l : forall A (l : list A), subseq [] l.
Proof. induction l; constructor; assumption. Qed.

Lemma subseq_app :
  forall A (a1 a2 b1 b2 : list A),
    subseq a1 a2 -> subseq b1 b2 -> subseq (a1 ++ b1) (a2 ++ b2).
Proof.
  intros A a1 a2 b1 b2 Ha Hb. induction Ha; cbn [app];
    [exact Hb|constructor; assumption|constructor; assumption].
Qed.

Lemma subseq_length :
  forall A (l1 l2 : list A),
    subseq l1 l2 -> (List.length l1 <= List.length l2)%nat.
Proof. intros A l1 l2 H. induction H; cbn [List.length]; lia. Qed.

Lemma dispatchTopics_keys :
  forall n ms tops,
    subseq (map taskKey (fst (dispatchTopics n ms tops)))
           (map (fun t => (n, t)) tops).
Proof.
  intros n ms. induction tops as [|t tops IH]; [constructor|].
  cbn [dispatchTopics].
  destruct (dispatchTopics n ms tops) as [tasks errs]. cbn [fst] in IH.
  destruct (find _ (ms_topics ms)); cbn [fst map]; constructor; exact IH.
Qed.

Lemma dispatchModules_keys :
  forall structure mods,
    subseq (map taskKey (fst (dispatchModules structure mods)))
           (flat_map (fun m => map (fun t => (moduleNumber m, t)) (topics m))
                     mods).
Proof.
  intros structure. induction mods as [|m mods IH]; [constructor|].
  cbn [dispatchModules flat_map].
  destruct (dispatchModules structure mods) as [tasks errs]. cbn [fst] in IH.
  destruct (find _ (fs_modules structure)) as [ms|].
  - pose proof (dispatchTopics_keys (moduleNumber m) ms (topics m)) as K.
    destruct (dispatchTopics (moduleNumber m) ms (topics m)) as [tasks1 errs1].
    cbn [fst] in K |- *. rewrite map_app. apply subseq_app; assumption.
  - cbn [fst]. rewrite <- (List.app_nil_l (map taskKey tasks)).
    apply subseq_app; [apply subseq_nil_l|exact IH].
Qed.

Lemma dispatchTopics_noerr :
  forall n ms tops,
    snd (dispatchTopics n ms tops) = [] ->
    map taskKey (fst (dispatchTopics n ms tops)) = map (fun t => (n, t)) tops.
Proof.
  intros n ms. induction tops as [|t tops IH]; [reflexivity|].
  cbn [dispatchTopics].
  destruct (dispatchTopics n ms tops) as [tasks errs]. cbn [fst snd] in IH.
  destruct (find _ (ms_topics ms)); cbn [fst snd map]; intros H;
    [|discriminate H].
  rewrite (IH H). reflexivity.
Qed.

Lemma dispatchModules_noerr :
  forall structure mods,
    snd (dispatchModules structure mods) = [] ->
    map taskKey (fst (dispatchModules structure mods))
    = flat_map (fun m => map (fun t => (moduleNumber m, t)) (topics m)) mods.
Proof.
  intros structure. induction mods as [|m mods IH]; [reflexivity|].
  cbn [dispatchModules flat_map].
  destruct (dispatchModules structure mods) as [tasks errs].
  cbn [fst snd] in IH.
  destruct (find _ (fs_modules structure)) as [ms|];
    [|cbn [snd]; intros H; discriminate H].
  pose proof (dispatchTopics_noerr (moduleNumber m) ms (topics m)) as K.
  destruct (dispatchTopics (moduleNumber m) ms (topics m)) as [tasks1 errs1].
  cbn [fst snd] in K |- *. intros H. apply app_eq_nil in H.
  destruct H as [H1 H2].
  rewrite map_app, (K H1), (IH H2). reflexivity.
Qed.

Lemma specTopics_length :
  forall courseSpec,
    List.length (specTopics courseSpec) = countTopics courseSpec.
Proof.
  intros courseSpec. rewrite countTopics_concat. unfold specTopics.
  induction (modules courseSpec) as [|m ms IH]; [reflexivity|].
  cbn [flat_map map List.concat]. rewrite !length_app, length_map, IH.
  reflexivity.
Qed.

Section Errors.

Variable GeneratedContent : Type.
Variable generateTopicContent : CourseSpec -> Topic -> result GeneratedContent.
Variable writeTopicContent : TopicDocs -> GeneratedContent -> result unit.
Variable courseSpec : CourseSpec.
Variable concurrency : nat.

(** The completion handlers only append to the error list. *)
Lemma steps_errors :
  forall s s',
    steps GeneratedContent generateTopicContent writeTopicContent courseSpec
      concurrency s s' ->
    exists more, errors (report s') = errors (report s) ++ more.
Proof.
  intros s s' H. induction H as [s | s1 s2 s3 H12 H23 IH].
  - exists []. rewrite List.app_nil_r. reflexivity.
  - destruct IH as [more IH]. rewrite IH.
    destruct H12 as [t q r rep Hlt | q r1 t r2 rep]; cbn [report].
    + exists more. reflexivity.
    + unfold settle. cbn [errors].
      destruct (tr_status _).
      * exists more. reflexivity.
      * destruct (tr_error _) as [[|c m]|].
        -- exists more. reflexivity.
        -- eexists. rewrite <- List.app_assoc. reflexivity.
        -- exists more. reflexivity.
Qed.

End Errors.

(** What a finished generating phase reports, in terms of the tasks that
    were queued. *)
Lemma finished_results :
  forall GC gen write parseIndexDocument filesList freshId startT endT maxC
         indexFileId rootFolderId provided d courseSpec n s0 d' s,
    runPipeline_dispatch parseIndexDocument filesList freshId startT endT
      maxC indexFileId rootFolderId provided d = (inr (courseSpec, n, s0), d') ->
    steps GC gen write courseSpec n s0 s ->
    settledAll s ->
    Permutation (topicResults (report s))
                (map (taskResult GC gen write courseSpec) (queue s0))
    /\ consistent (report s)
    /\ totalTopics (report s) = countTopics courseSpec.
Proof.
  intros GC gen write parseIndexDocument filesList freshId startT endT maxC
         indexFileId rootFolderId provided d courseSpec n s0 d' s Hd Hsteps [Hsq Hsr].
  destruct (runPipeline_dispatch_inr _ _ _ _ _ _ _ _ _ _ _ _ _ _ Hd)
    as (_ & Hn & structure & Hs & Hq0 & Hr0 & Hres0 & Hc0 & Hf0 & Ht0).
  destruct (steps_invariants _ _ _ _ _ _ _ Hsteps) as (P & T & C & _).
  unfold outstanding in P.
  rewrite Hres0, Hr0, Hsq, Hsr in P. cbn [app map] in P.
  rewrite List.app_nil_r in P.
  split; [apply Permutation_sym, P|]. split.
  - apply C. split; rewrite Hres0; [exact Hc0|exact Hf0].
  - rewrite T. exact Ht0.
Qed.

Lemma taskResult_key :
  forall GC gen write courseSpec t,
    resultKey (taskResult GC gen write courseSpec t) = topicKey (taskKey t).
Proof. reflexivity. Qed.


Import Doubles.

(** The run on the one-topic CourseSpec: its task is started and settles. *)
Lemma oneTopic_run :
  forall gen,
    runPipeline unit gen writeOk noIndexDocument driveList freshByCount 0 1
      (Some 3%Z) (js "manual") (js "root") (Some oneTopicSpec) [] (oneTopicReport gen).
Proof.
  intros gen. unfold oneTopicReport.
  eapply (run_completed unit gen writeOk noIndexDocument driveList
            freshByCount 0 1 (Some 3%Z) (js "manual") (js "root") (Some oneTopicSpec) []
            oneTopicSpec 3%nat oneTopicStart _
            {| queue := []; running := [];
               report := settle unit gen writeOk oneTopicSpec
                           (report oneTopicStart)
                           (hd noTask (queue oneTopicStart)) |}).
  - vm_compute. reflexivity.
  - assert (E : oneTopicStart
                = {| queue := [hd noTask (queue oneTopicStart)];
                     running := []; report := report oneTopicStart |})
      by (vm_compute; reflexivity).
    rewrite E at 1.
    eapply steps_step; [apply step_start; cbn; lia|].
    eapply steps_step; [apply (step_settle _ _ _ _ _ _ [] _ [])|].
    apply steps_refl.
  - split; reflexivity.
Qed.






(** X4: every result in a report is the result of a topic of the CourseSpec,
    under the number of the topic's module, and no topic is reported twice:
    the keys (module number, topic number, topic name) of the results are,
    up to order, those of a selection of the CourseSpec's topics. *)
Theorem results_are_of_spec_topics :
  forall GeneratedContent generateTopicContent writeTopicContent
         parseIndexDocument filesList freshId startT endT maxC indexFileId
         rootFolderId provided d courseSpec r,
    obtainCourseSpec parseIndexDocument provided indexFileId = Ok courseSpec ->
    runPipeline GeneratedContent generateTopicContent writeTopicContent
      parseIndexDocument filesList freshId startT endT maxC indexFileId
      rootFolderId provided d r ->
    exists chosen,
      subseq chosen (specTopics courseSpec)
      /\ Permutation (map resultKey (topicResults r)) (map topicKey chosen).
Proof.
  intros GC gen write parseIndexDocument filesList freshId startT endT maxC
         indexFileId rootFolderId provided d courseSpec r Hspec Hrun.
  destruct Hrun as [r d1 Habort | spec1 n s0 d1 s Hd Hsteps Hdone].
  - exists []. split; [apply subseq_nil_l|].
    unfold runPipeline_dispatch in Habort. rewrite Hspec in Habort.
    destruct (createCourseStructure filesList freshId courseSpec rootFolderId d)
      as [structure d2].
    destruct (pLimit maxC) as [k|e].
    + destruct (dispatchModules structure (modules courseSpec)).
      discriminate Habort.
    + injection Habort as <- _. cbn. constructor.
  - destruct (finished_results _ _ _ _ _ _ _ _ _ _ _ _ _ _ _ _ _ _ Hd Hsteps
                Hdone) as (P & _ & _).
    destruct (runPipeline_dispatch_inr _ _ _ _ _ _ _ _ _ _ _ _ _ _ Hd)
      as (Hspec1 & _ & structure & _ & Hq0 & _).
    rewrite Hspec in Hspec1. injection Hspec1 as <-.
    exists (map taskKey (queue s0)). split.
    + rewrite Hq0. apply dispatchModules_keys.
    + cbn [finishReport topicResults].
      rewrite (Permutation_map resultKey P), !map_map.
      apply Permutation_refl.
Qed.

Lemma results_are_of_spec_topics_witness :
  exists chosen,
    subseq chosen (specTopics oneTopicSpec)
    /\ Permutation
         (map resultKey (topicResults (oneTopicReport (failOn (js "1.1")))))
         (map topicKey chosen).
Proof.
  exact (results_are_of_spec_topics unit (failOn (js "1.1")) writeOk
           noIndexDocument driveList freshByCount 0 1 (Some 3%Z) (js "manual")
           (js "root") (Some oneTopicSpec) [] oneTopicSpec _ eq_refl
           (oneTopic_run (failOn (js "1.1")))).
Defined.

(** X5: a report without error lines and without failed topics accounts for
    the whole CourseSpec: its results are, up to order, one per topic of the
    CourseSpec, all of them completed, and completedTopics equals
    totalTopics. *)
Theorem clean_report_covers_every_topic :
  forall GeneratedContent generateTopicContent writeTopicContent
         parseIndexDocument filesList freshId startT endT maxC indexFileId
         rootFolderId provided d courseSpec r,
    obtainCourseSpec parseIndexDocument provided indexFileId = Ok courseSpec ->
    runPipeline GeneratedContent generateTopicContent writeTopicContent
      parseIndexDocument filesList freshId startT endT maxC indexFileId
      rootFolderId provided d r ->
    errors r = [] ->
    failedTopics r = 0%nat ->
    Permutation (map resultKey (topicResults r))
                (map topicKey (specTopics courseSpec))
    /\ Forall (fun x => tr_status x = rs_completed) (topicResults r)
    /\ completedTopics r = totalTopics r.
Proof.
  intros GC gen write parseIndexDocument filesList freshId startT endT maxC
         indexFileId rootFolderId provided d courseSpec r Hspec Hrun Herr Hfail.
  destruct Hrun as [r d1 Habort | spec1 n s0 d1 s Hd Hsteps Hdone].
  - exfalso. unfold runPipeline_dispatch in Habort. rewrite Hspec in Habort.
    destruct (createCourseStructure filesList freshId courseSpec rootFolderId d)
      as [structure d2].
    destruct (pLimit maxC) as [k|e].
    + destruct (dispatchModules structure (modules courseSpec)).
      discriminate Habort.
    + injection Habort as <- _. cbn in Herr. discriminate Herr.
  - destruct (finished_results _ _ _ _ _ _ _ _ _ _ _ _ _ _ _ _ _ _ Hd Hsteps
                Hdone) as (P & [Cc Cf] & T).
    destruct (steps_errors _ _ _ _ _ _ _ Hsteps) as [more Hmore].
    cbn [finishReport topicResults errors failedTopics completedTopics
         totalTopics] in *.
    rewrite Hmore in Herr. apply app_eq_nil in Herr. destruct Herr as [Herr0 _].
    assert (Hq : map taskKey (queue s0) = specTopics spec1
                 /\ spec1 = courseSpec).
    { unfold runPipeline_dispatch in Hd. rewrite Hspec in Hd.
      destruct (createCourseStructure filesList freshId courseSpec rootFolderId
                  d)
        as [structure d2].
      destruct (pLimit maxC) as [k|e]; [|discriminate Hd].
      pose proof (dispatchModules_noerr structure (modules courseSpec)) as K.
      destruct (dispatchModules structure (modules courseSpec))
        as [tasks errs].
      injection Hd as <- <- <- <-. cbn [report errors queue] in *.
      split; [apply K, Herr0|reflexivity]. }
    destruct Hq as [Hq ->].
    assert (Hall : Forall (fun x => tr_status x = rs_completed)
                     (topicResults (report s))).
    { apply Forall_forall. intros x Hx.
      destruct (tr_status x) eqn:E; [reflexivity|]. exfalso.
      rewrite Hfail in Cf.
      assert (Hin : In x (filter isFailed (topicResults (report s)))).
      { apply filter_In. split; [exact Hx|]. unfold isFailed. rewrite E.
        reflexivity. }
      destruct (filter isFailed (topicResults (report s)));
        [destruct Hin|discriminate Cf]. }
    split; [|split; [exact Hall|]].
    + rewrite (Permutation_map resultKey P), !map_map.
      rewrite <- Hq, map_map. apply Permutation_refl.
    + rewrite Cc, T, <- specTopics_length, <- Hq, length_map.
      rewrite <- (length_map (taskResult GC gen write courseSpec)).
      rewrite <- (Permutation_length P).
      f_equal. apply filter_all.
      eapply Forall_impl; [|exact Hall].
      intros x Hx. unfold isCompleted. rewrite Hx. reflexivity.
Qed.

Lemma clean_report_covers_every_topic_witness :
  let r := oneTopicReport (failOn (js "9.9")) in
  Permutation (map resultKey (topicResults r))
              (map topicKey (specTopics oneTopicSpec))
  /\ Forall (fun x => tr_status x = rs_completed) (topicResults r)
  /\ completedTopics r = totalTopics r.
Proof.
  refine (clean_report_covers_every_topic unit (failOn (js "9.9")) writeOk
            noIndexDocument driveList freshByCount 0 1 (Some 3%Z) (js "manual")
            (js "root") (Some oneTopicSpec) [] oneTopicSpec _ eq_refl
            (oneTopic_run (failOn (js "9.9"))) _ _).
  - vm_compute. reflexivity.
  - vm_compute. reflexivity.
Defined.

End RunFacts.

(* ================================================================== *)
(** ** Structure materializer and lookup: further properties *)
(* ================================================================== *)

Module FolderWriterFacts.

Import Drive Pipeline FolderWriter.

Lemma dispatchTopics_docs :
  forall n ms tops,
    Forall (fun t =>
              t_moduleNumber t = n
              /\ find (fun x => JS.eqb (ts_topicNumber x)
                                       (topicNumber (t_topic t)))
                      (ms_topics ms) = Some (t_topicStructure t))
           (fst (dispatchTopics n ms tops)).
Proof.
  intros n ms. induction tops as [|t tops IH]; [constructor|].
  cbn [dispatchTopics].
  destruct (dispatchTopics n ms tops) as [tasks errs]. cbn [fst] in IH.
  destruct (find _ (ms_topics ms)) as [ts|] eqn:E; cbn [fst]; [|exact IH].
  constructor; [|exact IH]. cbn [t_moduleNumber t_topic t_topicStructure].
  split; [reflexivity|exact E].
Qed.

(** X6: the documents that runPipeline hands to a topic task are the ones that
    getTopicDocs returns for the task's module number and topic number:
    both read the structure by the same two lookups. *)
Theorem dispatch_agrees_with_getTopicDocs :
  forall structure mods,
    Forall (fun t =>
              getTopicDocs structure (t_moduleNumber t)
                (topicNumber (t_topic t))
              = Some (ts_docs (t_topicStructure t)))
           (fst (dispatchModules structure mods)).
Proof.
  intros structure. induction mods as [|m mods IH]; [constructor|].
  cbn [dispatchModules].
  destruct (dispatchModules structure mods) as [tasks errs]. cbn [fst] in IH.
  destruct (find _ (fs_modules structure)) as [ms|] eqn:E; [|exact IH].
  pose proof (dispatchTopics_docs (moduleNumber m) ms (topics m)) as K.
  destruct (dispatchTopics (moduleNumber m) ms (topics m)) as [tasks1 errs1].
  cbn [fst] in K |- *. apply Forall_app. split; [|exact IH].
  eapply Forall_impl; [|exact K]. intros t [Hn Ht].
  unfold getTopicDocs. rewrite Hn, E, Ht. reflexivity.
Qed.

(** *** Materializing only adds files *)

Lemma appends_ret : forall A (a : A), appendsAtMost 0 (ret a).
Proof.
  intros A a d a' d' H. injection H as _ <-. exists [].
  rewrite List.app_nil_r. split; [reflexivity|]. split; [cbn; lia|constructor].
Qed.

Lemma appends_bind :
  forall A B n m (c : M A) (k : A -> M B),
    appendsAtMost n c -> (forall a, appendsAtMost m (k a)) ->
    appendsAtMost (n + m) (bind c k).
Proof.
  intros A B n m c k Hc Hk d b d2 H. unfold bind in H.
  destruct (c d) as [a d1] eqn:Ec.
  destruct (Hc d a d1 Ec) as (add1 & -> & L1 & F1).
  destruct (Hk a _ b d2 H) as (add2 & -> & L2 & F2).
  exists (add1 ++ add2). rewrite List.app_assoc. split; [reflexivity|].
  split; [rewrite length_app; lia|apply Forall_app; split; assumption].
Qed.

Lemma appends_forEach :
  forall A B (g : A -> nat) (f : A -> M B) xs,
    (forall x, appendsAtMost (g x) (f x)) ->
    appendsAtMost (list_sum (map g xs)) (forEach f xs).
Proof.
  intros A B g f xs Hf. induction xs as [|x xs IH]; cbn [forEach map].
  - apply appends_ret.
  - change (list_sum (g x :: map g xs))
      with (g x + list_sum (map g xs))%nat.
    apply appends_bind; [apply Hf|]. intros y.
    replace (list_sum (map g xs)) with (list_sum (map g xs) + 0)%nat by lia.
    apply appends_bind; [exact IH|]. intros ys. apply appends_ret.
Qed.

Section Appends.

Variable filesList : jsstring -> drive -> list DriveFile.
Variable freshId : drive -> jsstring.

Lemma appends_findOrCreateFolder :
  forall name parentId,
    appendsAtMost 1 (findOrCreateFolder filesList freshId name parentId).
Proof.
  intros name parentId d a d' H.
  unfold findOrCreateFolder, bind, findFolder, ret, createFolder,
    filesCreate in H.
  destruct (hd_error _) as [f|]; injection H as <- <-.
  - exists []. rewrite List.app_nil_r. split; [reflexivity|].
    split; [cbn; lia|constructor].
  - eexists. split; [reflexivity|]. split; [cbn; lia|].
    constructor; [split; reflexivity|constructor].
Qed.

Lemma appends_findOrCreateDoc :
  forall name parentId,
    appendsAtMost 1 (findOrCreateDoc filesList freshId name parentId).
Proof.
  intros name parentId d a d' H.
  unfold findOrCreateDoc, bind, findDoc, ret, createDoc, filesCreate in H.
  destruct (hd_error _) as [f|]; injection H as <- <-.
  - exists []. rewrite List.app_nil_r. split; [reflexivity|].
    split; [cbn; lia|constructor].
  - eexists. split; [reflexivity|]. split; [cbn; lia|].
    constructor; [split; reflexivity|constructor].
Qed.

Lemma appends_createTopicStructure :
  forall moduleFolderId topic,
    appendsAtMost 4
      (createTopicStructure filesList freshId moduleFolderId topic).
Proof.
  intros moduleFolderId topic. unfold createTopicStructure.
  change 4%nat with (1 + (1 + (1 + (1 + 0))))%nat.
  apply appends_bind; [apply appends_findOrCreateFolder|]. intros topicFolder.
  apply appends_bind; [apply appends_findOrCreateDoc|]. intros d1.
  apply appends_bind; [apply appends_findOrCreateDoc|]. intros d2.
  apply appends_bind; [apply appends_findOrCreateDoc|]. intros d3.
  apply appends_ret.
Qed.

Lemma list_sum_const :
  forall A (xs : list A) k,
    list_sum (map (fun _ => k) xs) = (k * List.length xs)%nat.
Proof.
  intros A xs k. induction xs as [|x xs IH]; cbn [map]; [cbn; lia|].
  change (list_sum (k :: map (fun _ : A => k) xs))
    with (k + list_sum (map (fun _ : A => k) xs))%nat.
  rewrite IH. cbn [List.length]. lia.
Qed.

Lemma appends_createModuleStructure :
  forall courseFolderId module,
    appendsAtMost (moduleFiles module)
      (createModuleStructure filesList freshId courseFolderId module).
Proof.
  intros courseFolderId module. unfold createModuleStructure, moduleFiles.
  apply appends_bind; [apply appends_findOrCreateFolder|]. intros moduleFolder.
  replace (4 * List.length (topics module))%nat
    with (list_sum (map (fun _ : Topic => 4%nat) (topics module)) + 0)%nat
    by (rewrite list_sum_const; lia).
  apply appends_bind; [|intros; apply appends_ret].
  apply appends_forEach. intros topic. apply appends_createTopicStructure.
Qed.

Lemma moduleFiles_sum :
  forall courseSpec,
    list_sum (map moduleFiles (modules courseSpec))
    = (List.length (modules courseSpec) + 4 * countTopics courseSpec)%nat.
Proof.
  intros courseSpec. rewrite PipelineFacts.countTopics_concat.
  induction (modules courseSpec) as [|m ms IH];
    cbn [map List.concat List.length]; [reflexivity|].
  change (list_sum (moduleFiles m :: map moduleFiles ms))
    with (moduleFiles m + list_sum (map moduleFiles ms))%nat.
  rewrite IH, length_app. unfold moduleFiles. lia.
Qed.

End Appends.

(** X7: createCourseStructure never deletes, renames, moves or trashes a file of
    the store, whatever the listing service answers: the store it leaves is
    the store it found followed by the files it created, each of them under
    one parent and not trashed; and it creates at most one folder for the
    course, one per module, and one folder and three documents per topic. *)
Theorem createCourseStructure_only_appends :
  forall filesList freshId courseSpec rootFolderId d,
    let '(structure, d') :=
      createCourseStructure filesList freshId courseSpec rootFolderId d in
    exists added,
      d' = d ++ added
      /\ (List.length added
          <= 1 + List.length (modules courseSpec)
             + 4 * countTopics courseSpec)%nat
      /\ Forall asCreated added.
Proof.
  intros filesList freshId courseSpec rootFolderId d.
  destruct (createCourseStructure filesList freshId courseSpec rootFolderId d)
    as [structure d'] eqn:E.
  assert (H : appendsAtMost
                (1 + (list_sum (map moduleFiles (modules courseSpec)) + 0))
                (createCourseStructure filesList freshId courseSpec
                   rootFolderId)).
  { unfold createCourseStructure.
    apply appends_bind; [apply appends_findOrCreateFolder|].
    intros courseFolder.
    apply appends_bind; [|intros; apply appends_ret].
    apply appends_forEach. intros module.
    apply appends_createModuleStructure. }
  destruct (H d structure d' E) as (added & Ed & L & F).
  exists added. split; [exact Ed|]. split; [|exact F].
  rewrite moduleFiles_sum in L. lia.
Qed.

End FolderWriterFacts.

(* ================================================================== *)
(** ** Trimming, lines and the clean-up of JSON answers: properties *)
(* ================================================================== *)

Module TextFacts.

Import Parser Client.

Lemma trimStart_blank :
  forall ws s, blank ws -> trimStart (ws ++ s) = trimStart s.
Proof.
  intros ws s H. induction H as [|c ws Hc H IH]; [reflexivity|].
  cbn [app trimStart]. rewrite Hc. exact IH.
Qed.

Lemma trimStart_length :
  forall s, (List.length (trimStart s) <= List.length s)%nat.
Proof.
  induction s as [|c s IH]; [cbn; lia|].
  cbn [trimStart]. destruct (isWhiteSpace c); cbn [List.length]; lia.
Qed.

Lemma trimStart_split :
  forall s, exists ws, blank ws /\ s = ws ++ trimStart s.
Proof.
  induction s as [|c s (ws & Hws & E)];
    [exists []; split; [constructor|reflexivity]|].
  cbn [trimStart]. destruct (isWhiteSpace c) eqn:Hc.
  - exists (c :: ws). split; [constructor; assumption|].
    cbn [app]. rewrite <- E. reflexivity.
  - exists []. split; [constructor|reflexivity].
Qed.

Lemma trimStart_head :
  forall c s, trimStart (c :: s) = c :: s -> isWhiteSpace c = false.
Proof.
  intros c s H. cbn [trimStart] in H.
  destruct (isWhiteSpace c); [|reflexivity].
  pose proof (trimStart_length s) as L. rewrite H in L. cbn in L. lia.
Qed.

Lemma trimStart_keep :
  forall c s, isWhiteSpace c = false -> trimStart (c :: s) = c :: s.
Proof. intros c s H. cbn [trimStart]. rewrite H. reflexivity. Qed.

Lemma trimStart_idem : forall s, trimStart (trimStart s) = trimStart s.
Proof.
  induction s as [|c s IH]; [reflexivity|].
  cbn [trimStart]. destruct (isWhiteSpace c) eqn:Hc; [exact IH|].
  cbn [trimStart]. rewrite Hc. reflexivity.
Qed.

Lemma trimStart_app :
  forall p s, p <> [] -> trimStart p = p -> trimStart (p ++ s) = p ++ s.
Proof.
  intros [|c p] s Hne H; [contradiction|].
  cbn [app]. apply trimStart_keep. eapply trimStart_head, H.
Qed.

Lemma trimEnd_app :
  forall s q, q <> [] -> trimEnd q = q -> trimEnd (s ++ q) = s ++ q.
Proof.
  intros s q Hne H. unfold trimEnd in *. rewrite rev_app_distr.
  rewrite trimStart_app.
  - rewrite <- rev_app_distr. apply rev_involutive.
  - intros E. apply Hne. rewrite <- (rev_involutive q), E. reflexivity.
  - rewrite <- H at 2. rewrite rev_involutive. reflexivity.
Qed.

Lemma trimEnd_blank :
  forall s ws, blank ws -> trimEnd (s ++ ws) = trimEnd s.
Proof.
  intros s ws H. unfold trimEnd. rewrite rev_app_distr.
  rewrite trimStart_blank; [reflexivity|].
  unfold blank in *. apply Forall_rev. exact H.
Qed.

(** A string that [trim] leaves as it is starts and ends with a code unit
    that is not white space, or is empty. *)
Lemma trim_fixed :
  forall s, trim s = s -> trimStart s = s /\ trimEnd s = s.
Proof.
  intros s H. unfold trim in H.
  assert (L1 : (List.length (trimEnd (trimStart s))
                <= List.length (trimStart s))%nat).
  { unfold trimEnd. rewrite length_rev.
    etransitivity; [apply trimStart_length|]. rewrite length_rev. lia. }
  assert (E : trimStart s = s).
  { destruct (trimStart_split s) as (ws & Hws & Es).
    destruct ws as [|c ws]; [symmetry; exact Es|]. exfalso.
    rewrite H in L1. rewrite Es in L1 at 1.
    rewrite length_app in L1. cbn in L1. lia. }
  split; [exact E|]. rewrite E in H. exact H.
Qed.

Lemma trimEnd_prefix :
  forall s, exists ws, blank ws /\ s = trimEnd s ++ ws.
Proof.
  intros s. destruct (trimStart_split (rev s)) as (ws & Hws & E).
  exists (rev ws). split; [apply Forall_rev, Hws|].
  unfold trimEnd. rewrite <- rev_app_distr, <- E. symmetry.
  apply rev_involutive.
Qed.

Lemma trimStart_trimEnd :
  forall s, trimStart s = s -> trimStart (trimEnd s) = trimEnd s.
Proof.
  intros s H. destruct (trimEnd_prefix s) as (ws & Hws & E).
  destruct (trimEnd s) as [|c u] eqn:Eu; [reflexivity|].
  apply trimStart_keep. rewrite E in H. cbn [app] in H.
  eapply trimStart_head, H.
Qed.

Lemma trimEnd_idem : forall s, trimEnd (trimEnd s) = trimEnd s.
Proof.
  intros s. unfold trimEnd. rewrite rev_involutive, trimStart_idem.
  reflexivity.
Qed.

Lemma trim_idem : forall s, trim (trim s) = trim s.
Proof.
  intros s. unfold trim.
  rewrite (trimStart_trimEnd (trimStart s) (trimStart_idem s)).
  apply trimEnd_idem.
Qed.

Lemma trim_pad :
  forall a x b, blank a -> blank b -> trim x = x -> trim (a ++ x ++ b) = x.
Proof.
  intros a x b Ha Hb Hx. destruct (trim_fixed x Hx) as [Hs He].
  unfold trim. rewrite (trimStart_blank a _ Ha).
  destruct x as [|c x].
  - cbn [app]. destruct (trimStart_split b) as (ws & Hws & E).
    assert (Eb : trimStart b = []).
    { clear - Hb. induction Hb as [|c b Hc Hb IH]; [reflexivity|].
      cbn [trimStart]. rewrite Hc. exact IH. }
    rewrite Eb. reflexivity.
  - rewrite trimStart_app; [|discriminate|exact Hs].
    rewrite (trimEnd_blank _ b Hb). exact He.
Qed.

Lemma trimStart_all_blank : forall s, blank s -> trimStart s = [].
Proof.
  intros s H. induction H as [|c s Hc H IH]; [reflexivity|].
  cbn [trimStart]. rewrite Hc. exact IH.
Qed.

(** *** The lines that the parser works on *)

Lemma splitLines_Forall :
  forall (P : N -> Prop) s,
    Forall P s -> Forall (Forall P) (splitLines s).
Proof.
  intros P s H. induction H as [|c s Hc H IH]; cbn [splitLines].
  - constructor; constructor.
  - destruct (c =? 0x0A); [constructor; [constructor|exact IH]|].
    destruct (splitLines s) as [|l ls].
    + constructor; [constructor; [exact Hc|constructor]|constructor].
    + inversion IH as [|? ? Hl Hls]; subst.
      constructor; [constructor; assumption|exact Hls].
Qed.

Lemma splitLines_no_newline :
  forall s, Forall (fun l => ~ In 0x0A l) (splitLines s).
Proof.
  induction s as [|c s IH]; cbn [splitLines].
  - constructor; [intros []|constructor].
  - destruct (c =? 0x0A) eqn:Ec; [constructor; [intros []|exact IH]|].
    destruct (splitLines s) as [|l ls].
    + constructor; [|constructor]. intros [H|[]]. subst c. discriminate Ec.
    + inversion IH as [|? ? Hl Hls]; subst.
      constructor; [|exact Hls]. intros [H|H]; [subst c; discriminate Ec|].
      exact (Hl H).
Qed.

Lemma trim_incl : forall s c, In c (trim s) -> In c s.
Proof.
  intros s c H. unfold trim in H.
  destruct (trimEnd_prefix (trimStart s)) as (ws & _ & E).
  destruct (trimStart_split s) as (ws' & _ & E').
  rewrite E'. apply in_or_app. right. rewrite E. apply in_or_app. left.
  exact H.
Qed.

(** X8: every line that parseIndexContent hands to its extractors is
    non-empty, is left as it is by [trim] (so it starts and ends with a code
    unit that is not white space) and contains no line feed. *)
Theorem contentLines_are_trimmed :
  forall content,
    Forall (fun l => l <> [] /\ trim l = l /\ ~ In 0x0A l)
           (contentLines content).
Proof.
  intros content. unfold contentLines. apply Forall_forall. intros l Hl.
  apply filter_In in Hl. destruct Hl as [Hin Hne].
  apply in_map_iff in Hin. destruct Hin as (raw & <- & Hraw).
  split.
  - intros E. rewrite E in Hne. discriminate Hne.
  - split; [apply trim_idem|].
    intros H. apply trim_incl in H.
    pose proof (splitLines_no_newline content) as K.
    rewrite Forall_forall in K. exact (K raw Hraw H).
Qed.

(** X9: a content of white space only (the empty content included) has no
    line for the extractors, and parseIndexContent returns the defaults: the
    course name 'Untitled Course', the level 'básico', the placeholder
    objective and no module. *)
Theorem blank_content_parses_to_defaults :
  forall toLowerCase now content,
    toLowerCase [] = [] ->
    blank content ->
    contentLines content = []
    /\ parseIndexContent toLowerCase now content
       = {| courseName := js "Untitled Course";
            level := basico;
            objective := js "Completar el curso satisfactoriamente";
            targetAudience := None;
            modules := [];
            metadata := Some {| sourceFileId := None;
                                parsedAt := Some now |} |}.
Proof.
  intros toLowerCase now content Hlow Hblank.
  assert (E : contentLines content = []).
  { unfold contentLines.
    pose proof (splitLines_Forall _ content Hblank) as K.
    induction K as [|l ls Hl K IH]; [reflexivity|].
    cbn [map filter]. unfold trim at 1.
    rewrite (trimStart_all_blank l Hl). exact IH. }
  split; [exact E|].
  unfold parseIndexContent. rewrite E.
  unfold extractLevel. cbn [join]. rewrite Hlow. reflexivity.
Qed.

Lemma blank_content_parses_to_defaults_witness :
  contentLines (js "  " ++ js_nl ++ js " ") = []
  /\ parseIndexContent (fun s => s) (js "2026-01-23T00:00:00.000Z")
       (js "  " ++ js_nl ++ js " ")
     = {| courseName := js "Untitled Course";
          level := basico;
          objective := js "Completar el curso satisfactoriamente";
          targetAudience := None;
          modules := [];
          metadata := Some {| sourceFileId := None;
                              parsedAt :=
                                Some (js "2026-01-23T00:00:00.000Z") |} |}.
Proof.
  refine (blank_content_parses_to_defaults (fun s => s)
            (js "2026-01-23T00:00:00.000Z") (js "  " ++ js_nl ++ js " ")
            eq_refl _).
  vm_compute. repeat constructor.
Defined.

(** *** The clean-up of generateJSON *)

Lemma startsWith_app_same : forall p s, startsWith p (p ++ s) = true.
Proof.
  induction p as [|c p IH]; intros s; cbn; [reflexivity|].
  rewrite N.eqb_refl, IH. reflexivity.
Qed.

Lemma skipn_prefix :
  forall (p s : jsstring), skipn (List.length p) (p ++ s) = s.
Proof.
  intros p s. rewrite skipn_app, skipn_all, Nat.sub_diag. reflexivity.
Qed.

Lemma firstn_suffix :
  forall (s q : jsstring),
    firstn (List.length (s ++ q) - List.length q) (s ++ q) = s.
Proof.
  intros s q. rewrite length_app.
  replace (List.length s + List.length q - List.length q)%nat
    with (List.length s + 0)%nat by lia.
  rewrite firstn_app_2. cbn [firstn]. apply List.app_nil_r.
Qed.

Lemma endsWith_suffix : forall s p, endsWith (s ++ p) p = true.
Proof.
  intros s p. unfold endsWith. rewrite rev_app_distr.
  apply startsWith_app_same.
Qed.

(** White space does not open a fence. *)
Lemma startsWith_fence_blank :
  forall c ws s,
    isWhiteSpace c = true ->
    startsWith (js "```") ((c :: ws) ++ s) = false.
Proof.
  intros c ws s Hc. change (js "```") with [0x60; 0x60; 0x60].
  cbn [app startsWith]. destruct (0x60 =? c) eqn:E; [|reflexivity].
  apply N.eqb_eq in E. subst c. discriminate Hc.
Qed.

Lemma fenced_fixed :
  forall open middle,
    open <> [] -> trimStart open = open ->
    trim (open ++ middle ++ js "```") = open ++ middle ++ js "```".
Proof.
  intros open middle Hne Hopen. unfold trim.
  rewrite (trimStart_app open _ Hne Hopen).
  rewrite !List.app_assoc. apply trimEnd_app; [discriminate|reflexivity].
Qed.

(** The part of the clean-up behind the opening fence. *)
Lemma cleanContent_tail :
  forall c ws2 body ws3,
    isWhiteSpace c = true -> blank ws2 -> blank ws3 -> trim body = body ->
    let rest := (c :: ws2) ++ body ++ ws3 ++ js "```" in
    trim (let r := if startsWith (js "```") rest then skipn 3 rest else rest in
          if endsWith r (js "```") then firstn (List.length r - 3) r else r)
    = body.
Proof.
  intros c ws2 body ws3 Hc H2 H3 Hbody rest. subst rest.
  rewrite (startsWith_fence_blank c ws2 _ Hc). cbv zeta.
  replace ((c :: ws2) ++ body ++ ws3 ++ js "```")
    with (((c :: ws2) ++ body ++ ws3) ++ js "```")
    by (rewrite <- !List.app_assoc; reflexivity).
  rewrite endsWith_suffix.
  change 3%nat with (List.length (js "```")). rewrite firstn_suffix.
  apply trim_pad; [constructor; assumption|exact H3|exact Hbody].
Qed.

(** X10: generateJSON recovers the payload from a fenced answer.  When the
    answer of the service is the payload between an opening fence (with or
    without the tag json) and a closing fence, with white space around the
    fences and at least one white-space code unit (such as a line feed)
    behind the opening fence, the text handed to JSON.parse is the payload
    itself; and an answer without fences is handed over trimmed.  The
    payload is any text that [trim] leaves as it is; for the answer without
    fences it must not start or end with a fence. *)
Theorem cleanContent_unwraps :
  forall ws1 c ws2 body ws3 ws4,
    blank ws1 -> isWhiteSpace c = true -> blank ws2 -> blank ws3 ->
    blank ws4 -> trim body = body ->
    cleanContent (ws1 ++ (js "```json" ++ (c :: ws2) ++ body ++ ws3
                            ++ js "```") ++ ws4) = body
    /\ cleanContent (ws1 ++ (js "```" ++ (c :: ws2) ++ body ++ ws3
                               ++ js "```") ++ ws4) = body
    /\ (startsWith (js "```") body = false ->
        endsWith body (js "```") = false ->
        cleanContent (ws1 ++ body ++ ws4) = body).
Proof.
  intros ws1 c ws2 body ws3 ws4 H1 Hc H2 H3 H4 Hbody.
  pose proof (cleanContent_tail c ws2 body ws3 Hc H2 H3 Hbody) as T.
  cbv zeta in T.
  split; [|split].
  - unfold cleanContent.
    rewrite (trim_pad ws1 _ ws4 H1 H4);
      [|replace (js "```json" ++ (c :: ws2) ++ body ++ ws3 ++ js "```")
          with (js "```json" ++ ((c :: ws2) ++ body ++ ws3) ++ js "```")
          by (rewrite <- !List.app_assoc; reflexivity);
        apply fenced_fixed; [discriminate|reflexivity]].
    rewrite startsWith_app_same.
    change 7%nat with (List.length (js "```json")). rewrite skipn_prefix.
    exact T.
  - unfold cleanContent.
    rewrite (trim_pad ws1 _ ws4 H1 H4);
      [|replace (js "```" ++ (c :: ws2) ++ body ++ ws3 ++ js "```")
          with (js "```" ++ ((c :: ws2) ++ body ++ ws3) ++ js "```")
          by (rewrite <- !List.app_assoc; reflexivity);
        apply fenced_fixed; [discriminate|reflexivity]].
    assert (E : startsWith (js "```json")
                  (js "```" ++ (c :: ws2) ++ body ++ ws3 ++ js "```")
                = false).
    { change (js "```json") with ([0x60; 0x60; 0x60] ++ js "json").
      change (js "```") with [0x60; 0x60; 0x60].
      cbn [app startsWith]. rewrite !N.eqb_refl. cbn [andb].
      change (js "json") with (0x6A :: js "son"). cbn [startsWith].
      destruct (0x6A =? c) eqn:E; [|reflexivity].
      apply N.eqb_eq in E. subst c. discriminate Hc. }
    assert (S3 : forall X : jsstring, skipn 3 (js "```" ++ X) = X).
    { intros X. change 3%nat with (List.length (js "```")).
      apply skipn_prefix. }
    rewrite E, startsWith_app_same, !S3.
    rewrite (startsWith_fence_blank c ws2 _ Hc) in T. exact T.
  - intros Hs He. unfold cleanContent.
    rewrite (trim_pad ws1 _ ws4 H1 H4 Hbody).
    assert (E : startsWith (js "```json") body = false).
    { change (js "```json") with (js "```" ++ js "json").
      clear - Hs. revert Hs. generalize (js "```"), (js "json").
      intros p q. revert body. induction p as [|x p IH]; intros body H;
        [discriminate H|].
      destruct body as [|y body]; [reflexivity|]. cbn [app startsWith] in *.
      destruct (x =? y); [|reflexivity]. cbn [andb] in *. apply IH, H. }
    rewrite E, Hs, He. exact Hbody.
Qed.

Lemma cleanContent_unwraps_witness :
  cleanContent (js " " ++ (js "```json" ++ (0x0A :: []) ++ js "{}" ++ js_nl
                             ++ js "```") ++ js_nl) = js "{}"
  /\ cleanContent (js " " ++ (js "```" ++ (0x0A :: []) ++ js "{}" ++ js_nl
                                ++ js "```") ++ js_nl) = js "{}"
  /\ (startsWith (js "```") (js "{}") = false ->
      endsWith (js "{}") (js "```") = false ->
      cleanContent (js " " ++ js "{}" ++ js_nl) = js "{}").
Proof.
  refine (cleanContent_unwraps (js " ") 0x0A [] (js "{}") js_nl js_nl
            _ eq_refl _ _ _ _).
  - vm_compute. repeat constructor.
  - constructor.
  - vm_compute. repeat constructor.
  - vm_compute. repeat constructor.
  - vm_compute. reflexivity.
Defined.

End TextFacts.

(* ================================================================== *)
(** ** Configuration: properties *)
(* ================================================================== *)

Module ConfigFacts.

Import Parser Config Pipeline.

Lemma digitsValue_digit :
  forall acc a s,
    isDigit (N_of_ascii a) = true ->
    digitsValue acc (js (String a s))
    = digitsValue (acc * 10 + (N_of_ascii a - 0x30)) (js s).
Proof.
  intros acc a s H. rewrite DriveFacts.js_ascii.
  - cbn [digitsValue]. rewrite H. reflexivity.
  - unfold isDigit in H. apply andb_true_iff in H. destruct H as [_ H].
    apply N.leb_le in H. apply N.ltb_lt. lia.
Qed.

(** Reading the digits of a decimal numeral gives the number it denotes. *)
Lemma digitsValue_acc :
  forall u acc,
    digitsValue (N.pos acc) (js (NilEmpty.string_of_uint u))
    = N.pos (Pos.of_uint_acc u acc).
Proof.
  induction u; intros acc;
    cbn [NilEmpty.string_of_uint Pos.of_uint_acc];
    [reflexivity
    | rewrite digitsValue_digit by reflexivity;
      match goal with
      | |- digitsValue ?x _ = N.pos (Pos.of_uint_acc _ ?y) =>
          replace x with (N.pos y) by (vm_compute N_of_ascii; lia)
      end;
      apply IHu ..].
Qed.

Lemma digitsValue_numeral :
  forall u, digitsValue 0 (js (NilEmpty.string_of_uint u)) = Pos.of_uint u.
Proof.
  induction u; cbn [NilEmpty.string_of_uint Pos.of_uint];
    [reflexivity
    | rewrite digitsValue_digit by reflexivity;
      first [ exact IHu
            | match goal with
              | |- digitsValue ?x _ = N.pos (Pos.of_uint_acc _ ?y) =>
                  change x with (N.pos y)
              end;
              apply digitsValue_acc ] ..].
Qed.

Lemma digitsValue_ofNumber : forall n, digitsValue 0 (ofNumber n) = n.
Proof.
  intros n. unfold ofNumber, NilZero.string_of_uint.
  rewrite <- (DecimalN.Unsigned.of_to n) at 2.
  destruct (N.to_uint n) eqn:E; try apply digitsValue_numeral.
  reflexivity.
Qed.

(** A decimal numeral starts with a digit. *)
Lemma ofNumber_head :
  forall n, exists c t, ofNumber n = c :: t /\ isDigit c = true.
Proof.
  intros n. unfold ofNumber, NilZero.string_of_uint.
  destruct (N.to_uint n); cbn [NilEmpty.string_of_uint];
    rewrite DriveFacts.js_ascii by reflexivity;
    eexists _, _; split; reflexivity.
Qed.

(** X11: when MAX_CONCURRENT_TOPICS holds the decimal numeral of a number
    n below 2^53 (the range in which a JavaScript number is the integer
    itself), config.generation.maxConcurrentTopics is n: the numeral is
    read back, the numeral 0 included, and the default 3 is not used; and
    from 1 up it is a bound that the limiter accepts. *)
Theorem maxConcurrentTopics_reads_numeral :
  forall n,
    n < 2 ^ 53 ->
    maxConcurrentTopics (Some (ofNumber n)) = Some (Z.of_N n)
    /\ (1 <= n ->
        pLimit (maxConcurrentTopics (Some (ofNumber n))) = Ok (N.to_nat n)).
Proof.
  intros n _.
  assert (E : maxConcurrentTopics (Some (ofNumber n)) = Some (Z.of_N n)).
  { unfold maxConcurrentTopics, getEnvVarOptional.
    pose proof (digitsValue_ofNumber n) as V.
    destruct (ofNumber_head n) as (c & t & E & Hc). rewrite E in *.
    cbn [orStr]. unfold parseInt10.
    assert (Hw : isWhiteSpace c = false).
    { unfold isDigit in Hc. apply andb_true_iff in Hc. destruct Hc as [H1 H2].
      apply N.leb_le in H1. apply N.leb_le in H2. unfold isWhiteSpace.
      repeat match goal with
             | |- (_ || _) = false => apply orb_false_iff; split
             | |- (_ && _) = false => apply andb_false_iff; left
             | |- (_ =? _) = false => apply N.eqb_neq; lia
             | |- (_ <=? _) = false => apply N.leb_gt; lia
             end. }
    assert (Hs : trimStart (c :: t) = c :: t)
      by (cbn [trimStart]; rewrite Hw; reflexivity).
    rewrite Hs.
    assert (H2D : (c =? 0x2D) = false /\ (c =? 0x2B) = false).
    { unfold isDigit in Hc. apply andb_true_iff in Hc. destruct Hc as [H1 H2].
      apply N.leb_le in H1. split; apply N.eqb_neq; lia. }
    destruct H2D as [-> ->]. rewrite Hc, V. reflexivity. }
  split; [exact E|].
  intros Hn. rewrite E. cbn [pLimit].
  destruct (1 <=? Z.of_N n)%Z eqn:L.
  - f_equal. lia.
  - apply Z.leb_gt in L. lia.
Qed.

Lemma maxConcurrentTopics_reads_numeral_witness :
  maxConcurrentTopics (Some (ofNumber 5)) = Some 5%Z
  /\ (1 <= 5 ->
      pLimit (maxConcurrentTopics (Some (ofNumber 5))) = Ok 5%nat).
Proof.
  refine (maxConcurrentTopics_reads_numeral 5 _). reflexivity.
Defined.

End ConfigFacts.

(* ================================================================== *)
(** ** Index parser: the topics it produces *)
(* ================================================================== *)

Module ParsedFacts.

Import Parser Parsed ParserFacts.

Lemma closeModule_topics :
  forall (Q : Topic -> Prop) mods cur,
    Forall (fun m => Forall Q (topics m)) mods ->
    match cur with Some cm => Forall Q (topics cm) | None => True end ->
    Forall (fun m => Forall Q (topics m)) (closeModule mods cur).
Proof.
  intros Q mods [cm|] H Hc; cbn [closeModule]; [|exact H].
  destruct (0 <? List.length (topics cm))%nat; [|exact H].
  apply Forall_app. split; [exact H|]. constructor; [exact Hc|constructor].
Qed.

Lemma parseLoop_topics :
  forall (Q : Topic -> Prop),
    (forall num name, name <> [] -> trim name = name -> Q (mkTopic num name)) ->
    forall lines, topicsAll Q (parseLoop lines).
Proof.
  intros Q HQ. apply (parseLoop_invariant (topicsAll Q)).
  - split; [constructor|exact I].
  - intros st name [H1 H2]. unfold topicsAll, openModule.
    cbn [ps_modules currentModule mkModule topics].
    split; [apply closeModule_topics; assumption|constructor].
  - intros st tm [H1 H2]. unfold topicsAll, addTopic.
    set (name := trim _).
    assert (Hpush : forall cm,
              Forall Q (topics cm) ->
              Forall Q (topics (if (0 <? List.length name)%nat
                                then pushTopic cm
                                       (mkTopic (grp 2 tm ++ js "." ++ grp 3 tm)
                                          name)
                                else cm))).
    { intros cm Hcm. destruct (0 <? List.length name)%nat eqn:E; [|exact Hcm].
      cbn [pushTopic topics]. apply Forall_app. split; [exact Hcm|].
      constructor; [|constructor].
      assert (Hn : name <> []).
      { intros E0. rewrite E0 in E. discriminate E. }
      apply HQ; [exact Hn|]. subst name. apply TextFacts.trim_idem. }
    destruct (currentModule st) as [cm|]; cbn [ps_modules currentModule];
      (split; [exact H1|]); apply Hpush; [exact H2|constructor].
  - intros st line [H1 H2]. unfold topicsAll, noteResult.
    destruct (currentModule st) as [cm|] eqn:E;
      [|split; [exact H1|rewrite E; exact I]].
    destruct (includes line (js "📌 Resultado:"));
      cbn [ps_modules currentModule setModuleResult topics];
      [|rewrite E]; split; assumption.
Qed.

Lemma altStep_topics :
  forall lines acc,
    Forall asParsed (fst acc) ->
    Forall asParsed (fst (fold_left altStep lines acc)).
Proof.
  induction lines as [|line lines IH]; intros acc H; [exact H|].
  cbn [fold_left]. apply IH. destruct acc as [tops n]. unfold altStep.
  cbn [fst] in H.
  destruct (includes line (js "Objetivo") || includes line (js "🎯"));
    [exact H|].
  destruct (test false re_separator line); [exact H|].
  destruct (List.length line <? 5)%nat; [exact H|].
  destruct (test false re_hasNumber line || (10 <? List.length line)%nat);
    [|exact H].
  destruct (exec false re_numbered line) as [f|]; cbn [fst];
    (apply Forall_app; split; [exact H|]); (constructor; [|constructor]);
    unfold asParsed; cbn [mkTopic topicName status description generatedDocs];
    (split; [apply TextFacts.trim_idem|repeat split]).
Qed.

(** X12: every topic of the CourseSpec that parseIndexContent returns has a
    name that [trim] leaves as it is, the status 'pending', no description
    and no generated documents.  The topics of the modules that the
    line-by-line loop found have a non-empty name as well; and unless that
    loop found no module, its modules are the modules of the result. *)
Theorem parsed_topics :
  forall toLowerCase now content,
    let spec := parseIndexContent toLowerCase now content in
    let found := loopModules (contentLines content) in
    Forall (fun m => Forall asParsed (topics m)) (modules spec)
    /\ Forall (fun m => Forall named (topics m)) found
    /\ (found <> [] -> modules spec = found).
Proof.
  intros toLowerCase now content spec found. subst spec found.
  rewrite parseIndexContent_modules. unfold parseModules, loopModules.
  set (lines := contentLines content).
  assert (P1 : topicsAll asParsed (parseLoop lines)).
  { apply parseLoop_topics. intros num name _ Ht. unfold asParsed.
    cbn [mkTopic topicName status description generatedDocs].
    split; [exact Ht|repeat split]. }
  assert (P2 : topicsAll named (parseLoop lines)).
  { apply parseLoop_topics. intros num name Hn _. exact Hn. }
  destruct P1 as [P1a P1b]. destruct P2 as [P2a P2b].
  pose proof (closeModule_topics asParsed _ _ P1a P1b) as C1.
  pose proof (closeModule_topics named _ _ P2a P2b) as C2.
  split; [|split; [exact C2|]].
  - destruct (List.length _ =? 0)%nat; [|exact C1].
    unfold parseAlternativeFormat.
    pose proof (altStep_topics lines ([], 1) (Forall_nil _)) as A.
    destruct (fold_left altStep lines ([], 1)) as [tops n].
    cbn [fst topics] in A |- *.
    destruct (0 <? List.length tops)%nat; constructor; [exact A|constructor].
  - intros Hne.
    destruct (closeModule (ps_modules (parseLoop lines))
                (currentModule (parseLoop lines))) as [|m ms];
      [contradiction|reflexivity].
Qed.

End ParsedFacts.
